(** * next-wp: the enrollment / progress synchronisation layer

    A shallow embedding of [src/lib/tutor-enrollment.ts] (the Local Progress
    Store) and [src/lib/tutor-enrollment-sync.ts] (the Sync Coordinator),
    followed by the properties of the specification that are about them.

    Conventions of the embedding.
    - A JavaScript [number] used as an identifier, a counter or a percentage
      is a [Z]; an optional field or argument ([userId?: number]) is an
      [option]; [undefined] is [None].
    - [localStorage] is a record holding the three JSON collections; the
      flag [window_defined] is the test [typeof window !== 'undefined'] of
      [getStorageData] / [setStorageData].
    - [new Date().toISOString()] is an explicit argument [now] of every
      operation that reads the clock.
    - An [async] method runs to completion: no other task is interleaved at
      its [await]s.  The remote API client is an interface (a type class)
      over an abstract remote state; every call is logged. *)

From Stdlib Require Import ZArith Lia.
From stdpp Require Import base tactics option list strings pretty.

Local Open Scope Z_scope.

(** ** JavaScript truthiness and strict equality on the values used *)

(** [!!n] for a number: [0] is falsy. *)
Definition truthy_num (n : Z) : bool := negb (n =? 0).

(** [!!userId] for an optional number: [undefined] and [0] are falsy. *)
Definition truthy_id (u : option Z) : bool :=
  match u with
  | Some n => truthy_num n
  | None => false
  end.

(** [!!s] for an optional string: [undefined] and the empty string are falsy. *)
Definition truthy_str (s : option string) : bool :=
  match s with
  | Some EmptyString => false
  | Some _ => true
  | None => false
  end.

(** [a === b] on optional numbers. *)
Definition strict_eq (a b : option Z) : bool :=
  match a, b with
  | Some x, Some y => x =? y
  | None, None => true
  | _, _ => false
  end.

(** [(!userId || record.userId === userId)], the user clause shared by every
    matching predicate of the store. *)
Definition user_matches (userId stored : option Z) : bool :=
  negb (truthy_id userId) || strict_eq stored userId.

(** [Array.prototype.findIndex]; [None] is the result [-1]. *)
Fixpoint findIndex {A : Type} (f : A -> bool) (l : list A) : option nat :=
  match l with
  | [] => None
  | x :: l' => if f x then Some O else S <$> findIndex f l'
  end.

(** [Array.prototype.includes] on numbers. *)
Definition includes (l : list Z) (x : Z) : bool := existsb (Z.eqb x) l.

(** [Math.round (a / b)] for [0 <= a] and [0 < b], on exact quotients. *)
Definition round_div (a b : Z) : Z := (2 * a + b) / (2 * b).

(** ** The Local Progress Store ([tutor-enrollment.ts]) *)

Module Local.

Inductive EnrollmentMethod := free | purchase | admin.

Record EnrollmentData := mkEnrollment {
  e_courseId : Z;
  e_userId : option Z;
  e_enrollmentMethod : EnrollmentMethod;
  e_timestamp : string
}.

Record CourseProgress := mkCourseProgress {
  courseId : Z;
  userId : option Z;
  completedLessons : list Z;
  completedQuizzes : list Z;
  completedAssignments : list Z;
  overallProgress : Z;
  lastAccessed : string;
  startDate : string;
  completionDate : option string
}.

Record LessonProgress := mkLessonProgress {
  lessonId : Z;
  l_courseId : Z;
  l_userId : option Z;
  isCompleted : bool;
  progressPercentage : Z;
  timeSpent : Z;
  lastPosition : option Z;
  accessedAt : string;
  completedAt : option string
}.

(** [Partial<CourseProgress>].  A key that is absent from the object is
    [None]; an optional field can also be present with value [undefined]. *)
Record CourseProgressPatch := mkCoursePatch {
  u_courseId : option Z;
  u_userId : option (option Z);
  u_completedLessons : option (list Z);
  u_completedQuizzes : option (list Z);
  u_completedAssignments : option (list Z);
  u_overallProgress : option Z;
  u_lastAccessed : option string;
  u_startDate : option string;
  u_completionDate : option (option string)
}.

(** [Partial<LessonProgress>]. *)
Record LessonProgressPatch := mkLessonPatch {
  v_lessonId : option Z;
  v_courseId : option Z;
  v_userId : option (option Z);
  v_isCompleted : option bool;
  v_progressPercentage : option Z;
  v_timeSpent : option Z;
  v_lastPosition : option (option Z);
  v_accessedAt : option string;
  v_completedAt : option (option string)
}.

(** The persistence surface: [localStorage] under the three [STORAGE_KEYS]
    that hold collections.  A missing key reads as the default [[]]. *)
Record Storage := mkStorage {
  window_defined : bool;
  tutor_enrollments : list EnrollmentData;
  tutor_course_progress : list CourseProgress;
  tutor_lesson_progress : list LessonProgress
}.

Definition emptyStorage (w : bool) : Storage := mkStorage w [] [] [].

(** [getStorageData(key, [])], one reader per key. *)
Definition getEnrollments (st : Storage) : list EnrollmentData :=
  if window_defined st then tutor_enrollments st else [].

Definition getCourseProgressData (st : Storage) : list CourseProgress :=
  if window_defined st then tutor_course_progress st else [].

Definition getLessonProgressData (st : Storage) : list LessonProgress :=
  if window_defined st then tutor_lesson_progress st else [].

(** [setStorageData(key, data)], one writer per key. *)
Definition setEnrollments (st : Storage) (d : list EnrollmentData) : Storage :=
  if window_defined st
  then mkStorage true d (tutor_course_progress st) (tutor_lesson_progress st)
  else st.

Definition setCourseProgressData (st : Storage) (d : list CourseProgress) : Storage :=
  if window_defined st
  then mkStorage true (tutor_enrollments st) d (tutor_lesson_progress st)
  else st.

Definition setLessonProgressData (st : Storage) (d : list LessonProgress) : Storage :=
  if window_defined st
  then mkStorage true (tutor_enrollments st) (tutor_course_progress st) d
  else st.

(** The three matching predicates, as the arrow functions are written. *)
Definition enrollment_matches (c : Z) (u : option Z) (e : EnrollmentData) : bool :=
  (e_courseId e =? c) && user_matches u (e_userId e).

Definition course_matches (c : Z) (u : option Z) (p : CourseProgress) : bool :=
  (courseId p =? c) && user_matches u (userId p).

Definition lesson_matches (l c : Z) (u : option Z) (p : LessonProgress) : bool :=
  (lessonId p =? l) && (l_courseId p =? c) && user_matches u (l_userId p).

(** *** Enrollment functions *)

Definition isEnrolledInCourse (st : Storage) (c : Z) (u : option Z) : bool :=
  existsb (enrollment_matches c u) (getEnrollments st).

Definition initializeCourseProgress
    (st : Storage) (c : Z) (u : option Z) (now : string) : Storage :=
  let progressData := getCourseProgressData st in
  match find (course_matches c u) progressData with
  | Some _ => st
  | None =>
      let newProgress := mkCourseProgress c u [] [] [] 0 now now None in
      setCourseProgressData st (progressData ++ [newProgress])
  end.

(** The promise always resolves; the [catch] branch resolving [false] is
    only reached when a callee throws, which none does on stored data of
    the declared types. *)
Definition enrollInFreeCourse
    (st : Storage) (c : Z) (u : option Z) (now : string) : bool * Storage :=
  let enrollments := getEnrollments st in
  if isEnrolledInCourse st c u then (true, st)
  else
    let newEnrollment := mkEnrollment c u free now in
    let st1 := setEnrollments st (enrollments ++ [newEnrollment]) in
    let st2 := initializeCourseProgress st1 c u now in
    (true, st2).

Definition removeCourseProgress (st : Storage) (c : Z) (u : option Z) : Storage :=
  let progressData := getCourseProgressData st in
  setCourseProgressData st
    (List.filter (fun p => negb (course_matches c u p)) progressData).

Definition unenrollFromCourse (st : Storage) (c : Z) (u : option Z) : bool * Storage :=
  let enrollments := getEnrollments st in
  let filteredEnrollments :=
    List.filter (fun e => negb (enrollment_matches c u e)) enrollments in
  let st1 := setEnrollments st filteredEnrollments in
  (true, removeCourseProgress st1 c u).

(** *** Course progress *)

Definition getCourseProgress (st : Storage) (c : Z) (u : option Z)
    : option CourseProgress :=
  find (course_matches c u) (getCourseProgressData st).

(** [{ ...old, ...updates, lastAccessed: now }]. *)
Definition applyCoursePatch
    (old : CourseProgress) (updates : CourseProgressPatch) (now : string)
    : CourseProgress :=
  mkCourseProgress
    (default (courseId old) (u_courseId updates))
    (default (userId old) (u_userId updates))
    (default (completedLessons old) (u_completedLessons updates))
    (default (completedQuizzes old) (u_completedQuizzes updates))
    (default (completedAssignments old) (u_completedAssignments updates))
    (default (overallProgress old) (u_overallProgress updates))
    now
    (default (startDate old) (u_startDate updates))
    (default (completionDate old) (u_completionDate updates)).

Definition updateCourseProgress
    (st : Storage) (c : Z) (updates : CourseProgressPatch) (u : option Z)
    (now : string) : Storage :=
  let progressData := getCourseProgressData st in
  match findIndex (course_matches c u) progressData with
  | Some index =>
      match progressData !! index with
      | Some old =>
          setCourseProgressData st
            (<[index := applyCoursePatch old updates now]> progressData)
      | None => st
      end
  | None => st
  end.

(** [Math.min(Math.round((totalCompleted / estimatedTotal) * 100), 100)].
    [estimatedTotal] is [10] or [totalCompleted], so the floating-point
    quotient times 100 is within rounding distance of the exact value
    [100 * totalCompleted / estimatedTotal], which is an integer. *)
Definition calculateOverallProgress (st : Storage) (c : Z) (u : option Z) : Z :=
  match getCourseProgress st c u with
  | None => 0
  | Some courseProgress =>
      let totalCompleted :=
        Z.of_nat (length (completedLessons courseProgress)
                  + length (completedQuizzes courseProgress)
                  + length (completedAssignments courseProgress))%nat in
      let estimatedTotal := Z.max totalCompleted 10 in
      Z.min (round_div (totalCompleted * 100) estimatedTotal) 100
  end.

(** *** Lesson progress *)

Definition markLessonCompleted
    (st : Storage) (l c : Z) (u : option Z) (now : string) : Storage :=
  let lessonProgressData := getLessonProgressData st in
  let lessonProgressData' :=
    match findIndex (lesson_matches l c u) lessonProgressData with
    | Some existingIndex =>
        match lessonProgressData !! existingIndex with
        | Some old =>
            <[existingIndex :=
                mkLessonProgress (lessonId old) (l_courseId old) (l_userId old)
                  true 100 (timeSpent old) (lastPosition old) now (Some now)]>
              lessonProgressData
        | None => lessonProgressData
        end
    | None =>
        lessonProgressData
          ++ [mkLessonProgress l c u true 100 0 None now (Some now)]
    end in
  let st1 := setLessonProgressData st lessonProgressData' in
  match getCourseProgress st1 c u with
  | Some courseProgress =>
      let completedLessons' :=
        if includes (completedLessons courseProgress) l
        then completedLessons courseProgress
        else completedLessons courseProgress ++ [l] in
      updateCourseProgress st1 c
        (mkCoursePatch None None (Some completedLessons') None None
           (Some (calculateOverallProgress st1 c u)) None None None)
        u now
  | None => st1
  end.

(** [{ ...old, ...updates, accessedAt: now }]. *)
Definition applyLessonPatch
    (old : LessonProgress) (updates : LessonProgressPatch) (now : string)
    : LessonProgress :=
  mkLessonProgress
    (default (lessonId old) (v_lessonId updates))
    (default (l_courseId old) (v_courseId updates))
    (default (l_userId old) (v_userId updates))
    (default (isCompleted old) (v_isCompleted updates))
    (default (progressPercentage old) (v_progressPercentage updates))
    (default (timeSpent old) (v_timeSpent updates))
    (default (lastPosition old) (v_lastPosition updates))
    now
    (default (completedAt old) (v_completedAt updates)).

(** [{ lessonId, courseId, userId, isCompleted: false, progressPercentage: 0,
      timeSpent: 0, accessedAt: now, ...updates }]: here the patch comes
    last, so it also overrides [accessedAt]. *)
Definition newLessonFromPatch
    (l c : Z) (u : option Z) (updates : LessonProgressPatch) (now : string)
    : LessonProgress :=
  mkLessonProgress
    (default l (v_lessonId updates))
    (default c (v_courseId updates))
    (default u (v_userId updates))
    (default false (v_isCompleted updates))
    (default 0 (v_progressPercentage updates))
    (default 0 (v_timeSpent updates))
    (default None (v_lastPosition updates))
    (default now (v_accessedAt updates))
    (default None (v_completedAt updates)).

Definition updateLessonProgress
    (st : Storage) (l c : Z) (updates : LessonProgressPatch) (u : option Z)
    (now : string) : Storage :=
  let lessonProgressData := getLessonProgressData st in
  match findIndex (lesson_matches l c u) lessonProgressData with
  | Some existingIndex =>
      match lessonProgressData !! existingIndex with
      | Some old =>
          setLessonProgressData st
            (<[existingIndex := applyLessonPatch old updates now]>
               lessonProgressData)
      | None => setLessonProgressData st lessonProgressData
      end
  | None =>
      setLessonProgressData st
        (lessonProgressData ++ [newLessonFromPatch l c u updates now])
  end.

Definition getLessonProgress (st : Storage) (l c : Z) (u : option Z)
    : option LessonProgress :=
  find (lesson_matches l c u) (getLessonProgressData st).

(** [progress?.isCompleted || false]. *)
Definition isLessonCompleted (st : Storage) (l c : Z) (u : option Z) : bool :=
  match getLessonProgress st l c u with
  | Some progress => isCompleted progress
  | None => false
  end.

(** The first half of [markLessonCompleted], on the lesson collection alone;
    the proofs use it to name that list. *)
Definition completeLesson
    (data : list LessonProgress) (l c : Z) (u : option Z) (now : string)
    : list LessonProgress :=
  match findIndex (lesson_matches l c u) data with
  | Some existingIndex =>
      match data !! existingIndex with
      | Some old =>
          <[existingIndex :=
              mkLessonProgress (lessonId old) (l_courseId old) (l_userId old)
                true 100 (timeSpent old) (lastPosition old) now (Some now)]>
            data
      | None => data
      end
  | None => data ++ [mkLessonProgress l c u true 100 0 None now (Some now)]
  end.

(** [resetAllCourseData]: every key is removed. *)
Definition resetAllCourseData (st : Storage) : Storage :=
  if window_defined st then emptyStorage true else st.

End Local.

(** ** The remote API client ([tutor-api-client.ts]), as an interface *)

Module Api.

(** What awaiting a call gives: a value, or a rejection.  The reason of a
    rejection is [Some message] when the thrown value is an [Error]. *)
Inductive Outcome (A : Type) :=
  | Resolved (a : A)
  | Rejected (reason : option string).
Arguments Resolved {A} a.
Arguments Rejected {A} reason.

Definition is_rejected {A : Type} (o : Outcome A) : bool :=
  match o with
  | Resolved _ => false
  | Rejected _ => true
  end.

Record ApiResponse (T : Type) := mkResponse {
  success : bool;
  data : option T;
  error : option string;
  status : Z
}.
Arguments mkResponse {T} success data error status.
Arguments success {T} a.
Arguments data {T} a.
Arguments error {T} a.
Arguments status {T} a.

Inductive EnrollmentStatus := enrolled | completed | cancelled.

Record TutorEnrollment := mkTutorEnrollment {
  enrollment_id : Z;
  course_id : Z;
  user_id : Z;
  enrollment_date : string;
  enrollment_status : EnrollmentStatus
}.

(** The body of a progress response as the coordinator reads it: the keys
    it looks up on [serverResult.data], each possibly missing.  The declared
    type [TutorCourseProgress] spells its keys otherwise ([completed_lessons],
    [completion_percentage], ...); what is read at run time is whatever the
    parsed JSON carries under the names below. *)
Record ServerProgress := mkServerProgress {
  sp_completedLessons : option (list Z);
  sp_completedQuizzes : option (list Z);
  sp_completedAssignments : option (list Z);
  sp_overallProgress : option Z;
  sp_lastAccessed : option string;
  sp_startDate : option string;
  sp_completionDate : option string
}.

Inductive RemoteCall :=
  | CallEnrollInCourse (courseId : Z) (userId : option Z)
  | CallMarkLessonCompleted (lessonId courseId : Z) (userId : option Z)
  | CallGetCourseProgress (courseId : Z) (userId : option Z)
  | CallIsUserEnrolled (courseId : Z) (userId : option Z)
  | CallGetUserEnrollments (userId : option Z)
  | CallGetUserProgress (userId : option Z).

(** One entry of the log of remote invocations. *)
Record RemoteEvent := mkEvent {
  ev_call : RemoteCall;
  ev_rejected : bool
}.

(** The methods of [TutorApiClient] the coordinator calls, over a remote
    state [R].  Types are erased at run time, so the user id travels as the
    coordinator holds it. *)
Class TutorApiClient (R : Type) := {
  enrollInCourse : Z -> option Z -> R -> Outcome (ApiResponse unit) * R;
  markLessonCompleted : Z -> Z -> option Z -> R -> Outcome (ApiResponse unit) * R;
  getCourseProgress : Z -> option Z -> R -> Outcome (ApiResponse ServerProgress) * R;
  isUserEnrolled : Z -> option Z -> R -> Outcome (ApiResponse bool) * R;
  getUserEnrollments : option Z -> R -> Outcome (ApiResponse (list TutorEnrollment)) * R;
  getUserProgress : option Z -> R -> Outcome (ApiResponse (list ServerProgress)) * R
}.

End Api.

(** ** The Sync Coordinator ([tutor-enrollment-sync.ts]) *)

Module Sync.

Import Api.

(** A queued closure: which remote call it repeats and the arguments it
    captured.  [this.apiClient] and [this.userId] are read when it runs. *)
Inductive SyncOp :=
  | RetryEnroll (courseId : Z)
  | RetryLesson (lessonId courseId : Z).

(** The fields of the class [TutorEnrollmentSync]; [apiClient] is [true]
    when the field is not [null]. *)
Record TutorEnrollmentSync := mkSync {
  apiClient : bool;
  userId : option Z;
  isOnline : bool;
  syncQueue : list SyncOp
}.

Record SyncResult := mkSyncResult {
  r_success : bool;
  r_error : option string;
  synced_enrollments : nat;
  synced_progress : nat;
  synced_lessons : nat
}.

(** The constructor.  [credentials] says whether [options.credentials] was
    given; [navigatorOnLine] is [None] when there is no [window]. *)
Definition create
    (optUserId : option Z) (credentials offline : bool)
    (navigatorOnLine : option bool) : TutorEnrollmentSync :=
  mkSync (negb offline && credentials) optUserId
    (default true navigatorOnLine) [].

Definition addToSyncQueue (this : TutorEnrollmentSync) (operation : SyncOp)
    : TutorEnrollmentSync :=
  mkSync (apiClient this) (userId this) (isOnline this)
    (syncQueue this ++ [operation]).

Definition setQueue (this : TutorEnrollmentSync) (q : list SyncOp)
    : TutorEnrollmentSync :=
  mkSync (apiClient this) (userId this) (isOnline this) q.

Definition setOnline (this : TutorEnrollmentSync) (b : bool)
    : TutorEnrollmentSync :=
  mkSync (apiClient this) (userId this) b (syncQueue this).

(** [this.isOnline && this.apiClient && this.userId]. *)
Definition remoteCapable (this : TutorEnrollmentSync) : bool :=
  isOnline this && apiClient this && truthy_id (userId this).

(** The [||] chains of the merge. *)
Definition or_list (remote local : option (list Z)) : list Z :=
  match remote with
  | Some l => l
  | None => default [] local
  end.

Definition or_num (remote local : option Z) : Z :=
  match remote with
  | Some n => if truthy_num n then n else default 0 local
  | None => default 0 local
  end.

Definition or_str (remote local : option string) (now : string) : string :=
  if truthy_str remote then default now remote
  else if truthy_str local then default now local
  else now.

Definition or_opt (remote local : option string) : option string :=
  if truthy_str remote then remote else local.

(** The object [mergedProgress] passed as [updates]: every key is present. *)
Definition patchOfRecord (m : Local.CourseProgress) : Local.CourseProgressPatch :=
  Local.mkCoursePatch
    (Some (Local.courseId m)) (Some (Local.userId m))
    (Some (Local.completedLessons m)) (Some (Local.completedQuizzes m))
    (Some (Local.completedAssignments m)) (Some (Local.overallProgress m))
    (Some (Local.lastAccessed m)) (Some (Local.startDate m))
    (Some (Local.completionDate m)).

Definition mergeProgress
    (c : Z) (u : option Z) (serverProgress : ServerProgress)
    (localProgress : option Local.CourseProgress) (now : string)
    : Local.CourseProgress :=
  Local.mkCourseProgress c u
    (or_list (sp_completedLessons serverProgress)
       (Local.completedLessons <$> localProgress))
    (or_list (sp_completedQuizzes serverProgress)
       (Local.completedQuizzes <$> localProgress))
    (or_list (sp_completedAssignments serverProgress)
       (Local.completedAssignments <$> localProgress))
    (or_num (sp_overallProgress serverProgress)
       (Local.overallProgress <$> localProgress))
    (or_str (sp_lastAccessed serverProgress)
       (Local.lastAccessed <$> localProgress) now)
    (or_str (sp_startDate serverProgress)
       (Local.startDate <$> localProgress) now)
    (or_opt (sp_completionDate serverProgress)
       (localProgress ≫= Local.completionDate)).

Definition failed (message : string) : SyncResult :=
  mkSyncResult false (Some message) 0 0 0.

Section WithClient.

Context {R : Type} {client : TutorApiClient R}.

(** Everything outside the coordinator object: the browser storage, the
    remote system and the log of calls made to it. *)
Record World := mkWorld {
  storage : Local.Storage;
  remote : R;
  calls : list RemoteEvent
}.

Definition setStorage (w : World) (st : Local.Storage) : World :=
  mkWorld st (remote w) (calls w).

(** Await one client method: the remote state steps and the call is logged. *)
Definition invoke {T : Type}
    (call : RemoteCall) (method : R -> Outcome T * R) (w : World)
    : Outcome T * World :=
  let '(out, r') := method (remote w) in
  (out, mkWorld (storage w) r' (calls w ++ [mkEvent call (is_rejected out)])).

Definition callOf (this : TutorEnrollmentSync) (operation : SyncOp) : RemoteCall :=
  match operation with
  | RetryEnroll c => CallEnrollInCourse c (userId this)
  | RetryLesson l c => CallMarkLessonCompleted l c (userId this)
  end.

(** Run one queued closure: [await this.apiClient!.m(...)].  With a [null]
    client the member access throws a [TypeError] before any call. *)
Definition runOperation
    (this : TutorEnrollmentSync) (operation : SyncOp) (w : World)
    : Outcome unit * World :=
  if apiClient this then
    let '(out, w') :=
      match operation with
      | RetryEnroll c =>
          invoke (callOf this operation) (enrollInCourse c (userId this)) w
      | RetryLesson l c =>
          invoke (callOf this operation) (markLessonCompleted l c (userId this)) w
      end in
    match out with
    | Resolved _ => (Resolved tt, w')
    | Rejected reason => (Rejected reason, w')
    end
  else (Rejected (Some "Cannot read properties of null"%string), w).

(** The [for ... of] loop of [processSyncQueue] over the snapshot [queue];
    [live] is [this.syncQueue] while the loop runs. *)
Fixpoint replay
    (this : TutorEnrollmentSync) (queue live : list SyncOp) (w : World)
    : list SyncOp * World :=
  match queue with
  | [] => (live, w)
  | operation :: rest =>
      let '(out, w') := runOperation this operation w in
      match out with
      | Resolved _ => replay this rest live w'
      | Rejected _ => replay this rest (live ++ [operation]) w'
      end
  end.

Definition processSyncQueue (this : TutorEnrollmentSync) (w : World)
    : TutorEnrollmentSync * World :=
  if negb (isOnline this) || negb (apiClient this) then (this, w)
  else
    let queue := syncQueue this in
    let '(live, w') := replay this queue [] w in
    (setQueue this live, w').

(** The listeners the constructor registers on [window]. *)
Definition onOnline (this : TutorEnrollmentSync) (w : World)
    : TutorEnrollmentSync * World :=
  processSyncQueue (setOnline this true) w.

Definition onOffline (this : TutorEnrollmentSync) : TutorEnrollmentSync :=
  setOnline this false.

(** *** Enrollment methods *)

(** The result is [option bool] because [return serverResult.data] can hand
    back [undefined]. *)
Definition isEnrolledInCourse
    (this : TutorEnrollmentSync) (w : World) (c : Z) (now : string)
    : option bool * World :=
  let localResult := Local.isEnrolledInCourse (storage w) c (userId this) in
  if remoteCapable this then
    let '(out, w1) :=
      invoke (CallIsUserEnrolled c (userId this))
        (isUserEnrolled c (userId this)) w in
    match out with
    | Resolved serverResult =>
        if success serverResult
           && negb (bool_decide (data serverResult = Some localResult))
        then
          if bool_decide (data serverResult = Some true) && negb localResult
          then
            let '(_, st') :=
              Local.enrollInFreeCourse (storage w1) c (userId this) now in
            (data serverResult, setStorage w1 st')
          else (data serverResult, w1)
        else (Some localResult, w1)
    | Rejected _ => (Some localResult, w1)
    end
  else (Some localResult, w).

Definition enrollInFreeCourse
    (this : TutorEnrollmentSync) (w : World) (c : Z) (now : string)
    : bool * TutorEnrollmentSync * World :=
  let '(localSuccess, st1) :=
    Local.enrollInFreeCourse (storage w) c (userId this) now in
  let w1 := setStorage w st1 in
  if negb localSuccess then (false, this, w1)
  else if remoteCapable this then
    let '(out, w2) :=
      invoke (CallEnrollInCourse c (userId this))
        (enrollInCourse c (userId this)) w1 in
    match out with
    | Resolved serverResult =>
        if negb (success serverResult)
        then (true, addToSyncQueue this (RetryEnroll c), w2)
        else (true, this, w2)
    | Rejected _ => (true, addToSyncQueue this (RetryEnroll c), w2)
    end
  else (true, addToSyncQueue this (RetryEnroll c), w1).

(** *** Progress methods *)

Definition markLessonCompleted
    (this : TutorEnrollmentSync) (w : World) (l c : Z) (now : string)
    : TutorEnrollmentSync * World :=
  let w1 :=
    setStorage w (Local.markLessonCompleted (storage w) l c (userId this) now) in
  if remoteCapable this then
    let '(out, w2) :=
      invoke (CallMarkLessonCompleted l c (userId this))
        (Api.markLessonCompleted l c (userId this)) w1 in
    match out with
    | Resolved serverResult =>
        if negb (success serverResult)
        then (addToSyncQueue this (RetryLesson l c), w2)
        else (this, w2)
    | Rejected _ => (addToSyncQueue this (RetryLesson l c), w2)
    end
  else (addToSyncQueue this (RetryLesson l c), w1).

Definition getCourseProgress
    (this : TutorEnrollmentSync) (w : World) (c : Z) (now : string)
    : option Local.CourseProgress * World :=
  let localProgress := Local.getCourseProgress (storage w) c (userId this) in
  if remoteCapable this then
    let '(out, w1) :=
      invoke (CallGetCourseProgress c (userId this))
        (Api.getCourseProgress c (userId this)) w in
    match out with
    | Resolved serverResult =>
        match data serverResult with
        | Some serverProgress =>
            if success serverResult then
              let mergedProgress :=
                mergeProgress c (userId this) serverProgress localProgress now in
              let st' :=
                Local.updateCourseProgress (storage w1) c
                  (patchOfRecord mergedProgress) (userId this) now in
              (Some mergedProgress, setStorage w1 st')
            else (localProgress, w1)
        | None => (localProgress, w1)
        end
    | Rejected _ => (localProgress, w1)
    end
  else (localProgress, w).

(** *** Sync methods *)

Definition noConnection : string := "No server connection or authentication".

(** [error instanceof Error ? error.message : 'Sync failed']. *)
Definition messageOf (reason : option string) : string :=
  default "Sync failed"%string reason.

(** [processSyncQueue] catches every rejection itself, so the [catch] of
    [syncToServer] has nothing to catch. *)
Definition syncToServer (this : TutorEnrollmentSync) (w : World)
    : SyncResult * TutorEnrollmentSync * World :=
  if negb (remoteCapable this) then (failed noConnection, this, w)
  else
    let '(this', w') := processSyncQueue this w in
    (mkSyncResult true None (length (syncQueue this')) 0 0, this', w').

Definition syncFromServer (this : TutorEnrollmentSync) (w : World)
    : SyncResult * World :=
  if negb (remoteCapable this) then (failed noConnection, w)
  else
    let '(out1, w1) :=
      invoke (CallGetUserEnrollments (userId this))
        (getUserEnrollments (userId this)) w in
    match out1 with
    | Rejected reason => (failed (messageOf reason), w1)
    | Resolved enrollmentsResult =>
        let enrollments :=
          match data enrollmentsResult with
          | Some d => if success enrollmentsResult then length d else O
          | None => O
          end in
        let '(out2, w2) :=
          invoke (CallGetUserProgress (userId this))
            (getUserProgress (userId this)) w1 in
        match out2 with
        | Rejected reason => (failed (messageOf reason), w2)
        | Resolved progressResult =>
            let progress :=
              match data progressResult with
              | Some d => if success progressResult then length d else O
              | None => O
              end in
            (mkSyncResult true None enrollments progress 0, w2)
        end
    end.

(** The callback of [setupAutoSync]. *)
Definition autoSyncTick (this : TutorEnrollmentSync) (w : World)
    : TutorEnrollmentSync * World :=
  if isOnline this && apiClient this then
    let '(_, this', w') := syncToServer this w in (this', w')
  else (this, w).

End WithClient.

Arguments World R : clear implicits.

End Sync.

(** ** Sequences of operations

    One constructor per operation a caller (or the browser) can trigger on
    the store or on the coordinator; [run] applies a sequence of them, each
    with the clock reading it sees. *)

Module Run.

Import Api Sync.

Inductive Action :=
  | LocalEnroll (c : Z) (u : option Z)
  | LocalUnenroll (c : Z) (u : option Z)
  | LocalInitialize (c : Z) (u : option Z)
  | LocalUpdateCourse (c : Z) (updates : Local.CourseProgressPatch) (u : option Z)
  | LocalRemoveCourse (c : Z) (u : option Z)
  | LocalMarkLesson (l c : Z) (u : option Z)
  | LocalUpdateLesson (l c : Z) (updates : Local.LessonProgressPatch) (u : option Z)
  | LocalReset
  | SyncIsEnrolled (c : Z)
  | SyncEnroll (c : Z)
  | SyncMarkLesson (l c : Z)
  | SyncGetProgress (c : Z)
  | SyncToServer
  | SyncFromServer
  | GoOnline
  | GoOffline
  | AutoSyncTick.

Section WithClient.

Context {R : Type} {client : TutorApiClient R}.

Record System := mkSystem {
  coordinator : TutorEnrollmentSync;
  world : World R
}.

Definition onStorage (f : Local.Storage -> Local.Storage) (s : System) : System :=
  mkSystem (coordinator s) (setStorage (world s) (f (storage (world s)))).

Definition step (a : Action) (now : string) (s : System) : System :=
  let this := coordinator s in
  let w := world s in
  match a with
  | LocalEnroll c u =>
      onStorage (fun st => snd (Local.enrollInFreeCourse st c u now)) s
  | LocalUnenroll c u =>
      onStorage (fun st => snd (Local.unenrollFromCourse st c u)) s
  | LocalInitialize c u =>
      onStorage (fun st => Local.initializeCourseProgress st c u now) s
  | LocalUpdateCourse c updates u =>
      onStorage (fun st => Local.updateCourseProgress st c updates u now) s
  | LocalRemoveCourse c u =>
      onStorage (fun st => Local.removeCourseProgress st c u) s
  | LocalMarkLesson l c u =>
      onStorage (fun st => Local.markLessonCompleted st l c u now) s
  | LocalUpdateLesson l c updates u =>
      onStorage (fun st => Local.updateLessonProgress st l c updates u now) s
  | LocalReset => onStorage Local.resetAllCourseData s
  | SyncIsEnrolled c =>
      mkSystem this (snd (Sync.isEnrolledInCourse this w c now))
  | SyncEnroll c =>
      let '(_, this', w') := Sync.enrollInFreeCourse this w c now in
      mkSystem this' w'
  | SyncMarkLesson l c =>
      let '(this', w') := Sync.markLessonCompleted this w l c now in
      mkSystem this' w'
  | SyncGetProgress c =>
      mkSystem this (snd (Sync.getCourseProgress this w c now))
  | SyncToServer =>
      let '(_, this', w') := syncToServer this w in mkSystem this' w'
  | SyncFromServer => mkSystem this (snd (syncFromServer this w))
  | GoOnline => let '(this', w') := onOnline this w in mkSystem this' w'
  | GoOffline => mkSystem (onOffline this) w
  | AutoSyncTick =>
      let '(this', w') := autoSyncTick this w in mkSystem this' w'
  end.

Definition run (acts : list (Action * string)) (s : System) : System :=
  fold_left (fun s' a => step (fst a) (snd a) s') acts s.

End WithClient.

Arguments System R : clear implicits.

End Run.

(** ** A scripted remote, for running the coordinator on concrete inputs *)

Module Scripted.

Import Api.

(** The remote answers every call the same way: it rejects, or resolves
    with a failure envelope, or resolves with a success envelope. *)
Record Remote := mkRemote {
  rejects : bool;
  succeeds : bool
}.

Definition answer {T : Type} (d : option T) (r : Remote)
    : Outcome (ApiResponse T) * Remote :=
  if rejects r then (Rejected (Some "Network error"%string), r)
  else if succeeds r then (Resolved (mkResponse true d None 200), r)
  else (Resolved (mkResponse false None (Some "Unknown error"%string) 500), r).

(** A client whose progress endpoint sends [progress] and whose enrollment
    check sends [enrolledOnServer]. *)
Definition client
    (progress : option ServerProgress) (enrolledOnServer : option bool)
    : TutorApiClient Remote := {|
  enrollInCourse _ _ := answer (Some tt);
  markLessonCompleted _ _ _ := answer (Some tt);
  getCourseProgress _ _ := answer progress;
  isUserEnrolled _ _ := answer enrolledOnServer;
  getUserEnrollments _ := answer (Some []);
  getUserProgress _ := answer (Some [])
|}.

Definition accepting : Remote := mkRemote false true.
Definition refusing : Remote := mkRemote false false.
Definition rejecting : Remote := mkRemote true false.

End Scripted.

(** ** Predicates on stored data, patches and responses *)

Module Inv.

Import Local.

(** The pair an enrollment is stored under. *)
Definition enrollment_key (e : EnrollmentData) : Z * option Z :=
  (e_courseId e, e_userId e).

Definition unique_enrollments (st : Storage) : Prop :=
  NoDup (enrollment_key <$> tutor_enrollments st).

(** How many enrollments are stored under exactly the pair [(c, u)]. *)
Definition count_pair (st : Storage) (c : Z) (u : option Z) : nat :=
  length (List.filter (fun e => bool_decide (enrollment_key e = (c, u)))
            (tutor_enrollments st)).

(** How many stored enrollments the query [(c, u)] matches. *)
Definition count_matching (st : Storage) (c : Z) (u : option Z) : nat :=
  length (List.filter (enrollment_matches c u) (tutor_enrollments st)).

(** How many enrollments are stored for course [c], whatever the user. *)
Definition count_course (st : Storage) (c : Z) : nat :=
  length (List.filter (fun e => e_courseId e =? c) (tutor_enrollments st)).

Definition progress_bounded (p : CourseProgress) : Prop :=
  0 <= overallProgress p <= 100.

Definition progress_ok (st : Storage) : Prop :=
  Forall progress_bounded (tutor_course_progress st).

Definition patch_bounded (p : CourseProgressPatch) : Prop :=
  forall n, u_overallProgress p = Some n -> 0 <= n <= 100.

Definition server_bounded (sp : Api.ServerProgress) : Prop :=
  forall n, Api.sp_overallProgress sp = Some n -> 0 <= n <= 100.

(** completed flag true ⇒ percentage 100 and completion timestamp set. *)
Definition lesson_consistent (p : LessonProgress) : Prop :=
  isCompleted p = true -> progressPercentage p = 100 /\ is_Some (completedAt p).

Definition lessons_ok (st : Storage) : Prop :=
  Forall lesson_consistent (tutor_lesson_progress st).

(** A lesson patch that cannot break [lesson_consistent]: setting the flag
    brings the percentage and the timestamp along; leaving the flag alone
    leaves a percentage of 100 and a set timestamp alone. *)
Definition patch_consistent (p : LessonProgressPatch) : Prop :=
  match v_isCompleted p with
  | Some true =>
      v_progressPercentage p = Some 100
      /\ exists t, v_completedAt p = Some (Some t)
  | Some false => True
  | None =>
      (forall n, v_progressPercentage p = Some n -> n = 100)
      /\ v_completedAt p <> Some None
  end.

(** A lesson patch that neither clears the completed flag nor moves the
    record to another lesson, course or user. *)
Definition patch_keeps_completion (p : LessonProgressPatch) : Prop :=
  v_isCompleted p <> Some false
  /\ v_lessonId p = None /\ v_courseId p = None /\ v_userId p = None.

(** One call of [updateLessonProgress]. *)
Record LessonUpdate := mkLessonUpdate {
  call_lessonId : Z;
  call_courseId : Z;
  call_updates : LessonProgressPatch;
  call_userId : option Z;
  call_now : string
}.

Definition updateLessonProgressAll (ups : list LessonUpdate) (st : Storage)
    : Storage :=
  fold_left
    (fun st' k =>
       updateLessonProgress st' (call_lessonId k) (call_courseId k)
         (call_updates k) (call_userId k) (call_now k))
    ups st.

(** The sequences of operations an invariant is stated for: the patches of
    the two patching operations are restricted, nothing else is. *)
Definition allowed
    (okCourse : CourseProgressPatch -> Prop)
    (okLesson : LessonProgressPatch -> Prop) (a : Run.Action) : Prop :=
  match a with
  | Run.LocalUpdateCourse _ p _ => okCourse p
  | Run.LocalUpdateLesson _ _ p _ => okLesson p
  | _ => True
  end.

End Inv.

(** ** The queue a drain leaves behind, and inputs for the examples *)

Module Examples.

Import Api Sync.

(** The entries of [queue] whose attempt, at the same position in
    [attempts], was rejected. *)
Definition requeued (queue : list SyncOp) (attempts : list RemoteEvent)
    : list SyncOp :=
  fst <$> List.filter (fun p => ev_rejected (snd p)) (zip queue attempts).

(** A coordinator that can reach its remote, for user 7. *)
Definition capable : TutorEnrollmentSync :=
  create (Some 7) true false (Some true).

(** The same coordinator while the browser is offline. *)
Definition offline : TutorEnrollmentSync :=
  create (Some 7) true false (Some false).

(** A progress body with three lessons done and 40 percent. *)
Definition body40 : ServerProgress :=
  mkServerProgress (Some [1; 2; 3]) None None (Some 40) None None None.

(** A progress body carrying 150 percent. *)
Definition body150 : ServerProgress :=
  mkServerProgress None None None (Some 150) None None None.

(** A progress body whose list of completed lessons is present and empty. *)
Definition bodyEmpty : ServerProgress :=
  mkServerProgress (Some []) None None None None None None.

(** A patch as the course player sends it: time spent and position. *)
Definition playbackPatch : Local.LessonProgressPatch :=
  Local.mkLessonPatch None None None None None (Some 30) (Some (Some 12))
    None None.

(** The store after user 7 enrolled in course 1 and completed lesson 3. *)
Definition oneLessonDone : Local.Storage :=
  Local.markLessonCompleted
    (snd (Local.enrollInFreeCourse (Local.emptyStorage true) 1 (Some 7) "t0"))
    3 1 (Some 7) "t1".

End Examples.

Ltac storage_cases st :=
  destruct st as [[] ? ? ?]; simpl in *; try done.

(** ** The rest of the Local Progress Store ([tutor-enrollment.ts]) *)

Module LocalMore.

Import Local.

Definition getEnrolledCourses (st : Storage) (u : option Z) : list Z :=
  e_courseId
    <$> List.filter (fun e => user_matches u (e_userId e)) (getEnrollments st).

(** [totalCompleted]: the number of completed items of a course record. *)
Definition itemsOf (p : CourseProgress) : Z :=
  Z.of_nat (length (completedLessons p) + length (completedQuizzes p)
            + length (completedAssignments p))%nat.

Record ProgressExport := mkExport {
  x_enrollments : list EnrollmentData;
  x_courseProgress : list CourseProgress;
  x_lessonProgress : list LessonProgress
}.

Definition exportUserProgress (st : Storage) (u : option Z) : ProgressExport :=
  let enrollments := getEnrollments st in
  let courseProgress := getCourseProgressData st in
  let lessonProgress := getLessonProgressData st in
  if negb (truthy_id u)
  then mkExport enrollments courseProgress lessonProgress
  else
    mkExport
      (List.filter (fun e => strict_eq (e_userId e) u) enrollments)
      (List.filter (fun p => strict_eq (userId p) u) courseProgress)
      (List.filter (fun p => strict_eq (l_userId p) u) lessonProgress).

(** *** URL generation.  A number in a template literal prints in decimal. *)

Definition getCourseLearnUrl (c : Z) (courseSlug : option string) : string :=
  match courseSlug with
  | Some slug =>
      if truthy_str courseSlug then "/courses/" +:+ slug +:+ "/learn"
      else "/courses/learn/" +:+ pretty c
  | None => "/courses/learn/" +:+ pretty c
  end.

Definition getLessonUrl (c l : Z) (courseSlug : option string) : string :=
  let baseUrl := getCourseLearnUrl c courseSlug in
  baseUrl +:+ "/lesson/" +:+ pretty l.

(** *** The course outline ([TutorCourseContent]) *)

Inductive ContentType := lesson | quiz | assignment.

(** One element of [topic.contents]. *)
Record ContentItem := mkContent {
  ci_id : Z;
  ci_type : ContentType;
  ci_title : string;
  ci_order : Z;
  ci_is_preview : option bool;
  ci_is_completed : option bool;
  ci_content_length : option string;
  ci_quiz_questions : option Z;
  ci_assignment_marks : option Z
}.

(** A topic with its [contents]; the optional nested arrays of
    [TutorCourseTopic] ([lessons], [quizzes], [assignments]) are read by no
    function below and are left out. *)
Record Topic := mkTopic {
  topic_id : Z;
  topic_title : string;
  topic_summary : string;
  topic_course_id : Z;
  topic_order : Z;
  contents : list ContentItem
}.

Record TutorCourseContent := mkCourseContent {
  course_id : Z;
  course_title : string;
  topics : list Topic;
  total_lessons : Z;
  total_quizzes : Z;
  total_assignments : Z;
  estimated_duration : string
}.

(** [content => content.type === 'lesson'] *)
Definition isLessonItem (content : ContentItem) : bool :=
  match ci_type content with
  | lesson => true
  | _ => false
  end.

(** [content => content.type === 'lesson' && content.id === currentLessonId] *)
Definition isCurrentLesson (currentLessonId : Z) (content : ContentItem) : bool :=
  isLessonItem content && (ci_id content =? currentLessonId).

(** The inner loop [for (let i = topicIndex + 1; ...)] over the topics that
    follow: the first lesson of the first topic that has one. *)
Fixpoint firstLessonOf (rest : list Topic) : option ContentItem :=
  match rest with
  | [] => None
  | topic :: rest' =>
      match find isLessonItem (contents topic) with
      | Some nextLesson => Some nextLesson
      | None => firstLessonOf rest'
      end
  end.

(** The outer loop [for (const topic of courseContent.topics)].  The topics
    are distinct objects, so [topics.indexOf(topic)] is the position the
    loop is at and the topics after it are the rest of the list. *)
Fixpoint nextLessonFrom (c currentLessonId : Z) (remaining : list Topic)
    : option string :=
  match remaining with
  | [] => None
  | topic :: rest =>
      match findIndex (isCurrentLesson currentLessonId) (contents topic) with
      | Some currentIndex =>
          match find isLessonItem (drop (S currentIndex) (contents topic)) with
          | Some nextInTopic => Some (getLessonUrl c (ci_id nextInTopic) None)
          | None =>
              match firstLessonOf rest with
              | Some nextLesson => Some (getLessonUrl c (ci_id nextLesson) None)
              | None => nextLessonFrom c currentLessonId rest
              end
          end
      | None => nextLessonFrom c currentLessonId rest
      end
  end.

Definition getNextLessonUrl
    (currentLessonId : Z) (courseContent : TutorCourseContent) : option string :=
  nextLessonFrom (course_id courseContent) currentLessonId (topics courseContent).

(** All contents of the course in reading order. *)
Definition outline (courseContent : TutorCourseContent) : list ContentItem :=
  concat (contents <$> topics courseContent).

(** The first lesson after the first occurrence of the current lesson in a
    flat list of contents. *)
Definition nextInOutline (currentLessonId : Z) (flat : list ContentItem)
    : option ContentItem :=
  match findIndex (isCurrentLesson currentLessonId) flat with
  | Some i => find isLessonItem (drop (S i) flat)
  | None => None
  end.

End LocalMore.

(** ** The course player's navigation ([course-player.tsx]) *)

Module Player.

Import LocalMore.

(** [findIndex(...) || -1]: index [0] is falsy and becomes [-1] like a
    miss; [None] stands for [-1]. *)
Definition indexOrMinusOne (i : option nat) : option nat :=
  match i with
  | Some (S n) => Some (S n)
  | _ => None
  end.

(** The loop [for (let i = from; i < topics.length; i++)] returning the
    first lesson with the id of its topic. *)
Fixpoint firstLessonWithTopic (rest : list Topic) : option (Z * Z) :=
  match rest with
  | [] => None
  | topic :: rest' =>
      match find isLessonItem (contents topic) with
      | Some nextLesson => Some (ci_id nextLesson, topic_id topic)
      | None => firstLessonWithTopic rest'
      end
  end.

(** [getNextLesson], a function of the component's [courseContent],
    [selectedLessonId] and [selectedTopicId]; the result is
    [{ lessonId, topicId }] or [null]. *)
Definition getNextLesson
    (courseContent : option TutorCourseContent)
    (selectedLessonId selectedTopicId : option Z) : option (Z * Z) :=
  match courseContent with
  | None => None
  | Some content =>
      if negb (truthy_id selectedLessonId) then None
      else
        let currentTopicIndex :=
          findIndex (fun t => strict_eq (Some (topic_id t)) selectedTopicId)
            (topics content) in
        let currentTopic := currentTopicIndex ≫= (fun i => topics content !! i) in
        let currentLessonIndex :=
          indexOrMinusOne
            (currentTopic ≫= (fun t =>
               findIndex
                 (fun c => isLessonItem c
                           && strict_eq (Some (ci_id c)) selectedLessonId)
                 (contents t))) in
        let later :=
          drop (match currentTopicIndex with Some i => S i | None => O end)
            (topics content) in
        match currentTopic, currentLessonIndex with
        | Some topic, Some index =>
            match find isLessonItem (drop (S index) (contents topic)) with
            | Some nextInTopic => Some (ci_id nextInTopic, topic_id topic)
            | None => firstLessonWithTopic later
            end
        | _, _ => firstLessonWithTopic later
        end
  end.

End Player.

(** ** Course price and access helpers ([tutor-course-utils.ts]) *)

Module CourseUtils.

Inductive PriceType := free | paid.
Inductive Status := publish | draft | pending | private.

(** The keys of [course.meta] the helpers read. *)
Record CourseMeta := mkMeta {
  _tutor_course_price_type : option PriceType;
  _tutor_course_price : option string;
  _tutor_is_course_public : option bool
}.

(** The fields of [TutorCourse] the helpers read.  [meta] is optional
    because every access is written [course.meta?.]. *)
Record TutorCourse := mkCourse {
  id : Z;
  status : Status;
  meta : option CourseMeta;
  price : option string;
  price_type : option PriceType
}.

(** [!s || s === '0' || s === ''] *)
Definition noPrice (s : option string) : bool :=
  negb (truthy_str s) || bool_decide (s = Some "0"%string)
  || bool_decide (s = Some ""%string).

(** [t === 'free'] *)
Definition isFreeType (t : option PriceType) : bool :=
  match t with
  | Some free => true
  | _ => false
  end.

Definition isTutorCourseFree (course : TutorCourse) : bool :=
  if isFreeType (price_type course) then true
  else if isFreeType (meta course ≫= _tutor_course_price_type) then true
  else if noPrice (price course) then true
  else if noPrice (meta course ≫= _tutor_course_price) then true
  else false.

Definition isTutorCoursePaid (course : TutorCourse) : bool :=
  negb (isTutorCourseFree course).

Definition getTutorCoursePrice (course : TutorCourse) : string :=
  if isTutorCourseFree course then "Free"
  else
    let price :=
      if truthy_str (price course) then price course
      else meta course ≫= _tutor_course_price in
    match price with
    | Some p =>
        if negb (truthy_str price) || bool_decide (price = Some "0"%string)
        then "Free"
        else "$" +:+ p
    | None => "Free"
    end.

Definition isTutorCourseEnrollmentOpen (course : TutorCourse) : bool :=
  match status course with
  | publish =>
      if bool_decide ((meta course ≫= _tutor_is_course_public) = Some true)
      then true
      else true
  | _ => false
  end.

Record EnrollDecision := mkDecision {
  canEnroll : bool;
  reason : option string
}.

Definition canEnrollInTutorCourse (course : TutorCourse) (isLoggedIn : bool)
    : EnrollDecision :=
  if negb (isTutorCourseEnrollmentOpen course)
  then mkDecision false
         (Some "Enrollment is not currently open for this course"%string)
  else if isTutorCourseFree course then mkDecision true None
  else if negb isLoggedIn
  then mkDecision false
         (Some "Please log in to enroll in this paid course"%string)
  else mkDecision true None.

Inductive PriceFilter := onlyFree | onlyPaid | all.

Definition filterTutorCoursesByPrice
    (courses : list TutorCourse) (priceType : PriceFilter) : list TutorCourse :=
  match priceType with
  | all => courses
  | onlyFree => List.filter isTutorCourseFree courses
  | onlyPaid => List.filter isTutorCoursePaid courses
  end.

End CourseUtils.

(** ** The repository's own API client ([tutor-api-client.ts]) *)

Module Client.

Import Api.

Inductive HttpMethod := GET | POST | PUT | DELETE.

(** The object handed to [JSON.stringify] as request body. *)
Inductive Payload :=
  | EnrollmentData (course_id : Z) (user_id : option Z) (enrollment_date : string)
  | EnrollmentMeta (courseId : Z) (enrolled_date : string)
  | LessonData (lesson_id course_id : Z) (user_id : option Z)
      (completion_date : string)
  | LessonMeta (lessonId course_id : Z) (completed_date : string).

Record Request := mkRequest {
  url : string;
  method : HttpMethod;
  body : option Payload
}.

(** What [await response.json()] gives. *)
Inductive JsonResult (J : Type) :=
  | JsonValue (j : J)
  | JsonThrows (reason : option string).
Arguments JsonValue {J} j.
Arguments JsonThrows {J} reason.

(** What [await fetch(url, config)] gives. *)
Inductive FetchResult (J : Type) :=
  | FetchRejected (reason : option string)
  | FetchResponse (ok : bool) (status : Z) (json : JsonResult J).
Arguments FetchRejected {J} reason.
Arguments FetchResponse {J} ok status json.

(** The network and the parsed bodies it returns.  A body is an untyped
    value [J]; the client and the coordinator read it through [truthy]
    ([!!data]), through [errorText] ([data.message || data.error], which
    throws when the body has no properties) and through the unchecked casts
    of [makeRequest<T>]. *)
Class Network (N J : Type) := {
  fetch : Request -> N -> FetchResult J * N;
  truthy : J -> bool;
  errorText : J -> Outcome (option string);
  asProgress : J -> ServerProgress;
  asEnrollments : J -> list TutorEnrollment;
  asProgressList : J -> list ServerProgress
}.

(** [error instanceof Error ? error.message : 'Network error'] *)
Definition networkError (reason : option string) : string :=
  default "Network error"%string reason.

(** [userId] in a template literal. *)
Definition showId (u : option Z) : string :=
  match u with
  | Some n => pretty n
  | None => "undefined"
  end.

Section WithNetwork.

Context {N J : Type} {network : Network N J}.

(** [process.env.WORDPRESS_URL + '/wp-json/tutor/v1'] and
    [... + '/wp-json/wp/v2']. *)
Variable WORDPRESS_URL : string.

Definition TUTOR_API_BASE : string := WORDPRESS_URL +:+ "/wp-json/tutor/v1".
Definition WP_API_BASE : string := WORDPRESS_URL +:+ "/wp-json/wp/v2".

(** [makeRequest<T>]: everything is inside the [try], so the promise always
    resolves with an envelope.  [data] is [Some] when the body is a truthy
    value.  The headers and the [credentials: 'include'] flag are the same
    in every request and are left out of [Request]. *)
Definition makeRequest {T : Type} (view : J -> T)
    (u : string) (m : HttpMethod) (b : option Payload) (n : N)
    : ApiResponse T * N :=
  let config :=
    mkRequest u m
      (match m with
       | GET => None
       | _ => b
       end) in
  let '(response, n') := fetch config n in
  match response with
  | FetchRejected reason =>
      (mkResponse false None (Some (networkError reason)) 0, n')
  | FetchResponse ok st json =>
      match json with
      | JsonThrows reason =>
          (mkResponse false None (Some (networkError reason)) 0, n')
      | JsonValue d =>
          if ok
          then (mkResponse true (if truthy d then Some (view d) else None)
                  None st, n')
          else
            match errorText d with
            | Resolved text =>
                (mkResponse false None
                   (Some (default "Unknown error"%string text)) st, n')
            | Rejected reason =>
                (mkResponse false None (Some (networkError reason)) 0, n')
            end
      end
  end.

Definition enrollInCourse (now : string) (courseId : Z) (userId : option Z) (n : N)
    : ApiResponse unit * N :=
  let '(result, n1) :=
    makeRequest (fun _ => tt) (TUTOR_API_BASE +:+ "/enrollments") POST
      (Some (EnrollmentData courseId userId now)) n in
  if negb (success result) && (status result =? 404)
  then
    makeRequest (fun _ => tt)
      (WP_API_BASE +:+ "/users/" +:+ showId userId +:+ "/meta") POST
      (Some (EnrollmentMeta courseId now)) n1
  else (result, n1).

Definition markLessonCompleted
    (now : string) (lessonId courseId : Z) (userId : option Z) (n : N)
    : ApiResponse unit * N :=
  let '(result, n1) :=
    makeRequest (fun _ => tt) (TUTOR_API_BASE +:+ "/progress/lessons") POST
      (Some (LessonData lessonId courseId userId now)) n in
  if negb (success result) && (status result =? 404)
  then
    makeRequest (fun _ => tt)
      (WP_API_BASE +:+ "/users/" +:+ showId userId +:+ "/meta") POST
      (Some (LessonMeta lessonId courseId now)) n1
  else (result, n1).

Definition getCourseProgress (courseId : Z) (userId : option Z) (n : N)
    : ApiResponse ServerProgress * N :=
  makeRequest asProgress
    (TUTOR_API_BASE +:+ "/progress/courses/" +:+ pretty courseId
       +:+ "/users/" +:+ showId userId)
    GET None n.

(** [{ ...result, data: result.success && result.data ? true : false }] *)
Definition isUserEnrolled (courseId : Z) (userId : option Z) (n : N)
    : ApiResponse bool * N :=
  let '(result, n1) :=
    makeRequest (fun _ => tt)
      (TUTOR_API_BASE +:+ "/users/" +:+ showId userId +:+ "/enrollments/"
         +:+ pretty courseId)
      GET None n in
  (mkResponse (success result)
     (Some (success result && bool_decide (is_Some (data result))))
     (error result) (status result),
   n1).

Definition getUserEnrollments (userId : option Z) (n : N)
    : ApiResponse (list TutorEnrollment) * N :=
  makeRequest asEnrollments
    (TUTOR_API_BASE +:+ "/users/" +:+ showId userId +:+ "/enrollments")
    GET None n.

Definition getUserProgress (userId : option Z) (n : N)
    : ApiResponse (list ServerProgress) * N :=
  makeRequest asProgressList
    (TUTOR_API_BASE +:+ "/users/" +:+ showId userId +:+ "/progress")
    GET None n.

(** The client as the coordinator sees it.  The clock the two writing
    methods read is fixed to [now] for the run. *)
Definition client (now : string) : TutorApiClient N := {|
  Api.enrollInCourse c u n :=
    let '(r, n') := enrollInCourse now c u n in (Resolved r, n');
  Api.markLessonCompleted l c u n :=
    let '(r, n') := markLessonCompleted now l c u n in (Resolved r, n');
  Api.getCourseProgress c u n :=
    let '(r, n') := getCourseProgress c u n in (Resolved r, n');
  Api.isUserEnrolled c u n :=
    let '(r, n') := isUserEnrolled c u n in (Resolved r, n');
  Api.getUserEnrollments u n :=
    let '(r, n') := getUserEnrollments u n in (Resolved r, n');
  Api.getUserProgress u n :=
    let '(r, n') := getUserProgress u n in (Resolved r, n')
|}.

End WithNetwork.

(** A network that is down: every [fetch] rejects. *)
Definition down : Network unit unit := {|
  fetch _ n := (FetchRejected (Some "Failed to fetch"%string), n);
  truthy _ := false;
  errorText _ := Resolved None;
  asProgress _ := mkServerProgress None None None None None None None;
  asEnrollments _ := [];
  asProgressList _ := []
|}.

End Client.

(** ** Auxiliary notions and inputs for the further properties *)

Module Extra.

Import Api.

(** A remote call went through: it resolved and the envelope says success. *)
Definition accepted {T : Type} (o : Outcome (ApiResponse T)) : bool :=
  match o with
  | Resolved r => success r
  | Rejected _ => false
  end.

(** [success && data ? data.length : 0], the count [syncFromServer] reports. *)
Definition countOf {T : Type} (r : ApiResponse (list T)) : nat :=
  match data r with
  | Some d => if success r then length d else O
  | None => O
  end.

(** The shape of an envelope: a success carries no error, a failure carries
    an error and no data. *)
Definition consistent {T : Type} (r : ApiResponse T) : Prop :=
  (success r = true /\ error r = None)
  \/ (success r = false /\ data r = None /\ is_Some (error r)).

(** A lesson entry of an outline. *)
Definition lessonItem (n : Z) : LocalMore.ContentItem :=
  LocalMore.mkContent n LocalMore.lesson "Lesson" n None None None None None.

(** A quiz entry of an outline. *)
Definition quizItem (n : Z) : LocalMore.ContentItem :=
  LocalMore.mkContent n LocalMore.quiz "Quiz" n None None None None None.

(** Course 5: topic 10 holds lesson 1, quiz 7, lesson 2; topic 20 holds
    lesson 3. *)
Definition demoCourse : LocalMore.TutorCourseContent :=
  LocalMore.mkCourseContent 5 "Demo"
    [LocalMore.mkTopic 10 "First" "" 5 1 [lessonItem 1; quizItem 7; lessonItem 2];
     LocalMore.mkTopic 20 "Second" "" 5 2 [lessonItem 3]]
    3 1 0 "1 hour".

(** A course priced 49.99 whose meta carries no price. *)
Definition pricedWithoutMeta : CourseUtils.TutorCourse :=
  CourseUtils.mkCourse 1 CourseUtils.publish
    (Some (CourseUtils.mkMeta None None None)) (Some "49.99"%string)
    (Some CourseUtils.paid).

(** A course priced 49.99 in both places. *)
Definition pricedCourse : CourseUtils.TutorCourse :=
  CourseUtils.mkCourse 2 CourseUtils.publish
    (Some (CourseUtils.mkMeta (Some CourseUtils.paid) (Some "49.99"%string) None))
    (Some "49.99"%string) (Some CourseUtils.paid).

End Extra.

(** * Properties *)

(** ** Lists as JavaScript arrays *)

Section ArrayFacts.

Context {A : Type}.
Implicit Types (f g : A -> bool) (l : list A) (x y : A) (i : nat).

Lemma find_ext f g l : (forall x, f x = g x) -> find f l = find g l.
Proof.
  intros E. induction l as [|x l IH]; simpl; [done|].
  rewrite E, IH. done.
Qed.

Lemma findIndex_ext f g l : (forall x, f x = g x) -> findIndex f l = findIndex g l.
Proof.
  intros E. induction l as [|x l IH]; simpl; [done|].
  rewrite E, IH. done.
Qed.

Lemma existsb_ext' f g l : (forall x, f x = g x) -> existsb f l = existsb g l.
Proof.
  intros E. induction l as [|x l IH]; simpl; [done|].
  rewrite E, IH. done.
Qed.

(** [findIndex] and [find] stop at the same element. *)
Lemma findIndex_Some f l i :
  findIndex f l = Some i ->
  exists x, l !! i = Some x /\ f x = true /\ find f l = Some x.
Proof.
  revert i. induction l as [|y l IH]; intros i; simpl; [done|].
  destruct (f y) eqn:Fy.
  - intros [= <-]. exists y. done.
  - destruct (findIndex f l) as [j|] eqn:Fj; simpl; [|done].
    intros [= <-]. destruct (IH j eq_refl) as (x & ? & ? & ?).
    exists x. done.
Qed.

Lemma findIndex_None f l : findIndex f l = None <-> find f l = None.
Proof.
  induction l as [|y l IH]; simpl; [done|].
  destruct (f y); [split; done|].
  destruct (findIndex f l); simpl; [|tauto].
  split; [done|]. intros H. apply IH in H. done.
Qed.

Lemma find_Some_findIndex f l x :
  find f l = Some x -> exists i, findIndex f l = Some i /\ l !! i = Some x.
Proof.
  intros Hf. destruct (findIndex f l) as [i|] eqn:Fi.
  - destruct (findIndex_Some _ _ _ Fi) as (y & ? & ? & ?).
    exists i. split; [done|]. congruence.
  - apply findIndex_None in Fi. congruence.
Qed.

(** Writing a matching element at the found index makes it the one found. *)
Lemma find_insert_found f l i y :
  findIndex f l = Some i -> f y = true -> find f (<[i := y]> l) = Some y.
Proof.
  revert i. induction l as [|z l IH]; intros i; simpl; [done|].
  destruct (f z) eqn:Fz.
  - intros [= <-] Fy. simpl. rewrite Fy. done.
  - destruct (findIndex f l) as [j|] eqn:Fj; simpl; [|done].
    intros [= <-] Fy. simpl. rewrite Fz. apply IH; done.
Qed.

(** Replacing an element by one that [g] treats alike keeps a property of
    the element that [g] finds. *)
Lemma find_insert_preserved g (P : A -> Prop) l i old new :
  l !! i = Some old -> g new = g old -> (P old -> P new) ->
  (exists x, find g l = Some x /\ P x) ->
  exists x, find g (<[i := new]> l) = Some x /\ P x.
Proof.
  revert i. induction l as [|z l IH]; intros i Hi Hg HP (x & Hx & Px);
    [done|].
  destruct i as [|i]; simpl in *.
  - injection Hi as ->. rewrite Hg. destruct (g old); [|eauto].
    injection Hx as <-. eauto.
  - destruct (g z); [eauto|]. apply IH; eauto.
Qed.

Lemma find_app_found f l l' x : find f l = Some x -> find f (l ++ l') = Some x.
Proof.
  induction l as [|z l IH]; simpl; [done|]. destruct (f z); done.
Qed.

Lemma find_app_missing f l l' : find f l = None -> find f (l ++ l') = find f l'.
Proof.
  induction l as [|z l IH]; simpl; [done|]. destruct (f z); done.
Qed.

Lemma existsb_find f l : existsb f l = bool_decide (is_Some (find f l)).
Proof.
  induction l as [|z l IH]; simpl; [done|].
  destruct (f z); done.
Qed.

Lemma find_elem f l x : find f l = Some x -> x ∈ l /\ f x = true.
Proof.
  induction l as [|z l IH]; simpl; [done|].
  destruct (f z) eqn:Fz.
  - intros [= <-]. split; [left|done].
  - intros H. destruct (IH H). split; [by right|done].
Qed.

Lemma Forall_list_filter (P : A -> Prop) f l :
  Forall P l -> Forall P (List.filter f l).
Proof.
  induction 1 as [|z l Pz _ IH]; simpl; [done|].
  destruct (f z); [constructor|]; done.
Qed.

End ArrayFacts.

(** ** The Local Progress Store *)

Module LocalFacts.

Import Local.

Lemma strict_eq_refl (u : option Z) : strict_eq u u = true.
Proof. destruct u; simpl; [apply Z.eqb_refl|done]. Qed.

Lemma strict_eq_Some (stored : option Z) (n : Z) :
  strict_eq stored (Some n) = bool_decide (stored = Some n).
Proof.
  destruct stored as [m|]; simpl; symmetry.
  - destruct (Z.eqb_spec m n) as [->|Hne].
    + by apply bool_decide_eq_true_2.
    + apply bool_decide_eq_false_2. congruence.
  - done.
Qed.

Lemma user_matches_refl (u : option Z) : user_matches u u = true.
Proof. unfold user_matches. rewrite strict_eq_refl. apply orb_true_r. Qed.

Lemma user_matches_falsy (u stored : option Z) :
  truthy_id u = false -> user_matches u stored = true.
Proof. unfold user_matches. by intros ->. Qed.

Lemma user_matches_nonzero (n : Z) (stored : option Z) :
  n <> 0 -> user_matches (Some n) stored = bool_decide (stored = Some n).
Proof.
  intros Hn. unfold user_matches, truthy_id, truthy_num.
  destruct (Z.eqb_spec n 0); [done|]. simpl. apply strict_eq_Some.
Qed.

(** Each writer touches its own key only. *)
Lemma window_setEnrollments st d :
  window_defined (setEnrollments st d) = window_defined st.
Proof. by storage_cases st. Qed.

Lemma window_setCourseProgressData st d :
  window_defined (setCourseProgressData st d) = window_defined st.
Proof. by storage_cases st. Qed.

Lemma window_setLessonProgressData st d :
  window_defined (setLessonProgressData st d) = window_defined st.
Proof. by storage_cases st. Qed.

Lemma lessons_setCourseProgressData st d :
  tutor_lesson_progress (setCourseProgressData st d) = tutor_lesson_progress st.
Proof. by storage_cases st. Qed.

Lemma lessons_setEnrollments st d :
  tutor_lesson_progress (setEnrollments st d) = tutor_lesson_progress st.
Proof. by storage_cases st. Qed.

Lemma courses_setLessonProgressData st d :
  tutor_course_progress (setLessonProgressData st d) = tutor_course_progress st.
Proof. by storage_cases st. Qed.

Lemma courses_setEnrollments st d :
  tutor_course_progress (setEnrollments st d) = tutor_course_progress st.
Proof. by storage_cases st. Qed.

Lemma enrollments_setCourseProgressData st d :
  tutor_enrollments (setCourseProgressData st d) = tutor_enrollments st.
Proof. by storage_cases st. Qed.

Lemma enrollments_setLessonProgressData st d :
  tutor_enrollments (setLessonProgressData st d) = tutor_enrollments st.
Proof. by storage_cases st. Qed.

Lemma lessons_setLessonProgressData st d :
  window_defined st = true ->
  tutor_lesson_progress (setLessonProgressData st d) = d.
Proof. by storage_cases st. Qed.

Lemma courses_setCourseProgressData st d :
  window_defined st = true ->
  tutor_course_progress (setCourseProgressData st d) = d.
Proof. by storage_cases st. Qed.

Lemma enrollments_setEnrollments st d :
  window_defined st = true ->
  tutor_enrollments (setEnrollments st d) = d.
Proof. by storage_cases st. Qed.

(** What each operation leaves alone. *)
Lemma window_updateCourseProgress st c p u now :
  window_defined (updateCourseProgress st c p u now) = window_defined st.
Proof.
  unfold updateCourseProgress. repeat case_match; try done.
  apply window_setCourseProgressData.
Qed.

Lemma lessons_updateCourseProgress st c p u now :
  tutor_lesson_progress (updateCourseProgress st c p u now)
  = tutor_lesson_progress st.
Proof.
  unfold updateCourseProgress. repeat case_match; try done.
  apply lessons_setCourseProgressData.
Qed.

Lemma enrollments_updateCourseProgress st c p u now :
  tutor_enrollments (updateCourseProgress st c p u now) = tutor_enrollments st.
Proof.
  unfold updateCourseProgress. repeat case_match; try done.
  apply enrollments_setCourseProgressData.
Qed.

Lemma window_initializeCourseProgress st c u now :
  window_defined (initializeCourseProgress st c u now) = window_defined st.
Proof.
  unfold initializeCourseProgress. case_match; [done|].
  apply window_setCourseProgressData.
Qed.

Lemma lessons_initializeCourseProgress st c u now :
  tutor_lesson_progress (initializeCourseProgress st c u now)
  = tutor_lesson_progress st.
Proof.
  unfold initializeCourseProgress. case_match; [done|].
  apply lessons_setCourseProgressData.
Qed.

Lemma enrollments_initializeCourseProgress st c u now :
  tutor_enrollments (initializeCourseProgress st c u now) = tutor_enrollments st.
Proof.
  unfold initializeCourseProgress. case_match; [done|].
  apply enrollments_setCourseProgressData.
Qed.

Lemma course_matches_applyCoursePatch c u old p now :
  u_courseId p = None -> u_userId p = None ->
  course_matches c u (applyCoursePatch old p now) = course_matches c u old.
Proof. unfold course_matches. simpl. by intros -> ->. Qed.

(** The update of the record that [getCourseProgress] finds, for a patch
    under which the record still answers to [(c, u)]. *)
Lemma getCourseProgress_updateCourseProgress_matching st c p u now cp :
  window_defined st = true ->
  course_matches c u (applyCoursePatch cp p now) = true ->
  getCourseProgress st c u = Some cp ->
  getCourseProgress (updateCourseProgress st c p u now) c u
  = Some (applyCoursePatch cp p now).
Proof.
  intros Hw Hm Hget. unfold getCourseProgress in Hget.
  destruct (find_Some_findIndex _ _ _ Hget) as (i & Hi & Hl).
  unfold updateCourseProgress. rewrite Hi, Hl.
  unfold getCourseProgress, getCourseProgressData at 1.
  rewrite window_setCourseProgressData, Hw.
  rewrite courses_setCourseProgressData by done.
  by apply find_insert_found.
Qed.

Lemma getCourseProgress_updateCourseProgress st c p u now cp :
  window_defined st = true ->
  u_courseId p = None -> u_userId p = None ->
  getCourseProgress st c u = Some cp ->
  getCourseProgress (updateCourseProgress st c p u now) c u
  = Some (applyCoursePatch cp p now).
Proof.
  intros Hw Hc Hu Hget.
  apply getCourseProgress_updateCourseProgress_matching; try done.
  rewrite course_matches_applyCoursePatch by done.
  unfold getCourseProgress in Hget. by apply find_elem in Hget as [_ ?].
Qed.

Lemma getCourseProgress_window st c u cp :
  getCourseProgress st c u = Some cp -> window_defined st = true.
Proof.
  unfold getCourseProgress, getCourseProgressData.
  by destruct (window_defined st).
Qed.


Lemma lessons_markLessonCompleted st l c u now :
  window_defined st = true ->
  tutor_lesson_progress (markLessonCompleted st l c u now)
  = completeLesson (tutor_lesson_progress st) l c u now.
Proof.
  intros Hw. unfold markLessonCompleted.
  assert (getLessonProgressData st = tutor_lesson_progress st) as ->
    by (unfold getLessonProgressData; by rewrite Hw).
  fold (completeLesson (tutor_lesson_progress st) l c u now).
  case_match.
  - rewrite lessons_updateCourseProgress. by apply lessons_setLessonProgressData.
  - by apply lessons_setLessonProgressData.
Qed.

Lemma window_markLessonCompleted st l c u now :
  window_defined (markLessonCompleted st l c u now) = window_defined st.
Proof.
  unfold markLessonCompleted. case_match.
  - rewrite window_updateCourseProgress. apply window_setLessonProgressData.
  - apply window_setLessonProgressData.
Qed.

Lemma lesson_matches_self l c u b n t p a d :
  lesson_matches l c u (mkLessonProgress l c u b n t p a d) = true.
Proof.
  unfold lesson_matches. simpl.
  by rewrite !Z.eqb_refl, user_matches_refl.
Qed.

(** After completion the record found for the lesson is a completed one. *)
Lemma find_completeLesson data l c u now :
  exists x, find (lesson_matches l c u) (completeLesson data l c u now) = Some x
            /\ isCompleted x = true.
Proof.
  unfold completeLesson.
  destruct (findIndex (lesson_matches l c u) data) as [i|] eqn:Hi.
  - destruct (findIndex_Some _ _ _ Hi) as (old & Hl & Hm & _). rewrite Hl.
    eexists. split; [|shelve]. apply find_insert_found; [done|].
    unfold lesson_matches in *. done.
    Unshelve. done.
  - apply findIndex_None in Hi. eexists. split; [|shelve].
    rewrite find_app_missing by done. simpl.
    rewrite lesson_matches_self. done.
    Unshelve. done.
Qed.

Lemma markLessonCompleted_completes st l c u now :
  window_defined st = true ->
  isLessonCompleted (markLessonCompleted st l c u now) l c u = true.
Proof.
  intros Hw.
  unfold isLessonCompleted, getLessonProgress, getLessonProgressData.
  rewrite window_markLessonCompleted, Hw.
  rewrite lessons_markLessonCompleted by done.
  destruct (find_completeLesson (tutor_lesson_progress st) l c u now)
    as (x & -> & Hx). done.
Qed.

End LocalFacts.

Module StoreSpec.

Import Local LocalFacts.

(** *** Marking a lesson completed *)

(** C4, as the code has it.  On an available store, after
    [markLessonCompleted l c u] the lesson reads as completed.  The course
    record is only touched when one already matches [(c, u)]: then [l] is
    appended to its [completedLessons] unless already there, so a record
    with no completed lesson ends with [[l]]; when no record matches, none
    is created. *)
Theorem markLessonCompleted_effect st l c u now :
  window_defined st = true ->
  let st' := markLessonCompleted st l c u now in
  isLessonCompleted st' l c u = true
  /\ match getCourseProgress st c u with
     | Some cp =>
         exists cp',
           getCourseProgress st' c u = Some cp'
           /\ completedLessons cp'
              = (if includes (completedLessons cp) l
                 then completedLessons cp
                 else completedLessons cp ++ [l])
           /\ (completedLessons cp = [] -> completedLessons cp' = [l])
     | None => getCourseProgress st' c u = None
     end.
Proof.
  intros Hw st'. split.
  - by apply markLessonCompleted_completes.
  - subst st'. unfold markLessonCompleted.
    set (st1 := setLessonProgressData st _).
    assert (getCourseProgress st1 c u = getCourseProgress st c u) as Hsame.
    { unfold getCourseProgress, getCourseProgressData, st1.
      by rewrite window_setLessonProgressData, courses_setLessonProgressData. }
    rewrite Hsame. destruct (getCourseProgress st c u) as [cp|] eqn:Hcp.
    + eexists. split.
      * apply getCourseProgress_updateCourseProgress; try done.
        unfold st1. by rewrite window_setLessonProgressData.
      * simpl. split; [done|]. by intros ->.
    + done.
Qed.

Lemma markLessonCompleted_effect_witness :
  isLessonCompleted
    (markLessonCompleted
       (snd (enrollInFreeCourse (emptyStorage true) 1 None "t0")) 3 1 None "t1")
    3 1 None = true.
Proof.
  apply (markLessonCompleted_effect
           (snd (enrollInFreeCourse (emptyStorage true) 1 None "t0"))
           3 1 None "t1").
  reflexivity.
Defined.

(** C4, as stated, fails: from a store with no progress record for course 1,
    marking lesson 3 completed leaves the course without any record, so
    there is none whose [completedLessons] is [[3]]. *)
Lemma markLessonCompleted_no_record_created :
  let st := emptyStorage true in
  let st' := markLessonCompleted st 3 1 None "2024-01-01T00:00:00.000Z" in
  getCourseProgress st 1 None = None
  /\ ~ (exists cp,
          getCourseProgress st' 1 None = Some cp
          /\ completedLessons cp = [3]
          /\ overallProgress cp > 0).
Proof.
  split; [reflexivity|]. intros (cp & Hcp & _). vm_compute in Hcp. done.
Qed.

(** The percentage written by [markLessonCompleted] is computed from the
    stored record before the new lesson is added to it: the first lesson
    completed after enrolling leaves [overallProgress] at [0]. *)
Example markLessonCompleted_stale_percentage :
  let st := snd (enrollInFreeCourse (emptyStorage true) 1 None "t0") in
  let st' := markLessonCompleted st 3 1 None "t1" in
  (completedLessons <$> getCourseProgress st' 1 None) = Some [3]
  /\ (overallProgress <$> getCourseProgress st' 1 None) = Some 0
  /\ calculateOverallProgress st' 1 None = 10.
Proof. vm_compute. done. Qed.

(** *** Matching on the user id *)

(** Index assignment [data[i] = f(data[i])] on an index that exists. *)
Lemma insert_alter {A : Type} (f : A -> A) (data : list A) i x :
  data !! i = Some x -> <[i := f x]> data = alter f i data.
Proof.
  revert i. induction data as [|y data IH]; intros [|i]; simpl; try done.
  - by intros [= ->].
  - intros Hi. f_equal. by apply IH.
Qed.

(** [some] and [find] agree on whether an element is selected. *)
Lemma existsb_found {A : Type} (f : A -> bool) (data : list A) :
  existsb f data = match find f data with Some _ => true | None => false end.
Proof.
  induction data as [|x data IH]; simpl; [done|]. by destruct (f x).
Qed.

(** The reads, under a falsy and under a nonzero user id. *)
Lemma matching_reads st (l c n : Z) :
  n <> 0 ->
  (forall u, truthy_id u = false ->
     isEnrolledInCourse st c u
       = existsb (fun e => e_courseId e =? c) (getEnrollments st)
     /\ getCourseProgress st c u
       = find (fun p => courseId p =? c) (getCourseProgressData st)
     /\ getLessonProgress st l c u
       = find (fun p => (lessonId p =? l) && (l_courseId p =? c))
           (getLessonProgressData st))
  /\ isEnrolledInCourse st c (Some n)
     = existsb (fun e => (e_courseId e =? c) && bool_decide (e_userId e = Some n))
         (getEnrollments st)
  /\ getCourseProgress st c (Some n)
     = find (fun p => (courseId p =? c) && bool_decide (userId p = Some n))
         (getCourseProgressData st)
  /\ getLessonProgress st l c (Some n)
     = find (fun p => (lessonId p =? l) && (l_courseId p =? c)
                      && bool_decide (l_userId p = Some n))
         (getLessonProgressData st)
  /\ (forall e, e_userId e = None -> enrollment_matches c (Some n) e = false)
  /\ (forall p, userId p = None -> course_matches c (Some n) p = false)
  /\ (forall p, l_userId p = None -> lesson_matches l c (Some n) p = false)
  /\ (forall p, getCourseProgress st c (Some n) = Some p -> userId p = Some n)
  /\ (forall p, getLessonProgress st l c (Some n) = Some p -> l_userId p = Some n)
  /\ isEnrolledInCourse st c (Some 0) = isEnrolledInCourse st c None
  /\ getCourseProgress st c (Some 0) = getCourseProgress st c None
  /\ getLessonProgress st l c (Some 0) = getLessonProgress st l c None
  /\ isLessonCompleted st l c (Some 0) = isLessonCompleted st l c None
  /\ calculateOverallProgress st c (Some 0) = calculateOverallProgress st c None
  /\ unenrollFromCourse st c (Some 0) = unenrollFromCourse st c None
  /\ removeCourseProgress st c (Some 0) = removeCourseProgress st c None
  /\ (forall p now,
        updateCourseProgress st c p (Some 0) now
        = updateCourseProgress st c p None now)
  /\ (forall data,
        findIndex (lesson_matches l c (Some 0)) data
        = findIndex (lesson_matches l c None) data)
  /\ (forall data,
        find (course_matches c (Some 0)) data = find (course_matches c None) data).
Proof.
  intros Hn.
  assert (forall s, user_matches (Some n) s = bool_decide (s = Some n)) as Hnz
    by (intros; by apply user_matches_nonzero).
  repeat split.
  - unfold isEnrolledInCourse. apply existsb_ext'. intros e.
    unfold enrollment_matches. rewrite user_matches_falsy by done.
    apply andb_true_r.
  - unfold getCourseProgress. apply find_ext. intros p.
    unfold course_matches. rewrite user_matches_falsy by done.
    apply andb_true_r.
  - unfold getLessonProgress. apply find_ext. intros p.
    unfold lesson_matches. rewrite user_matches_falsy by done.
    apply andb_true_r.
  - unfold isEnrolledInCourse. apply existsb_ext'. intros e.
    unfold enrollment_matches. by rewrite Hnz.
  - unfold getCourseProgress. apply find_ext. intros p.
    unfold course_matches. by rewrite Hnz.
  - unfold getLessonProgress. apply find_ext. intros p.
    unfold lesson_matches. by rewrite Hnz.
  - intros e He. unfold enrollment_matches. rewrite Hnz, He.
    apply andb_false_r.
  - intros p Hp. unfold course_matches. rewrite Hnz, Hp.
    apply andb_false_r.
  - intros p Hp. unfold lesson_matches. rewrite Hnz, Hp.
    apply andb_false_r.
  - intros p Hp. apply find_elem in Hp as [_ Hp].
    unfold course_matches in Hp. rewrite Hnz in Hp.
    apply andb_true_iff in Hp as [_ Hp]. by apply bool_decide_eq_true in Hp.
  - intros p Hp. apply find_elem in Hp as [_ Hp].
    unfold lesson_matches in Hp. rewrite Hnz in Hp.
    apply andb_true_iff in Hp as [_ Hp]. by apply bool_decide_eq_true in Hp.
Qed.

(** The writes select their records with the user clause of the reads:
    for any clause [sel] that [user_matches u] computes, each write is
    described, list by list, by the predicates built from [sel]. *)
Section Selection.

Variables (u : option Z) (sel : option Z -> bool).
Hypothesis Hsel : forall stored, user_matches u stored = sel stored.

Local Ltac on_lists :=
  cbn [getEnrollments getCourseProgressData getLessonProgressData
       setEnrollments setCourseProgressData setLessonProgressData
       window_defined tutor_enrollments tutor_course_progress
       tutor_lesson_progress fst snd].

Lemma enrollment_matches_sel c e :
  enrollment_matches c u e = (e_courseId e =? c) && sel (e_userId e).
Proof. unfold enrollment_matches. by rewrite Hsel. Qed.

Lemma course_matches_sel c p :
  course_matches c u p = (courseId p =? c) && sel (userId p).
Proof. unfold course_matches. by rewrite Hsel. Qed.

Lemma lesson_matches_sel l c p :
  lesson_matches l c u p
  = (lessonId p =? l) && (l_courseId p =? c) && sel (l_userId p).
Proof. unfold lesson_matches. by rewrite Hsel. Qed.

Lemma filter_not_ext {A : Type} (f g : A -> bool) data :
  (forall x, f x = g x) ->
  List.filter (fun x => negb (f x)) data
  = List.filter (fun x => negb (g x)) data.
Proof.
  intros Hfg. induction data as [|x data IH]; simpl; [done|].
  by rewrite Hfg, IH.
Qed.

Lemma removeCourseProgress_sel es cs ls c :
  removeCourseProgress (mkStorage true es cs ls) c u
  = mkStorage true es
      (List.filter (fun p => negb ((courseId p =? c) && sel (userId p))) cs)
      ls.
Proof.
  unfold removeCourseProgress. on_lists.
  by rewrite (filter_not_ext _ _ _ (course_matches_sel c)).
Qed.

Lemma unenrollFromCourse_sel es cs ls c :
  snd (unenrollFromCourse (mkStorage true es cs ls) c u)
  = mkStorage true
      (List.filter
         (fun e => negb ((e_courseId e =? c) && sel (e_userId e))) es)
      (List.filter (fun p => negb ((courseId p =? c) && sel (userId p))) cs)
      ls.
Proof.
  unfold unenrollFromCourse. on_lists.
  rewrite removeCourseProgress_sel.
  by rewrite (filter_not_ext _ _ _ (enrollment_matches_sel c)).
Qed.

Lemma initializeCourseProgress_sel es cs ls c now :
  initializeCourseProgress (mkStorage true es cs ls) c u now
  = mkStorage true es
      (if existsb (fun p => (courseId p =? c) && sel (userId p)) cs then cs
       else cs ++ [mkCourseProgress c u [] [] [] 0 now now None])
      ls.
Proof.
  unfold initializeCourseProgress. on_lists.
  rewrite <- (existsb_ext' _ _ cs (course_matches_sel c)), existsb_found.
  by destruct (find (course_matches c u) cs).
Qed.

Lemma enrollInFreeCourse_sel es cs ls c now :
  snd (enrollInFreeCourse (mkStorage true es cs ls) c u now)
  = mkStorage true
      (if existsb (fun e => (e_courseId e =? c) && sel (e_userId e)) es then es
       else es ++ [mkEnrollment c u free now])
      (if existsb (fun e => (e_courseId e =? c) && sel (e_userId e)) es
          || existsb (fun p => (courseId p =? c) && sel (userId p)) cs
       then cs
       else cs ++ [mkCourseProgress c u [] [] [] 0 now now None])
      ls.
Proof.
  unfold enrollInFreeCourse, isEnrolledInCourse. on_lists.
  rewrite (existsb_ext' _ _ es (enrollment_matches_sel c)).
  destruct (existsb (fun e => (e_courseId e =? c) && sel (e_userId e)) es);
    on_lists; [done|].
  apply initializeCourseProgress_sel.
Qed.

Lemma updateCourseProgress_sel es cs ls c patch now :
  updateCourseProgress (mkStorage true es cs ls) c patch u now
  = mkStorage true es
      (match findIndex (fun p => (courseId p =? c) && sel (userId p)) cs with
       | Some i => alter (fun old => applyCoursePatch old patch now) i cs
       | None => cs
       end)
      ls.
Proof.
  unfold updateCourseProgress. on_lists.
  rewrite (findIndex_ext _ _ cs (course_matches_sel c)).
  destruct (findIndex (fun p => (courseId p =? c) && sel (userId p)) cs)
    as [i|] eqn:Hi; [|done].
  destruct (findIndex_Some _ _ _ Hi) as (old & Hlk & _). rewrite Hlk.
  on_lists.
  by rewrite (insert_alter (fun old => applyCoursePatch old patch now) cs i old).
Qed.

Lemma updateLessonProgress_sel es cs ls l c patch now :
  updateLessonProgress (mkStorage true es cs ls) l c patch u now
  = mkStorage true es cs
      (match
         findIndex
           (fun p => (lessonId p =? l) && (l_courseId p =? c) && sel (l_userId p))
           ls
       with
       | Some i => alter (fun old => applyLessonPatch old patch now) i ls
       | None => ls ++ [newLessonFromPatch l c u patch now]
       end).
Proof.
  unfold updateLessonProgress. on_lists.
  rewrite (findIndex_ext _ _ ls (lesson_matches_sel l c)).
  destruct
    (findIndex
       (fun p => (lessonId p =? l) && (l_courseId p =? c) && sel (l_userId p))
       ls) as [i|] eqn:Hi; [|done].
  destruct (findIndex_Some _ _ _ Hi) as (old & Hlk & _). rewrite Hlk.
  on_lists.
  by rewrite (insert_alter (fun old => applyLessonPatch old patch now) ls i old).
Qed.

Lemma markLessonCompleted_sel es cs ls l c now :
  let st := mkStorage true es cs ls in
  markLessonCompleted st l c u now
  = mkStorage true es
      (match findIndex (fun p => (courseId p =? c) && sel (userId p)) cs with
       | Some i =>
           alter
             (fun cp =>
                applyCoursePatch cp
                  (mkCoursePatch None None
                     (Some (if includes (completedLessons cp) l
                            then completedLessons cp
                            else completedLessons cp ++ [l]))
                     None None (Some (calculateOverallProgress st c u))
                     None None None)
                  now)
             i cs
       | None => cs
       end)
      (match
         findIndex
           (fun p => (lessonId p =? l) && (l_courseId p =? c) && sel (l_userId p))
           ls
       with
       | Some i =>
           alter
             (fun old =>
                mkLessonProgress (lessonId old) (l_courseId old) (l_userId old)
                  true 100 (timeSpent old) (lastPosition old) now (Some now))
             i ls
       | None => ls ++ [mkLessonProgress l c u true 100 0 None now (Some now)]
       end).
Proof.
  intros st. subst st. unfold markLessonCompleted.
  cbn [getLessonProgressData window_defined tutor_lesson_progress].
  set (ls' := match findIndex (lesson_matches l c u) ls with
              | Some i => _
              | None => _
              end).
  assert (ls' = match
                  findIndex
                    (fun p => (lessonId p =? l) && (l_courseId p =? c)
                              && sel (l_userId p))
                    ls
                with
                | Some i =>
                    alter
                      (fun old =>
                         mkLessonProgress (lessonId old) (l_courseId old)
                           (l_userId old) true 100 (timeSpent old)
                           (lastPosition old) now (Some now))
                      i ls
                | None =>
                    ls ++ [mkLessonProgress l c u true 100 0 None now (Some now)]
                end) as ->.
  { subst ls'. rewrite (findIndex_ext _ _ ls (lesson_matches_sel l c)).
    destruct
      (findIndex
         (fun p => (lessonId p =? l) && (l_courseId p =? c) && sel (l_userId p))
         ls) as [i|] eqn:Hi; [|done].
    destruct (findIndex_Some _ _ _ Hi) as (old & Hlk & _). rewrite Hlk.
    by rewrite (insert_alter
                  (fun old =>
                     mkLessonProgress (lessonId old) (l_courseId old)
                       (l_userId old) true 100 (timeSpent old)
                       (lastPosition old) now (Some now)) ls i old). }
  unfold setLessonProgressData.
  cbn [window_defined tutor_enrollments tutor_course_progress].
  set (ls2 := match findIndex _ ls with
              | Some i => _
              | None => _
              end).
  assert (calculateOverallProgress (mkStorage true es cs ls2) c u
          = calculateOverallProgress (mkStorage true es cs ls) c u) as Hsame
    by done.
  rewrite Hsame. unfold getCourseProgress at 1.
  cbn [getCourseProgressData window_defined tutor_course_progress].
  destruct (findIndex (fun p => (courseId p =? c) && sel (userId p)) cs)
    as [i|] eqn:Hi.
  - destruct (findIndex_Some _ _ _ Hi) as (cp & Hlk & _ & Hf).
    rewrite <- (find_ext _ _ cs (course_matches_sel c)) in Hf. rewrite Hf.
    rewrite updateCourseProgress_sel, Hi. f_equal.
    rewrite <- !insert_alter with (x := cp) by done. done.
  - apply findIndex_None in Hi.
    rewrite <- (find_ext _ _ cs (course_matches_sel c)) in Hi. by rewrite Hi.
Qed.

End Selection.

(** C10.  In every matching operation a falsy user id ([undefined] or [0])
    matches whatever user id is stored, a nonzero one matches exactly the
    records storing it, a record stored without a user id is never found
    by a nonzero query, and [0] behaves as an absent id.  This holds for
    the three reads and for their write counterparts: on an available
    store each of [enrollInFreeCourse], [unenrollFromCourse],
    [initializeCourseProgress], [removeCourseProgress],
    [updateCourseProgress], [updateLessonProgress] and
    [markLessonCompleted] finds, rewrites or removes exactly the records
    picked by the course (and lesson) id together with that user clause,
    which is [true] for a falsy id and [stored = Some n] for a nonzero
    id [n]. *)
Theorem userId_matching st (l c n : Z) :
  n <> 0 ->
  (* a falsy user id matches every stored user id *)
  (forall u, truthy_id u = false ->
     isEnrolledInCourse st c u
       = existsb (fun e => e_courseId e =? c) (getEnrollments st)
     /\ getCourseProgress st c u
       = find (fun p => courseId p =? c) (getCourseProgressData st)
     /\ getLessonProgress st l c u
       = find (fun p => (lessonId p =? l) && (l_courseId p =? c))
           (getLessonProgressData st))
  (* a nonzero user id matches the records storing exactly it *)
  /\ isEnrolledInCourse st c (Some n)
     = existsb (fun e => (e_courseId e =? c) && bool_decide (e_userId e = Some n))
         (getEnrollments st)
  /\ getCourseProgress st c (Some n)
     = find (fun p => (courseId p =? c) && bool_decide (userId p = Some n))
         (getCourseProgressData st)
  /\ getLessonProgress st l c (Some n)
     = find (fun p => (lessonId p =? l) && (l_courseId p =? c)
                      && bool_decide (l_userId p = Some n))
         (getLessonProgressData st)
  (* device-scoped records are invisible to a nonzero query *)
  /\ (forall e, e_userId e = None -> enrollment_matches c (Some n) e = false)
  /\ (forall p, userId p = None -> course_matches c (Some n) p = false)
  /\ (forall p, l_userId p = None -> lesson_matches l c (Some n) p = false)
  /\ (forall p, getCourseProgress st c (Some n) = Some p -> userId p = Some n)
  /\ (forall p, getLessonProgress st l c (Some n) = Some p -> l_userId p = Some n)
  (* user id 0 is an absent user id *)
  /\ isEnrolledInCourse st c (Some 0) = isEnrolledInCourse st c None
  /\ getCourseProgress st c (Some 0) = getCourseProgress st c None
  /\ getLessonProgress st l c (Some 0) = getLessonProgress st l c None
  /\ isLessonCompleted st l c (Some 0) = isLessonCompleted st l c None
  /\ calculateOverallProgress st c (Some 0) = calculateOverallProgress st c None
  /\ unenrollFromCourse st c (Some 0) = unenrollFromCourse st c None
  /\ removeCourseProgress st c (Some 0) = removeCourseProgress st c None
  /\ (forall p now,
        updateCourseProgress st c p (Some 0) now
        = updateCourseProgress st c p None now)
  /\ (forall data,
        findIndex (lesson_matches l c (Some 0)) data
        = findIndex (lesson_matches l c None) data)
  /\ (forall data,
        find (course_matches c (Some 0)) data = find (course_matches c None) data)
  (* the write counterparts select their records by the same rule: [sel] is
     the user clause, constantly true for a falsy id and [stored = Some n]
     for the nonzero id [n] *)
  /\ (forall u sel,
        window_defined st = true ->
        ((truthy_id u = false /\ (forall stored, sel stored = true))
         \/ (u = Some n
             /\ (forall stored, sel stored = bool_decide (stored = Some n)))) ->
        let enrolled := fun e => (e_courseId e =? c) && sel (e_userId e) in
        let tracked := fun p => (courseId p =? c) && sel (userId p) in
        let studied :=
          fun p => (lessonId p =? l) && (l_courseId p =? c) && sel (l_userId p) in
        let enrollments := getEnrollments st in
        let courses := getCourseProgressData st in
        let lessons := getLessonProgressData st in
        (* enrolling adds a record unless one is selected *)
        (forall now,
           snd (enrollInFreeCourse st c u now)
           = mkStorage true
               (if existsb enrolled enrollments then enrollments
                else enrollments ++ [mkEnrollment c u free now])
               (if existsb enrolled enrollments || existsb tracked courses
                then courses
                else courses ++ [mkCourseProgress c u [] [] [] 0 now now None])
               lessons)
        (* unenrolling removes the selected enrollments and course records *)
        /\ snd (unenrollFromCourse st c u)
           = mkStorage true
               (List.filter (fun e => negb (enrolled e)) enrollments)
               (List.filter (fun p => negb (tracked p)) courses)
               lessons
        /\ (forall now,
              initializeCourseProgress st c u now
              = mkStorage true enrollments
                  (if existsb tracked courses then courses
                   else courses ++ [mkCourseProgress c u [] [] [] 0 now now None])
                  lessons)
        /\ removeCourseProgress st c u
           = mkStorage true enrollments
               (List.filter (fun p => negb (tracked p)) courses) lessons
        (* updates rewrite the first selected record *)
        /\ (forall patch now,
              updateCourseProgress st c patch u now
              = mkStorage true enrollments
                  (match findIndex tracked courses with
                   | Some i =>
                       alter (fun old => applyCoursePatch old patch now) i courses
                   | None => courses
                   end)
                  lessons)
        /\ (forall patch now,
              updateLessonProgress st l c patch u now
              = mkStorage true enrollments courses
                  (match findIndex studied lessons with
                   | Some i =>
                       alter (fun old => applyLessonPatch old patch now) i lessons
                   | None => lessons ++ [newLessonFromPatch l c u patch now]
                   end))
        /\ (forall now,
              markLessonCompleted st l c u now
              = mkStorage true enrollments
                  (match findIndex tracked courses with
                   | Some i =>
                       alter
                         (fun cp =>
                            applyCoursePatch cp
                              (mkCoursePatch None None
                                 (Some (if includes (completedLessons cp) l
                                        then completedLessons cp
                                        else completedLessons cp ++ [l]))
                                 None None
                                 (Some (calculateOverallProgress st c u))
                                 None None None)
                              now)
                         i courses
                   | None => courses
                   end)
                  (match findIndex studied lessons with
                   | Some i =>
                       alter
                         (fun old =>
                            mkLessonProgress (lessonId old) (l_courseId old)
                              (l_userId old) true 100 (timeSpent old)
                              (lastPosition old) now (Some now))
                         i lessons
                   | None =>
                       lessons
                         ++ [mkLessonProgress l c u true 100 0 None now (Some now)]
                   end))).
Proof.
  intros Hn.
  pose proof (matching_reads st l c n Hn) as Hreads.
  repeat match type of Hreads with
         | _ /\ _ => destruct Hreads as [? Hreads]
         end.
  repeat (split; [assumption|]).
  intros u sel Hw Hcase.
  assert (forall stored, user_matches u stored = sel stored) as Hsel.
  { intros stored. destruct Hcase as [[Hu Hs]|[-> Hs]]; rewrite Hs.
    - by apply user_matches_falsy.
    - by apply user_matches_nonzero. }
  clear -Hw Hsel. destruct st as [w es cs ls]. simpl in Hw. subst w.
  cbv zeta.
  split; [intros now; exact (enrollInFreeCourse_sel u sel Hsel es cs ls c now)|].
  split; [exact (unenrollFromCourse_sel u sel Hsel es cs ls c)|].
  split; [intros now;
          exact (initializeCourseProgress_sel u sel Hsel es cs ls c now)|].
  split; [exact (removeCourseProgress_sel u sel Hsel es cs ls c)|].
  split; [intros patch now;
          exact (updateCourseProgress_sel u sel Hsel es cs ls c patch now)|].
  split; [intros patch now;
          exact (updateLessonProgress_sel u sel Hsel es cs ls l c patch now)|].
  intros now. exact (markLessonCompleted_sel u sel Hsel es cs ls l c now).
Qed.

Lemma userId_matching_witness :
  let st := snd (enrollInFreeCourse (emptyStorage true) 5 None "t0") in
  isEnrolledInCourse st 5 (Some 7) = false
  /\ snd (unenrollFromCourse st 5 (Some 7)) = st
  /\ getEnrollments (snd (unenrollFromCourse st 5 (Some 0))) = [].
Proof.
  intros st.
  destruct (userId_matching st 3 5 7 ltac:(lia))
    as (_ & Hread & _ & _ & _ & _ & _ & _ & _ & _ & _ & _ & _ & _ & _ & _ & _
        & _ & _ & Hwrites).
  pose proof (Hwrites (Some 7) (fun stored => bool_decide (stored = Some 7))
                eq_refl (or_intror (conj eq_refl (fun _ => eq_refl))))
    as Hnonzero.
  pose proof (Hwrites (Some 0) (fun _ => true)
                eq_refl (or_introl (conj eq_refl (fun _ => eq_refl))))
    as Hfalsy.
  cbv zeta in Hnonzero, Hfalsy.
  destruct Hnonzero as (_ & Hkept & _). destruct Hfalsy as (_ & Hgone & _).
  split; [rewrite Hread; reflexivity|].
  split; [rewrite Hkept; reflexivity|rewrite Hgone; reflexivity].
Defined.

End StoreSpec.

(** ** The coordinator and the store it wraps *)

Module SyncFacts.

Import Api Sync.

Section WithClient.

Context {R : Type} {client : TutorApiClient R}.

Implicit Types (this : TutorEnrollmentSync) (w : World R).

Lemma storage_invoke {T : Type} call (method : R -> Outcome T * R) w :
  storage (snd (invoke call method w)) = storage w.
Proof. unfold invoke. by destruct (method (remote w)). Qed.

Lemma calls_invoke {T : Type} call (method : R -> Outcome T * R) w :
  calls (snd (invoke call method w))
  = calls w ++ [mkEvent call (is_rejected (fst (invoke call method w)))].
Proof. unfold invoke. by destruct (method (remote w)). Qed.

Lemma storage_runOperation this operation w :
  storage (snd (runOperation this operation w)) = storage w.
Proof.
  unfold runOperation. destruct (apiClient this); [|done].
  destruct operation.
  - pose proof (storage_invoke (callOf this (RetryEnroll courseId))
                  (enrollInCourse courseId (userId this)) w) as Hst.
    destruct (invoke _ _ w) as [[?|?] ?]; done.
  - pose proof (storage_invoke (callOf this (RetryLesson lessonId courseId))
                  (Api.markLessonCompleted lessonId courseId (userId this)) w)
      as Hst.
    destruct (invoke _ _ w) as [[?|?] ?]; done.
Qed.

Lemma storage_replay this queue live w :
  storage (snd (replay this queue live w)) = storage w.
Proof.
  revert live w. induction queue as [|operation rest IH]; intros live w;
    simpl; [done|].
  pose proof (storage_runOperation this operation w) as Hst.
  destruct (runOperation this operation w) as [[?|?] w']; simpl in Hst;
    rewrite IH; done.
Qed.

Lemma storage_processSyncQueue this w :
  storage (snd (processSyncQueue this w)) = storage w.
Proof.
  unfold processSyncQueue. case_match; [done|].
  pose proof (storage_replay this (syncQueue this) [] w) as Hst.
  destruct (replay this (syncQueue this) [] w). done.
Qed.

Lemma storage_syncToServer this w :
  storage (snd (syncToServer this w)) = storage w.
Proof.
  unfold syncToServer. case_match; [done|].
  pose proof (storage_processSyncQueue this w) as Hst.
  destruct (processSyncQueue this w). done.
Qed.

Lemma storage_syncFromServer this w :
  storage (snd (syncFromServer this w)) = storage w.
Proof.
  unfold syncFromServer. case_match; [done|].
  pose proof (storage_invoke (CallGetUserEnrollments (userId this))
                (getUserEnrollments (userId this)) w) as H1.
  destruct (invoke _ _ w) as [[e|?] w1]; simpl in H1; [|done].
  pose proof (storage_invoke (CallGetUserProgress (userId this))
                (getUserProgress (userId this)) w1) as H2.
  destruct (invoke _ _ w1) as [[p|?] w2]; simpl in H2; simpl; congruence.
Qed.

Lemma storage_autoSyncTick this w :
  storage (snd (autoSyncTick this w)) = storage w.
Proof.
  unfold autoSyncTick. case_match; [|done].
  pose proof (storage_syncToServer this w) as Hst.
  destruct (syncToServer this w) as [[? ?] ?]. done.
Qed.

(** What the coordinator's own methods do to the store: one Local
    operation, or nothing. *)
Lemma storage_enrollInFreeCourse this w c now :
  storage (snd (Sync.enrollInFreeCourse this w c now))
  = snd (Local.enrollInFreeCourse (storage w) c (userId this) now).
Proof.
  unfold Sync.enrollInFreeCourse.
  destruct (Local.enrollInFreeCourse (storage w) c (userId this) now)
    as [localSuccess st1]. simpl.
  destruct localSuccess; simpl; [|done].
  destruct (remoteCapable this); [|done].
  pose proof (storage_invoke (CallEnrollInCourse c (userId this))
                (enrollInCourse c (userId this)) (setStorage w st1)) as Hst.
  destruct (invoke _ _ (setStorage w st1)) as [[r|?] w2]; simpl in Hst;
    [destruct (success r)|]; done.
Qed.

Lemma storage_markLessonCompleted this w l c now :
  storage (snd (Sync.markLessonCompleted this w l c now))
  = Local.markLessonCompleted (storage w) l c (userId this) now.
Proof.
  unfold Sync.markLessonCompleted.
  destruct (remoteCapable this); [|done].
  set (w1 := setStorage w _).
  pose proof (storage_invoke (CallMarkLessonCompleted l c (userId this))
                (Api.markLessonCompleted l c (userId this)) w1) as Hst.
  destruct (invoke _ _ w1) as [[r|?] w2]; simpl in Hst;
    [destruct (success r)|]; done.
Qed.

Lemma storage_isEnrolledInCourse this w c now :
  storage (snd (Sync.isEnrolledInCourse this w c now)) = storage w
  \/ storage (snd (Sync.isEnrolledInCourse this w c now))
     = snd (Local.enrollInFreeCourse (storage w) c (userId this) now).
Proof.
  unfold Sync.isEnrolledInCourse.
  destruct (remoteCapable this); [|by left].
  pose proof (storage_invoke (CallIsUserEnrolled c (userId this))
                (isUserEnrolled c (userId this)) w) as Hst.
  destruct (invoke _ _ w) as [[r|?] w1]; simpl in Hst; [|by left].
  destruct (success r && _); [|by left].
  destruct (bool_decide (data r = Some true) && _); [|by left].
  right. rewrite Hst.
  by destruct (Local.enrollInFreeCourse (storage w) c (userId this) now).
Qed.

Lemma storage_getCourseProgress this w c now :
  storage (snd (Sync.getCourseProgress this w c now)) = storage w
  \/ exists resp r' serverProgress,
       Api.getCourseProgress c (userId this) (remote w) = (Resolved resp, r')
       /\ data resp = Some serverProgress
       /\ storage (snd (Sync.getCourseProgress this w c now))
          = Local.updateCourseProgress (storage w) c
              (patchOfRecord
                 (mergeProgress c (userId this) serverProgress
                    (Local.getCourseProgress (storage w) c (userId this)) now))
              (userId this) now.
Proof.
  unfold Sync.getCourseProgress.
  destruct (remoteCapable this); [|by left].
  unfold invoke.
  destruct (Api.getCourseProgress c (userId this) (remote w))
    as [[resp|?] r'] eqn:Hcall; [|by left].
  destruct (data resp) as [serverProgress|] eqn:Hd; [|by left].
  destruct (success resp); [|by left].
  right. exists resp, r', serverProgress. done.
Qed.

End WithClient.

End SyncFacts.

(** ** Invariants of the store under every sequence of operations *)

Module Invariants.

Import Api Sync Run SyncFacts.

Section StoreInvariant.

Context {R : Type} {client : TutorApiClient R}.

(** A property [I] of the stored collections, the patches callers may pass
    and the progress bodies the remote may send. *)
Variable I : Local.Storage -> Prop.
Variable okCourse : Local.CourseProgressPatch -> Prop.
Variable okLesson : Local.LessonProgressPatch -> Prop.
Variable okServer : ServerProgress -> Prop.

Hypothesis I_enroll : forall st c u now,
  I st -> I (snd (Local.enrollInFreeCourse st c u now)).
Hypothesis I_unenroll : forall st c u,
  I st -> I (snd (Local.unenrollFromCourse st c u)).
Hypothesis I_initialize : forall st c u now,
  I st -> I (Local.initializeCourseProgress st c u now).
Hypothesis I_remove : forall st c u,
  I st -> I (Local.removeCourseProgress st c u).
Hypothesis I_mark : forall st l c u now,
  I st -> I (Local.markLessonCompleted st l c u now).
Hypothesis I_reset : forall st, I st -> I (Local.resetAllCourseData st).
Hypothesis I_updateCourse : forall st c p u now,
  okCourse p -> I st -> I (Local.updateCourseProgress st c p u now).
Hypothesis I_updateLesson : forall st l c p u now,
  okLesson p -> I st -> I (Local.updateLessonProgress st l c p u now).
Hypothesis I_merge : forall st c u serverProgress now,
  I st -> okServer serverProgress ->
  okCourse
    (patchOfRecord
       (mergeProgress c u serverProgress (Local.getCourseProgress st c u) now)).
Hypothesis remote_ok : forall c u r resp r' serverProgress,
  Api.getCourseProgress c u r = (Resolved resp, r') ->
  data resp = Some serverProgress -> okServer serverProgress.

Lemma step_invariant a now (s : System R) :
  Inv.allowed okCourse okLesson a ->
  I (storage (world s)) -> I (storage (world (step a now s))).
Proof using All.
  intros Ha Hs. destruct s as [this w]. simpl in Hs.
  destruct a; simpl in *; eauto.
  - destruct (storage_isEnrolledInCourse this w c now) as [-> | ->]; eauto.
  - pose proof (storage_enrollInFreeCourse this w c now) as Hst.
    destruct (Sync.enrollInFreeCourse this w c now) as [[? ?] ?].
    simpl in *. rewrite Hst. eauto.
  - pose proof (storage_markLessonCompleted this w l c now) as Hst.
    destruct (Sync.markLessonCompleted this w l c now) as [? ?].
    simpl in *. rewrite Hst. eauto.
  - destruct (storage_getCourseProgress this w c now)
      as [-> | (resp & r' & sp & Hcall & Hd & ->)]; eauto.
  - pose proof (storage_syncToServer this w) as Hst.
    destruct (syncToServer this w) as [[? ?] ?]. simpl in *. by rewrite Hst.
  - by rewrite storage_syncFromServer.
  - pose proof (storage_processSyncQueue (setOnline this true) w) as Hst.
    unfold onOnline. destruct (processSyncQueue _ w). simpl in *.
    by rewrite Hst.
  - pose proof (storage_autoSyncTick this w) as Hst.
    destruct (autoSyncTick this w). simpl in *. by rewrite Hst.
Qed.

Lemma run_invariant acts (s : System R) :
  Forall (fun a => Inv.allowed okCourse okLesson (fst a)) acts ->
  I (storage (world s)) -> I (storage (world (run acts s))).
Proof using All.
  intros Hacts. revert s.
  induction Hacts as [|a acts Ha _ IH]; intros s Hs; simpl; [done|].
  apply IH. by apply step_invariant.
Qed.

End StoreInvariant.

End Invariants.

(** ** The three store invariants, operation by operation *)

Module StoreInvariants.

Import Local LocalFacts Inv.

(** *** Lists *)

Lemma existsb_false_elem {A : Type} (f : A -> bool) (l : list A) (x : A) :
  existsb f l = false -> x ∈ l -> f x = false.
Proof.
  induction l as [|z l IH]; simpl; intros Hf Hx.
  - by apply elem_of_nil in Hx.
  - apply orb_false_iff in Hf as [Hz Hl].
    apply elem_of_cons in Hx as [->|Hx]; eauto.
Qed.

Lemma elem_of_fmap_list_filter {A B : Type} (g : A -> B) (f : A -> bool)
    (l : list A) (y : B) :
  y ∈ g <$> List.filter f l -> y ∈ g <$> l.
Proof.
  induction l as [|z l IH]; simpl; [done|].
  destruct (f z); simpl; rewrite ?elem_of_cons; intuition.
Qed.

Lemma NoDup_fmap_list_filter {A B : Type} (g : A -> B) (f : A -> bool)
    (l : list A) :
  NoDup (g <$> l) -> NoDup (g <$> List.filter f l).
Proof.
  induction l as [|z l IH]; simpl; [done|].
  rewrite NoDup_cons. intros [Hz Hl].
  destruct (f z); simpl; [|eauto].
  apply NoDup_cons. split; [|eauto].
  intros Hin. apply Hz. by eapply elem_of_fmap_list_filter.
Qed.

Section Counting.

Context {A B : Type} `{EqDecision B} (g : A -> B).

Lemma filter_key_absent (l : list A) (k : B) :
  k ∉ g <$> l -> List.filter (fun e => bool_decide (g e = k)) l = [].
Proof.
  induction l as [|z l IH]; simpl; [done|].
  rewrite not_elem_of_cons. intros [Hz Hl].
  rewrite bool_decide_eq_false_2 by done. eauto.
Qed.

Lemma filter_key_NoDup (l : list A) (k : B) :
  NoDup (g <$> l) ->
  (length (List.filter (fun e => bool_decide (g e = k)) l) <= 1)%nat.
Proof.
  induction l as [|z l IH]; simpl; [lia|].
  rewrite NoDup_cons. intros [Hz Hl].
  destruct (decide (g z = k)) as [<-|Hne].
  - rewrite bool_decide_eq_true_2 by done. simpl.
    rewrite filter_key_absent by done. simpl. lia.
  - rewrite bool_decide_eq_false_2 by done. eauto.
Qed.

End Counting.

Lemma filter_length_elem {A : Type} (f : A -> bool) (l : list A) (x : A) :
  x ∈ l -> f x = true -> (1 <= length (List.filter f l))%nat.
Proof.
  induction l as [|z l IH]; simpl; intros Hx Hf.
  - by apply elem_of_nil in Hx.
  - apply elem_of_cons in Hx as [<-|Hx].
    + rewrite Hf. simpl. lia.
    + destruct (f z); simpl; [lia|eauto].
Qed.

Lemma filter_length_app {A : Type} (f : A -> bool) (l l' : list A) :
  length (List.filter f (l ++ l'))
  = (length (List.filter f l) + length (List.filter f l'))%nat.
Proof. by rewrite List.filter_app, length_app. Qed.

Lemma existsb_elem {A : Type} (f : A -> bool) (l : list A) :
  existsb f l = true -> exists x, x ∈ l /\ f x = true.
Proof.
  rewrite existsb_find. intros H. apply bool_decide_eq_true in H as [x Hx].
  exists x. by apply find_elem.
Qed.

(** *** One enrollment per stored pair *)

Lemma enrollment_matches_key c u e :
  enrollment_key e = (c, u) -> enrollment_matches c u e = true.
Proof.
  unfold enrollment_key, enrollment_matches. intros [= -> ->].
  by rewrite Z.eqb_refl, user_matches_refl.
Qed.

Lemma not_enrolled_key_absent st c u :
  window_defined st = true ->
  isEnrolledInCourse st c u = false ->
  (c, u) ∉ enrollment_key <$> tutor_enrollments st.
Proof.
  unfold isEnrolledInCourse, getEnrollments. intros -> Hf Hin.
  apply list_elem_of_fmap in Hin as (e & Hk & He).
  apply (existsb_false_elem _ _ e) in Hf; [|done].
  rewrite enrollment_matches_key in Hf; done.
Qed.

Lemma enrollments_enrollInFreeCourse st c u now :
  tutor_enrollments (snd (enrollInFreeCourse st c u now))
  = if window_defined st && negb (isEnrolledInCourse st c u)
    then tutor_enrollments st ++ [mkEnrollment c u free now]
    else tutor_enrollments st.
Proof.
  unfold enrollInFreeCourse.
  destruct (isEnrolledInCourse st c u); simpl; [by rewrite andb_false_r|].
  rewrite enrollments_initializeCourseProgress.
  unfold getEnrollments. by storage_cases st.
Qed.

Lemma unique_enrollInFreeCourse st c u now :
  unique_enrollments st ->
  unique_enrollments (snd (enrollInFreeCourse st c u now)).
Proof.
  unfold unique_enrollments. rewrite enrollments_enrollInFreeCourse.
  destruct (window_defined st) eqn:Hw; simpl; [|done].
  destruct (isEnrolledInCourse st c u) eqn:He; simpl; [done|].
  intros Hnd. rewrite fmap_app. apply NoDup_app. split; [done|]. split.
  - intros k Hk Hk'. apply list_elem_of_singleton in Hk'. subst k.
    by apply (not_enrolled_key_absent st c u).
  - apply NoDup_singleton.
Qed.

Lemma enrollments_removeCourseProgress st c u :
  tutor_enrollments (removeCourseProgress st c u) = tutor_enrollments st.
Proof. apply enrollments_setCourseProgressData. Qed.

Lemma unique_unenrollFromCourse st c u :
  unique_enrollments st ->
  unique_enrollments (snd (unenrollFromCourse st c u)).
Proof.
  unfold unique_enrollments, unenrollFromCourse. simpl.
  rewrite enrollments_removeCourseProgress. unfold getEnrollments.
  storage_cases st. apply NoDup_fmap_list_filter.
Qed.

Lemma enrollments_markLessonCompleted st l c u now :
  tutor_enrollments (markLessonCompleted st l c u now) = tutor_enrollments st.
Proof.
  unfold markLessonCompleted. case_match.
  - rewrite enrollments_updateCourseProgress.
    apply enrollments_setLessonProgressData.
  - apply enrollments_setLessonProgressData.
Qed.

Lemma enrollments_updateLessonProgress st l c p u now :
  tutor_enrollments (updateLessonProgress st l c p u now) = tutor_enrollments st.
Proof.
  unfold updateLessonProgress.
  repeat case_match; apply enrollments_setLessonProgressData.
Qed.

Lemma unique_resetAllCourseData st :
  unique_enrollments st -> unique_enrollments (resetAllCourseData st).
Proof.
  unfold unique_enrollments, resetAllCourseData.
  destruct (window_defined st); [|done]. intros _. apply NoDup_nil_2.
Qed.

(** The second of two successive enrollments finds the first. *)
Lemma enrolled_after_enroll st c u now :
  window_defined st = true ->
  isEnrolledInCourse (snd (enrollInFreeCourse st c u now)) c u = true.
Proof.
  intros Hw. unfold enrollInFreeCourse.
  destruct (isEnrolledInCourse st c u) eqn:He; [done|]. simpl.
  unfold isEnrolledInCourse, getEnrollments.
  rewrite window_initializeCourseProgress, window_setEnrollments, Hw.
  rewrite enrollments_initializeCourseProgress.
  rewrite enrollments_setEnrollments by done.
  rewrite existsb_app. simpl.
  rewrite (enrollment_matches_key c u) by done.
  by rewrite orb_true_r.
Qed.

Lemma enrollInFreeCourse_true st c u now :
  fst (enrollInFreeCourse st c u now) = true.
Proof. unfold enrollInFreeCourse. by case_match. Qed.

Lemma enroll_without_window st c u now :
  window_defined st = false -> snd (enrollInFreeCourse st c u now) = st.
Proof.
  intros Hw. unfold enrollInFreeCourse. case_match; [done|]. simpl.
  unfold initializeCourseProgress, setEnrollments, getCourseProgressData,
    setCourseProgressData.
  rewrite Hw. simpl. by rewrite Hw.
Qed.

(** *** The percentage stays within 0..100 *)

Lemma calculateOverallProgress_bounds st c u :
  0 <= calculateOverallProgress st c u <= 100.
Proof.
  unfold calculateOverallProgress. case_match; [|lia].
  set (t := Z.of_nat _). unfold round_div.
  assert (0 <= t) by (unfold t; lia).
  split; [|lia]. apply Z.min_glb; [|lia].
  apply Z.div_pos; lia.
Qed.

Lemma progress_ok_set st d :
  progress_ok st -> Forall progress_bounded d ->
  progress_ok (setCourseProgressData st d).
Proof. unfold progress_ok. by storage_cases st. Qed.

Lemma progress_ok_data st :
  progress_ok st -> Forall progress_bounded (getCourseProgressData st).
Proof. unfold progress_ok, getCourseProgressData. by storage_cases st. Qed.

Lemma progress_ok_frame st st' :
  tutor_course_progress st' = tutor_course_progress st ->
  progress_ok st -> progress_ok st'.
Proof. unfold progress_ok. by intros ->. Qed.

Lemma progress_ok_initialize st c u now :
  progress_ok st -> progress_ok (initializeCourseProgress st c u now).
Proof.
  intros Hok. unfold initializeCourseProgress. case_match; [done|].
  apply progress_ok_set; [done|]. apply Forall_app. split.
  - by apply progress_ok_data.
  - apply Forall_singleton. unfold progress_bounded. simpl. lia.
Qed.

Lemma progress_ok_enroll st c u now :
  progress_ok st -> progress_ok (snd (enrollInFreeCourse st c u now)).
Proof.
  intros Hok. unfold enrollInFreeCourse. case_match; [done|]. simpl.
  apply progress_ok_initialize.
  eapply progress_ok_frame; [apply courses_setEnrollments|done].
Qed.

Lemma progress_ok_remove st c u :
  progress_ok st -> progress_ok (removeCourseProgress st c u).
Proof.
  intros Hok. apply progress_ok_set; [done|].
  apply Forall_list_filter. by apply progress_ok_data.
Qed.

Lemma progress_ok_unenroll st c u :
  progress_ok st -> progress_ok (snd (unenrollFromCourse st c u)).
Proof.
  intros Hok. apply progress_ok_remove.
  eapply progress_ok_frame; [apply courses_setEnrollments|done].
Qed.

Lemma progress_ok_updateCourse st c p u now :
  patch_bounded p -> progress_ok st ->
  progress_ok (updateCourseProgress st c p u now).
Proof.
  intros Hp Hok. unfold updateCourseProgress.
  destruct (findIndex _ _) as [i|]; [|done].
  destruct (getCourseProgressData st !! i) as [old|] eqn:Hi; [|done].
  apply progress_ok_set; [done|].
  pose proof (progress_ok_data st Hok) as Hd.
  apply Forall_insert; [done|].
  unfold progress_bounded. simpl.
  destruct (u_overallProgress p) as [n|] eqn:Hn; simpl; [by apply Hp|].
  by eapply (Forall_lookup_1 _ _ _ _ Hd Hi).
Qed.

Lemma progress_ok_mark st l c u now :
  progress_ok st -> progress_ok (markLessonCompleted st l c u now).
Proof.
  intros Hok. unfold markLessonCompleted.
  set (st1 := setLessonProgressData st _).
  assert (progress_ok st1) as Hok1
    by (eapply progress_ok_frame; [apply courses_setLessonProgressData|done]).
  case_match; [|done].
  apply progress_ok_updateCourse; [|done].
  intros n [= <-]. apply calculateOverallProgress_bounds.
Qed.

Lemma progress_ok_updateLesson st l c p u now :
  progress_ok st -> progress_ok (updateLessonProgress st l c p u now).
Proof.
  intros Hok. unfold updateLessonProgress.
  repeat case_match;
    (eapply progress_ok_frame; [apply courses_setLessonProgressData|done]).
Qed.

Lemma progress_ok_reset st :
  progress_ok st -> progress_ok (resetAllCourseData st).
Proof.
  unfold progress_ok, resetAllCourseData.
  destruct (window_defined st); [|done]. intros _. constructor.
Qed.

Lemma or_num_bounded (remote local : option Z) :
  (forall n, remote = Some n -> 0 <= n <= 100) ->
  (forall n, local = Some n -> 0 <= n <= 100) ->
  0 <= Sync.or_num remote local <= 100.
Proof.
  intros Hr Hl. unfold Sync.or_num.
  destruct remote as [n|]; [destruct (truthy_num n); [by apply Hr|]|];
    (destruct local as [m|]; simpl; [by apply Hl|lia]).
Qed.

Lemma merge_bounded st c u serverProgress now :
  progress_ok st -> server_bounded serverProgress ->
  patch_bounded
    (Sync.patchOfRecord
       (Sync.mergeProgress c u serverProgress (getCourseProgress st c u) now)).
Proof.
  intros Hok Hsp n [= <-]. apply or_num_bounded; [done|].
  intros m Hm. destruct (getCourseProgress st c u) as [cp|] eqn:Hcp; [|done].
  injection Hm as <-. apply find_elem in Hcp as [Hin _].
  pose proof (progress_ok_data st Hok) as Hd.
  by apply (proj1 (Forall_forall _ _) Hd).
Qed.

End StoreInvariants.

Module LessonInvariants.

Import Local LocalFacts Inv.

Lemma lessons_ok_set st d :
  lessons_ok st -> Forall lesson_consistent d ->
  lessons_ok (setLessonProgressData st d).
Proof. unfold lessons_ok. by storage_cases st. Qed.

Lemma lessons_ok_data st :
  lessons_ok st -> Forall lesson_consistent (getLessonProgressData st).
Proof. unfold lessons_ok, getLessonProgressData. by storage_cases st. Qed.

Lemma lessons_ok_frame st st' :
  tutor_lesson_progress st' = tutor_lesson_progress st ->
  lessons_ok st -> lessons_ok st'.
Proof. unfold lessons_ok. by intros ->. Qed.

Lemma lessons_ok_enroll st c u now :
  lessons_ok st -> lessons_ok (snd (enrollInFreeCourse st c u now)).
Proof.
  intros Hok. unfold enrollInFreeCourse. case_match; [done|]. simpl.
  eapply lessons_ok_frame; [|done].
  by rewrite lessons_initializeCourseProgress, lessons_setEnrollments.
Qed.

Lemma lessons_ok_unenroll st c u :
  lessons_ok st -> lessons_ok (snd (unenrollFromCourse st c u)).
Proof.
  intros Hok. eapply lessons_ok_frame; [|done]. simpl.
  unfold removeCourseProgress.
  by rewrite lessons_setCourseProgressData, lessons_setEnrollments.
Qed.

Lemma lessons_ok_remove st c u :
  lessons_ok st -> lessons_ok (removeCourseProgress st c u).
Proof.
  intros Hok. eapply lessons_ok_frame; [|done].
  apply lessons_setCourseProgressData.
Qed.

Lemma lessons_ok_initialize st c u now :
  lessons_ok st -> lessons_ok (initializeCourseProgress st c u now).
Proof.
  intros Hok. eapply lessons_ok_frame; [|done].
  apply lessons_initializeCourseProgress.
Qed.

Lemma lessons_ok_updateCourse st c p u now :
  lessons_ok st -> lessons_ok (updateCourseProgress st c p u now).
Proof.
  intros Hok. eapply lessons_ok_frame; [|done].
  apply lessons_updateCourseProgress.
Qed.

Lemma lessons_ok_reset st :
  lessons_ok st -> lessons_ok (resetAllCourseData st).
Proof.
  unfold lessons_ok, resetAllCourseData.
  destruct (window_defined st); [|done]. intros _. constructor.
Qed.

Lemma lessons_ok_mark st l c u now :
  lessons_ok st -> lessons_ok (markLessonCompleted st l c u now).
Proof.
  intros Hok. unfold markLessonCompleted.
  set (st1 := setLessonProgressData st _).
  assert (lessons_ok st1) as Hok1.
  { apply lessons_ok_set; [done|].
    pose proof (lessons_ok_data st Hok) as Hd.
    destruct (findIndex _ _) as [i|].
    - destruct (getLessonProgressData st !! i) as [old|]; [|done].
      apply Forall_insert; [done|].
      intros _. simpl. split; [done|]. by eexists.
    - apply Forall_app. split; [done|]. apply Forall_singleton.
      intros _. simpl. split; [done|]. by eexists. }
  case_match; [|done]. by apply lessons_ok_updateCourse.
Qed.

Lemma applyLessonPatch_consistent old p now :
  patch_consistent p -> lesson_consistent old ->
  lesson_consistent (applyLessonPatch old p now).
Proof.
  unfold patch_consistent, lesson_consistent. simpl.
  destruct (v_isCompleted p) as [[]|]; simpl.
  - intros (-> & t & ->) _ _. simpl. split; [done|]. by eexists.
  - done.
  - intros [Hp Ht] Hold Hc. destruct (Hold Hc) as [Ho [t Hot]]. split.
    + destruct (v_progressPercentage p) as [n|]; simpl; [by apply Hp|done].
    + destruct (v_completedAt p) as [[t'|]|]; simpl; [by eexists|done|].
      by eexists.
Qed.

Lemma newLessonFromPatch_consistent l c u p now :
  patch_consistent p -> lesson_consistent (newLessonFromPatch l c u p now).
Proof.
  unfold patch_consistent, lesson_consistent. simpl.
  destruct (v_isCompleted p) as [[]|]; simpl; [|done..].
  intros (-> & t & ->) _. simpl. split; [done|]. by eexists.
Qed.

Lemma lessons_ok_updateLesson st l c p u now :
  patch_consistent p -> lessons_ok st ->
  lessons_ok (updateLessonProgress st l c p u now).
Proof.
  intros Hp Hok. unfold updateLessonProgress.
  pose proof (lessons_ok_data st Hok) as Hd.
  destruct (findIndex _ _) as [i|].
  - destruct (getLessonProgressData st !! i) as [old|] eqn:Hi;
      apply lessons_ok_set; try done.
    apply Forall_insert; [done|].
    apply applyLessonPatch_consistent; [done|].
    by apply (Forall_lookup_1 _ _ _ _ Hd Hi).
  - apply lessons_ok_set; [done|]. apply Forall_app. split; [done|].
    apply Forall_singleton. by apply newLessonFromPatch_consistent.
Qed.

(** *** Completion survives later updates *)

Lemma window_updateLessonProgress st l c p u now :
  window_defined (updateLessonProgress st l c p u now) = window_defined st.
Proof.
  unfold updateLessonProgress.
  repeat case_match; apply window_setLessonProgressData.
Qed.

Lemma lesson_matches_applyLessonPatch l c u old p now :
  v_lessonId p = None -> v_courseId p = None -> v_userId p = None ->
  lesson_matches l c u (applyLessonPatch old p now) = lesson_matches l c u old.
Proof. unfold lesson_matches. simpl. by intros -> -> ->. Qed.

Lemma isLessonCompleted_find st l c u :
  window_defined st = true ->
  isLessonCompleted st l c u = true <->
  exists x, find (lesson_matches l c u) (tutor_lesson_progress st) = Some x
            /\ isCompleted x = true.
Proof.
  intros Hw. unfold isLessonCompleted, getLessonProgress, getLessonProgressData.
  rewrite Hw. destruct (find _ _) as [x|]; split.
  - intros Hx. by exists x.
  - by intros (y & [= <-] & Hy).
  - done.
  - by intros (y & ? & _).
Qed.

Lemma completed_updateLessonProgress st l c u l' c' p u' now :
  window_defined st = true ->
  patch_keeps_completion p ->
  isLessonCompleted st l c u = true ->
  isLessonCompleted (updateLessonProgress st l' c' p u' now) l c u = true.
Proof.
  intros Hw (Hflag & Hl & Hc & Hu) Hdone.
  apply isLessonCompleted_find in Hdone; [|done].
  apply isLessonCompleted_find;
    [by rewrite window_updateLessonProgress|].
  unfold updateLessonProgress, getLessonProgressData. rewrite Hw.
  destruct (findIndex _ _) as [i|].
  - destruct (tutor_lesson_progress st !! i) as [old|] eqn:Hi;
      rewrite lessons_setLessonProgressData by done; [|done].
    apply (find_insert_preserved _ (fun x => isCompleted x = true) _ _ old);
      try done.
    + by apply lesson_matches_applyLessonPatch.
    + simpl. intros ->. by destruct (v_isCompleted p) as [[]|].
  - rewrite lessons_setLessonProgressData by done.
    destruct Hdone as (x & Hx & Hxc). exists x. split; [|done].
    by apply find_app_found.
Qed.

Lemma completed_updateLessonProgressAll ups st l c u :
  window_defined st = true ->
  Forall (fun k => patch_keeps_completion (call_updates k)) ups ->
  isLessonCompleted st l c u = true ->
  isLessonCompleted (updateLessonProgressAll ups st) l c u = true.
Proof.
  intros Hw Hups. revert st Hw.
  induction Hups as [|k ups Hk _ IH]; intros st Hw Hdone; simpl; [done|].
  apply IH.
  - by rewrite window_updateLessonProgress.
  - by apply completed_updateLessonProgress.
Qed.

End LessonInvariants.

Module InvariantSpec.

Import Api Sync Run Inv Examples.
Import LocalFacts StoreInvariants LessonInvariants Invariants.

(** *** Idempotent enrollment *)

(** C5, as the code has it.  In every state reached by store and coordinator
    operations at most one enrollment is stored per (course id, user id)
    pair.  Enrolling twice in succession returns [true] both times and the
    second call changes nothing; afterwards the pair reads as enrolled and
    at most one enrollment is stored under it, exactly one when the user id
    is nonzero or the course had no enrollment before. *)
Theorem enrollment_idempotent
    {R : Type} {client : TutorApiClient R}
    (acts : list (Action * string)) (s : System R)
    (c : Z) (u : option Z) (now1 now2 : string) :
  unique_enrollments (storage (world s)) ->
  Local.window_defined (storage (world (run acts s))) = true ->
  let st := storage (world (run acts s)) in
  let first := Local.enrollInFreeCourse st c u now1 in
  let second := Local.enrollInFreeCourse (snd first) c u now2 in
  unique_enrollments st
  /\ fst first = true /\ fst second = true
  /\ snd second = snd first
  /\ Local.isEnrolledInCourse (snd second) c u = true
  /\ unique_enrollments (snd second)
  /\ (count_pair (snd second) c u <= 1)%nat
  /\ (truthy_id u = true \/ count_course st c = 0%nat ->
      count_pair (snd second) c u = 1%nat).
Proof.
  intros Hs Hw st first second.
  change (Local.window_defined st = true) in Hw.
  assert (unique_enrollments st) as Hst.
  { apply (run_invariant unique_enrollments (fun _ => True) (fun _ => True)
             (fun _ => True)); try done.
    - apply unique_enrollInFreeCourse.
    - apply unique_unenrollFromCourse.
    - intros st0 c0 u0 now0. unfold unique_enrollments.
      by rewrite enrollments_initializeCourseProgress.
    - intros st0 c0 u0. unfold unique_enrollments.
      by rewrite enrollments_removeCourseProgress.
    - intros st0 l0 c0 u0 now0. unfold unique_enrollments.
      by rewrite enrollments_markLessonCompleted.
    - apply unique_resetAllCourseData.
    - intros st0 c0 p0 u0 now0 _. unfold unique_enrollments.
      by rewrite enrollments_updateCourseProgress.
    - intros st0 l0 c0 p0 u0 now0 _. unfold unique_enrollments.
      by rewrite enrollments_updateLessonProgress.
    - apply Forall_forall. by intros [[] ?] _. }
  assert (Local.isEnrolledInCourse (snd first) c u = true) as Hen
    by (by apply enrolled_after_enroll).
  assert (snd second = snd first) as Hsame.
  { subst second. unfold Local.enrollInFreeCourse at 1. by rewrite Hen. }
  assert (unique_enrollments (snd first)) as Hu1
    by (by apply unique_enrollInFreeCourse).
  split; [done|]. split; [subst first; unfold Local.enrollInFreeCourse;
                           by case_match|].
  split; [subst second; unfold Local.enrollInFreeCourse at 1;
          by case_match|].
  rewrite Hsame. repeat split; try done.
  - apply (filter_key_NoDup enrollment_key). exact Hu1.
  - intros Hcase. apply Nat.le_antisymm.
    { apply (filter_key_NoDup enrollment_key). exact Hu1. }
    unfold count_pair. subst first.
    rewrite enrollments_enrollInFreeCourse, Hw. simpl.
    destruct (Local.isEnrolledInCourse st c u) eqn:He; simpl.
    + destruct Hcase as [Ht | Hnone].
      * unfold Local.isEnrolledInCourse, Local.getEnrollments in He.
        rewrite Hw in He.
        apply existsb_elem in He as (e & Hin & Hm).
        apply (filter_length_elem _ _ e); [done|].
        apply bool_decide_eq_true_2. unfold enrollment_key.
        unfold Local.enrollment_matches in Hm.
        apply andb_true_iff in Hm as [Hc Hm].
        apply Z.eqb_eq in Hc. unfold user_matches in Hm. rewrite Ht in Hm.
        simpl in Hm. destruct u as [n|]; [|done].
        rewrite strict_eq_Some in Hm. apply bool_decide_eq_true in Hm.
        by rewrite Hc, Hm.
      * unfold Local.isEnrolledInCourse, Local.getEnrollments in He.
        rewrite Hw in He.
        apply existsb_elem in He as (e & Hin & Hm).
        unfold count_course in Hnone.
        pose proof (filter_length_elem
                      (fun e' => Local.e_courseId e' =? c) _ e Hin) as Hge.
        rewrite Hnone in Hge. cut (1 <= 0)%nat; [lia|]. apply Hge.
        unfold Local.enrollment_matches in Hm.
        by apply andb_true_iff in Hm as [Hc _].
    + rewrite filter_length_app. simpl.
      rewrite bool_decide_eq_true_2 by done. simpl. lia.
Qed.

Lemma enrollment_idempotent_witness :
  count_pair
    (snd (Local.enrollInFreeCourse
            (snd (Local.enrollInFreeCourse
                    (storage (world
                       (run (client := Scripted.client None None)
                          [(LocalEnroll 5 (Some 7), "t0"%string);
                           (SyncEnroll 6, "t1"%string)]
                          (mkSystem capable
                             (mkWorld (Local.emptyStorage true)
                                Scripted.accepting [])))))
                    5 (Some 8) "t2"))
            5 (Some 8) "t3"))
    5 (Some 8) = 1%nat.
Proof.
  apply (enrollment_idempotent (client := Scripted.client None None)
           [(LocalEnroll 5 (Some 7), "t0"%string); (SyncEnroll 6, "t1"%string)]
           (mkSystem capable
              (mkWorld (Local.emptyStorage true) Scripted.accepting []))
           5 (Some 8) "t2" "t3").
  - apply NoDup_nil_2.
  - reflexivity.
  - left. reflexivity.
Defined.

(** C5, as stated, fails for a query without a user id: after users 7 and 8
    enrolled in course 5, enrolling twice with no user id returns [true]
    twice, yet no enrollment is stored under the pair (5, no user) and the
    query matches two stored enrollments, not one. *)
Lemma enroll_twice_without_user :
  let st0 := Local.emptyStorage true in
  let st1 := snd (Local.enrollInFreeCourse st0 5 (Some 7) "t0") in
  let st2 := snd (Local.enrollInFreeCourse st1 5 (Some 8) "t1") in
  let first := Local.enrollInFreeCourse st2 5 None "t2" in
  let second := Local.enrollInFreeCourse (snd first) 5 None "t3" in
  fst first = true /\ fst second = true
  /\ count_pair (snd second) 5 None <> 1%nat
  /\ count_matching (snd second) 5 None <> 1%nat.
Proof. vm_compute. repeat split; discriminate. Qed.

(** *** The percentage bound *)

(** C6, as the code has it.  [calculateOverallProgress] always lies in
    0..100.  Every stored course record keeps [0 <= overallProgress <= 100]
    along every sequence of store and coordinator operations in which the
    percentages supplied from outside (in [updateCourseProgress] patches
    and in remote progress responses) lie in 0..100 themselves; the record
    the coordinator's [getCourseProgress] returns then lies in 0..100 too. *)
Theorem overallProgress_bounds
    {R : Type} {client : TutorApiClient R}
    (acts : list (Action * string)) (s : System R) :
  (forall c u r resp r' serverProgress,
      Api.getCourseProgress c u r = (Resolved resp, r') ->
      data resp = Some serverProgress -> server_bounded serverProgress) ->
  Forall (fun a => allowed patch_bounded (fun _ => True) (fst a)) acts ->
  progress_ok (storage (world s)) ->
  let s' := run acts s in
  progress_ok (storage (world s'))
  /\ (forall c u,
        0 <= Local.calculateOverallProgress (storage (world s')) c u <= 100)
  /\ (forall c now p,
        fst (Sync.getCourseProgress (coordinator s') (world s') c now) = Some p ->
        progress_bounded p).
Proof.
  intros Hremote Hacts Hs s'.
  assert (progress_ok (storage (world s'))) as Hok.
  { apply (run_invariant progress_ok patch_bounded (fun _ => True)
             server_bounded); try done.
    - apply progress_ok_enroll.
    - apply progress_ok_unenroll.
    - apply progress_ok_initialize.
    - apply progress_ok_remove.
    - apply progress_ok_mark.
    - apply progress_ok_reset.
    - intros. by apply progress_ok_updateCourse.
    - intros. by apply progress_ok_updateLesson.
    - intros. by apply merge_bounded. }
  split; [done|]. split; [intros; apply calculateOverallProgress_bounds|].
  intros c now p. destruct s' as [this w]. simpl in *.
  assert (forall q, Local.getCourseProgress (storage w) c (userId this) = Some q ->
                    progress_bounded q) as Hlocal.
  { intros q Hq. apply find_elem in Hq as [Hin _].
    pose proof (progress_ok_data _ Hok) as Hd.
    by apply (proj1 (Forall_forall _ _) Hd). }
  unfold Sync.getCourseProgress.
  destruct (remoteCapable this); [|by apply Hlocal].
  unfold invoke.
  destruct (Api.getCourseProgress c (userId this) (remote w))
    as [[resp|?] r'] eqn:Hcall; simpl; [|by apply Hlocal].
  destruct (data resp) as [sp|] eqn:Hd; simpl; [|by apply Hlocal].
  destruct (success resp); simpl; [|by apply Hlocal].
  intros [= <-]. unfold progress_bounded. simpl.
  apply or_num_bounded.
  - by apply (Hremote _ _ _ _ _ _ Hcall Hd).
  - intros m Hm.
    destruct (Local.getCourseProgress (storage w) c (userId this)) as [q|];
      [|done].
    injection Hm as <-. by apply Hlocal.
Qed.

Lemma overallProgress_bounds_witness :
  progress_ok
    (storage (world
       (run (client := Scripted.client (Some body40) None)
          [(SyncEnroll 1, "t0"%string);
           (LocalMarkLesson 3 1 (Some 7), "t1"%string);
           (SyncGetProgress 1, "t2"%string)]
          (mkSystem capable
             (mkWorld (Local.emptyStorage true) Scripted.accepting []))))).
Proof.
  apply (overallProgress_bounds (client := Scripted.client (Some body40) None)
           [(SyncEnroll 1, "t0"%string);
            (LocalMarkLesson 3 1 (Some 7), "t1"%string);
            (SyncGetProgress 1, "t2"%string)]
           (mkSystem capable
              (mkWorld (Local.emptyStorage true) Scripted.accepting []))).
  - intros c u r resp r' sp Hcall Hd n Hn. simpl in Hcall.
    unfold Scripted.answer in Hcall.
    destruct (Scripted.rejects r); [done|].
    destruct (Scripted.succeeds r); injection Hcall as <- <-;
      simpl in Hd; [|done].
    injection Hd as <-. injection Hn as <-. lia.
  - repeat constructor.
  - constructor.
Defined.

(** C6, as stated, fails: the coordinator's merge copies the remote
    percentage as it comes.  With a local record for course 1 and a remote
    answering 150, [getCourseProgress] returns and stores 150; so does the
    store's own [updateCourseProgress] with a patch carrying 150. *)
Lemma merge_stores_remote_percentage :
  let st := snd (Local.enrollInFreeCourse (Local.emptyStorage true) 1 (Some 7) "t0") in
  let w := mkWorld st Scripted.accepting [] in
  let result :=
    Sync.getCourseProgress (client := Scripted.client (Some body150) None)
      capable w 1 "t1" in
  let patched :=
    Local.updateCourseProgress st 1
      (Local.mkCoursePatch None None None None None (Some 150) None None None)
      (Some 7) "t1" in
  progress_ok st
  /\ (Local.overallProgress <$> fst result) = Some 150
  /\ (Local.overallProgress
        <$> Local.getCourseProgress (storage (snd result)) 1 (Some 7)) = Some 150
  /\ ~ progress_ok (storage (snd result))
  /\ (Local.overallProgress
        <$> Local.getCourseProgress patched 1 (Some 7)) = Some 150.
Proof.
  split; [repeat constructor; simpl; lia|].
  split; [reflexivity|]. split; [reflexivity|]. split; [|reflexivity].
  intros H. vm_compute in H. apply Forall_cons in H as [[_ H] _].
  by apply H.
Qed.

(** *** Completed lessons are at 100 percent *)

(** C8, as the code has it.  In every state reached by store and
    coordinator operations whose [updateLessonProgress] patches are
    consistent (a patch setting the completed flag also sets the percentage
    to 100 and a completion timestamp; a patch leaving the flag alone
    neither sets another percentage nor clears the timestamp), every lesson
    record with the completed flag has percentage 100 and a completion
    timestamp. *)
Theorem completed_lessons_consistent
    {R : Type} {client : TutorApiClient R}
    (acts : list (Action * string)) (s : System R) :
  Forall (fun a => allowed (fun _ => True) patch_consistent (fst a)) acts ->
  lessons_ok (storage (world s)) ->
  forall p,
    p ∈ Local.tutor_lesson_progress (storage (world (run acts s))) ->
    Local.isCompleted p = true ->
    Local.progressPercentage p = 100 /\ is_Some (Local.completedAt p).
Proof.
  intros Hacts Hs.
  assert (lessons_ok (storage (world (run acts s)))) as Hok.
  { apply (run_invariant lessons_ok (fun _ => True) patch_consistent
             (fun _ => True)); try done.
    - apply lessons_ok_enroll.
    - apply lessons_ok_unenroll.
    - apply lessons_ok_initialize.
    - apply lessons_ok_remove.
    - apply lessons_ok_mark.
    - apply lessons_ok_reset.
    - intros. by apply lessons_ok_updateCourse.
    - intros. by apply lessons_ok_updateLesson. }
  intros p Hp. by apply (proj1 (Forall_forall _ _) Hok).
Qed.

Lemma completed_lessons_consistent_witness :
  lessons_ok
    (storage (world
       (run (client := Scripted.client None None)
          [(LocalMarkLesson 3 1 None, "t0"%string);
           (LocalUpdateLesson 3 1 playbackPatch None, "t1"%string);
           (LocalUpdateLesson 4 1 playbackPatch None, "t2"%string)]
          (mkSystem capable
             (mkWorld (Local.emptyStorage true) Scripted.accepting []))))).
Proof.
  apply Forall_forall. intros p Hp Hc. revert p Hp Hc.
  apply (completed_lessons_consistent (client := Scripted.client None None)
           [(LocalMarkLesson 3 1 None, "t0"%string);
            (LocalUpdateLesson 3 1 playbackPatch None, "t1"%string);
            (LocalUpdateLesson 4 1 playbackPatch None, "t2"%string)]
           (mkSystem capable
              (mkWorld (Local.emptyStorage true) Scripted.accepting []))).
  - repeat constructor; simpl; done.
  - constructor.
Defined.

(** C8, as stated, fails: a patch is spread over the record unchecked.
    Setting the percentage of a completed lesson to 50 leaves it completed
    at 50 percent, and a patch that sets only the flag gives a completed
    lesson at 0 percent with no completion timestamp. *)
Lemma patch_breaks_completion_invariant :
  let st0 := Local.emptyStorage true in
  let st1 := Local.markLessonCompleted st0 3 1 None "t0" in
  let st2 :=
    Local.updateLessonProgress st1 3 1
      (Local.mkLessonPatch None None None None (Some 50) None None None None)
      None "t1" in
  let st3 :=
    Local.updateLessonProgress st0 4 1
      (Local.mkLessonPatch None None None (Some true) None None None None None)
      None "t1" in
  (exists p, Local.getLessonProgress st2 3 1 None = Some p
             /\ Local.isCompleted p = true
             /\ Local.progressPercentage p = 50)
  /\ (exists p, Local.getLessonProgress st3 4 1 None = Some p
                /\ Local.isCompleted p = true
                /\ Local.progressPercentage p = 0
                /\ Local.completedAt p = None).
Proof. split; eexists; vm_compute; done. Qed.

(** *** Completion is monotone *)

(** C9, as the code has it.  On an available store, once
    [markLessonCompleted l c u] has run, [isLessonCompleted l c u] stays
    [true] after any sequence of [updateLessonProgress] calls (for any
    lesson, course and user) whose patches neither set the completed flag
    to [false] nor overwrite the [lessonId], [courseId] or [userId] of the
    record. *)
Theorem completion_monotone st l c u now (ups : list LessonUpdate) :
  Local.window_defined st = true ->
  Forall (fun k => patch_keeps_completion (call_updates k)) ups ->
  Local.isLessonCompleted
    (updateLessonProgressAll ups (Local.markLessonCompleted st l c u now))
    l c u = true.
Proof.
  intros Hw Hups. apply completed_updateLessonProgressAll; [|done|].
  - by rewrite window_markLessonCompleted.
  - by apply markLessonCompleted_completes.
Qed.

Lemma completion_monotone_witness :
  Local.isLessonCompleted
    (updateLessonProgressAll
       [mkLessonUpdate 3 1 playbackPatch None "t1";
        mkLessonUpdate 3 1 playbackPatch (Some 9) "t2";
        mkLessonUpdate 4 1 playbackPatch None "t3"]
       (Local.markLessonCompleted (Local.emptyStorage true) 3 1 None "t0"))
    3 1 None = true.
Proof.
  apply (completion_monotone (Local.emptyStorage true) 3 1 None "t0").
  - reflexivity.
  - repeat constructor; simpl; done.
Defined.

(** C9, as stated, fails: a patch can move the record.  After lesson 3 of
    course 1 is completed, a patch that only sets [lessonId] to 4 (the
    completed flag is not mentioned) leaves lesson 3 without a record. *)
Lemma rekeying_patch_loses_completion :
  let st1 := Local.markLessonCompleted (Local.emptyStorage true) 3 1 None "t0" in
  let patch :=
    Local.mkLessonPatch (Some 4) None None None None None None None None in
  let st2 := Local.updateLessonProgress st1 3 1 patch None "t1" in
  Local.isLessonCompleted st1 3 1 None = true
  /\ Local.v_isCompleted patch = None
  /\ Local.isLessonCompleted st2 3 1 None = false.
Proof. vm_compute. done. Qed.

End InvariantSpec.

(** ** The retry queue *)

Module QueueFacts.

Import Api Sync Examples.

Lemma requeued_cons operation queue ev attempts :
  requeued (operation :: queue) (ev :: attempts)
  = if ev_rejected ev then operation :: requeued queue attempts
    else requeued queue attempts.
Proof. unfold requeued. simpl. by destruct (ev_rejected ev). Qed.

(** An entry whose attempt was rejected is in what the drain leaves. *)
Lemma requeued_elem queue attempts i operation ev :
  queue !! i = Some operation -> attempts !! i = Some ev ->
  ev_rejected ev = true -> operation ∈ requeued queue attempts.
Proof.
  revert attempts i.
  induction queue as [|o queue IH]; intros [|e attempts] [|i]; try done;
    simpl; intros Hq Ha Hr; rewrite requeued_cons.
  - injection Hq as ->. injection Ha as ->. rewrite Hr. by left.
  - destruct (ev_rejected e); [right|]; eauto.
Qed.

Lemma requeued_all_rejected queue attempts :
  length attempts = length queue ->
  Forall (fun ev => ev_rejected ev = true) attempts ->
  requeued queue attempts = queue.
Proof.
  revert attempts.
  induction queue as [|o queue IH]; intros [|e attempts]; try done.
  simpl. intros [= Hlen] Hall. apply Forall_cons in Hall as [He Hall].
  rewrite requeued_cons, He. f_equal. eauto.
Qed.

Section WithClient.

Context {R : Type} {client : TutorApiClient R}.

Implicit Types (this : TutorEnrollmentSync) (w : World R).

Lemma calls_runOperation this operation w :
  apiClient this = true ->
  calls (snd (runOperation this operation w))
  = calls w ++ [mkEvent (callOf this operation)
                  (is_rejected (fst (runOperation this operation w)))].
Proof.
  unfold runOperation. intros ->.
  destruct operation; simpl; unfold invoke.
  - by destruct (enrollInCourse courseId (userId this) (remote w)) as [[?|?] ?].
  - by destruct (Api.markLessonCompleted lessonId courseId (userId this)
                   (remote w)) as [[?|?] ?].
Qed.

(** The loop attempts every captured entry once, in order, and appends the
    rejected ones to the live queue. *)
Lemma replay_attempts this queue live w :
  apiClient this = true ->
  exists attempts,
    calls (snd (replay this queue live w)) = calls w ++ attempts
    /\ ev_call <$> attempts = callOf this <$> queue
    /\ fst (replay this queue live w) = live ++ requeued queue attempts.
Proof.
  intros Hc. revert live w.
  induction queue as [|operation rest IH]; intros live w; simpl.
  - exists []. by rewrite !app_nil_r.
  - pose proof (calls_runOperation this operation w Hc) as Hcalls.
    destruct (runOperation this operation w) as [out w1]. simpl in Hcalls.
    destruct out as [[]|reason]; simpl in Hcalls.
    + destruct (IH live w1) as (attempts & Ha & Hb & Hq).
      exists (mkEvent (callOf this operation) false :: attempts).
      split; [by rewrite Ha, Hcalls, <- app_assoc|].
      split; [by rewrite !fmap_cons, Hb|].
      by rewrite Hq, requeued_cons.
    + destruct (IH (live ++ [operation]) w1) as (attempts & Ha & Hb & Hq).
      exists (mkEvent (callOf this operation) true :: attempts).
      split; [by rewrite Ha, Hcalls, <- app_assoc|].
      split; [by rewrite !fmap_cons, Hb|].
      by rewrite Hq, requeued_cons, <- app_assoc.
Qed.

Lemma replay_snoc this queue operation live w :
  replay this (queue ++ [operation]) live w
  = let drained := replay this queue live w in
    let attempt := runOperation this operation (snd drained) in
    (if is_rejected (fst attempt) then fst drained ++ [operation]
     else fst drained,
     snd attempt).
Proof.
  revert live w. induction queue as [|o rest IH]; intros live w; simpl.
  - by destruct (runOperation this operation w) as [[[]|?] ?].
  - destruct (runOperation this o w) as [[[]|?] ?]; apply IH.
Qed.

End WithClient.

End QueueFacts.

Module SyncSpec.

Import Api Sync Inv Examples.
Import LocalFacts StoreInvariants SyncFacts QueueFacts.

Section WithClient.

Context {R : Type} {client : TutorApiClient R}.

Implicit Types (this : TutorEnrollmentSync) (w : World R).

(** *** Merge precedence *)

(** C1, as the code has it.  When the remote [getCourseProgress] call
    succeeds with body [serverProgress], the record returned has
    [completedLessons] equal to the remote list whenever the body carries
    one (an empty list too), else to the local list, else to [[]] when no
    local record exists; likewise for quizzes and assignments.  Its
    [overallProgress] is the remote value when that is present and nonzero,
    else the local one, else [0].  When a local record exists the merged
    record, with a fresh [lastAccessed], replaces it in the store. *)
Theorem merge_precedence this w c now resp r' serverProgress :
  remoteCapable this = true ->
  Api.getCourseProgress c (userId this) (remote w) = (Resolved resp, r') ->
  success resp = true ->
  data resp = Some serverProgress ->
  let localProgress := Local.getCourseProgress (storage w) c (userId this) in
  let result := Sync.getCourseProgress this w c now in
  exists merged,
    fst result = Some merged
    /\ Local.completedLessons merged
       = match sp_completedLessons serverProgress, localProgress with
         | Some remoteList, _ => remoteList
         | None, Some l => Local.completedLessons l
         | None, None => []
         end
    /\ Local.completedQuizzes merged
       = match sp_completedQuizzes serverProgress, localProgress with
         | Some remoteList, _ => remoteList
         | None, Some l => Local.completedQuizzes l
         | None, None => []
         end
    /\ Local.completedAssignments merged
       = match sp_completedAssignments serverProgress, localProgress with
         | Some remoteList, _ => remoteList
         | None, Some l => Local.completedAssignments l
         | None, None => []
         end
    /\ Local.overallProgress merged
       = (let fallback :=
            match localProgress with
            | Some l => Local.overallProgress l
            | None => 0
            end in
          match sp_overallProgress serverProgress with
          | Some n => if n =? 0 then fallback else n
          | None => fallback
          end)
    /\ (is_Some localProgress ->
        Local.getCourseProgress (storage (snd result)) c (userId this)
        = Some (Local.mkCourseProgress
                  (Local.courseId merged) (Local.userId merged)
                  (Local.completedLessons merged)
                  (Local.completedQuizzes merged)
                  (Local.completedAssignments merged)
                  (Local.overallProgress merged)
                  now
                  (Local.startDate merged)
                  (Local.completionDate merged))).
Proof.
  intros Hcap Hcall Hs Hd localProgress result.
  subst result. unfold Sync.getCourseProgress.
  rewrite Hcap. unfold invoke. rewrite Hcall, Hd, Hs. simpl.
  fold localProgress.
  eexists. split; [done|]. simpl.
  split; [by destruct (sp_completedLessons serverProgress), localProgress|].
  split; [by destruct (sp_completedQuizzes serverProgress), localProgress|].
  split; [by destruct (sp_completedAssignments serverProgress), localProgress|].
  split.
  - unfold or_num, truthy_num.
    destruct (sp_overallProgress serverProgress) as [n|], localProgress;
      simpl; try done; by destruct (n =? 0).
  - intros [l Hl]. subst localProgress. rewrite Hl.
    erewrite getCourseProgress_updateCourseProgress_matching; try done.
    + by eapply getCourseProgress_window.
    + unfold Local.course_matches. simpl.
      by rewrite Z.eqb_refl, user_matches_refl.
Qed.

(** *** Offline queuing *)

(** C2.  When the coordinator is offline, or has no client, or no user id,
    [enrollInFreeCourse c] returns [true], appends exactly one retry entry
    to the queue and makes no remote call.  When connectivity then returns
    (the coordinator holding a client), the drain replays the entries
    queued before it and then this entry, calling the remote
    [enrollInCourse c] for it exactly once; if that call is not rejected
    the entry is gone from the queue, which holds only the earlier entries
    that failed. *)
Theorem offline_enroll_queued_once this w c now :
  remoteCapable this = false ->
  let enrolled := Sync.enrollInFreeCourse this w c now in
  let this1 := snd (fst enrolled) in
  let w1 := snd enrolled in
  fst (fst enrolled) = true
  /\ syncQueue this1 = syncQueue this ++ [RetryEnroll c]
  /\ calls w1 = calls w
  /\ remote w1 = remote w
  /\ (apiClient this = true ->
      let online := setOnline this1 true in
      let earlier := replay online (syncQueue this) [] w1 in
      let attempt := runOperation online (RetryEnroll c) (snd earlier) in
      let drained := onOnline this1 w1 in
      calls (snd drained)
      = calls (snd earlier)
          ++ [mkEvent (CallEnrollInCourse c (userId this))
                (is_rejected (fst attempt))]
      /\ (is_rejected (fst attempt) = false ->
          syncQueue (fst drained) = fst earlier)
      /\ (is_rejected (fst attempt) = true ->
          syncQueue (fst drained) = fst earlier ++ [RetryEnroll c])).
Proof.
  intros Hcap enrolled this1 w1.
  assert (enrolled
          = (true, addToSyncQueue this (RetryEnroll c),
             setStorage w
               (snd (Local.enrollInFreeCourse (storage w) c (userId this) now))))
    as Henrolled.
  { subst enrolled. unfold Sync.enrollInFreeCourse. rewrite Hcap.
    pose proof (enrollInFreeCourse_true (storage w) c (userId this) now) as Ht.
    destruct (Local.enrollInFreeCourse (storage w) c (userId this) now)
      as [localSuccess st1].
    simpl in Ht. by subst localSuccess. }
  subst this1 w1. rewrite Henrolled. simpl.
  do 4 (split; [done|]).
  intros Hclient.
  set (this1 := addToSyncQueue this (RetryEnroll c)).
  set (w1 := setStorage w _).
  set (online := setOnline this1 true).
  set (earlier := replay online (syncQueue this) [] w1).
  set (attempt := runOperation online (RetryEnroll c) (snd earlier)).
  assert (onOnline this1 w1
          = (setQueue online
               (if is_rejected (fst attempt)
                then fst earlier ++ [RetryEnroll c] else fst earlier),
             snd attempt)) as ->.
  { unfold onOnline, processSyncQueue. simpl.
    rewrite Hclient. simpl. fold online. by rewrite replay_snoc. }
  simpl. split; [|split; by intros ->].
  subst attempt. by rewrite calls_runOperation.
Qed.

(** *** Retry resilience *)

(** C3.  A drain does nothing while offline or without a client.
    Otherwise it attempts every entry of the snapshot exactly once and in
    order, and the queue it leaves holds exactly the entries whose attempt
    was rejected, in order: a rejected entry is still queued after the
    drain, rejections do not stop later entries from being attempted, and a
    drain in which every attempt is rejected leaves the queue as it was. *)
Theorem drain_requeues_failures this w :
  let this' := fst (processSyncQueue this w) in
  let w' := snd (processSyncQueue this w) in
  (isOnline this && apiClient this = false -> this' = this /\ w' = w)
  /\ (isOnline this && apiClient this = true ->
      exists attempts,
        calls w' = calls w ++ attempts
        /\ ev_call <$> attempts = callOf this <$> syncQueue this
        /\ syncQueue this' = requeued (syncQueue this) attempts
        /\ (forall i operation ev,
              syncQueue this !! i = Some operation ->
              attempts !! i = Some ev ->
              ev_rejected ev = true ->
              operation ∈ syncQueue this')
        /\ (Forall (fun ev => ev_rejected ev = true) attempts ->
            syncQueue this' = syncQueue this)).
Proof.
  intros this' w'. subst this' w'. unfold processSyncQueue. split.
  - intros Hoff.
    destruct (isOnline this), (apiClient this); simpl in *; done.
  - intros Hon. apply andb_true_iff in Hon as [Ho Hc].
    rewrite Ho, Hc. simpl.
    destruct (replay_attempts this (syncQueue this) [] w Hc)
      as (attempts & Ha & Hb & Hq).
    destruct (replay this (syncQueue this) [] w) as [live w2].
    simpl in *. subst live. exists attempts.
    split; [done|]. split; [done|]. split; [done|]. split.
    + intros i operation ev. apply requeued_elem.
    + apply requeued_all_rejected.
      by rewrite <- (length_fmap ev_call), Hb, length_fmap.
Qed.

(** *** Explicit synchronisation *)

(** [syncToServer] reports the length of the queue after the drain: the
    number of entries that failed again. *)
Lemma syncToServer_reports_queue_length this w :
  remoteCapable this = true ->
  let result := syncToServer this w in
  r_success (fst (fst result)) = true
  /\ synced_enrollments (fst (fst result))
     = length (syncQueue (snd (fst result)))
  /\ snd (fst result) = fst (processSyncQueue this w)
  /\ snd result = snd (processSyncQueue this w).
Proof.
  intros Hcap. unfold syncToServer. rewrite Hcap. simpl.
  by destruct (processSyncQueue this w).
Qed.

(** Both explicit synchronisations fail closed, touching nothing, when the
    coordinator is offline or has no client or no user id. *)
Lemma sync_fails_closed this w :
  remoteCapable this = false ->
  syncToServer this w = (failed noConnection, this, w)
  /\ syncFromServer this w = (failed noConnection, w)
  /\ r_success (failed noConnection) = false
  /\ r_error (failed noConnection)
     = Some "No server connection or authentication"%string.
Proof.
  intros Hcap. unfold syncToServer, syncFromServer. by rewrite Hcap.
Qed.

End WithClient.

(** C1, as stated, fails: an empty list sent by the remote wins over the
    local list.  Locally lesson 3 is completed; the remote body carries
    [completedLessons = []]; the merged record has no completed lesson. *)
Lemma merge_prefers_empty_remote_list :
  let w := mkWorld oneLessonDone Scripted.accepting [] in
  let result :=
    Sync.getCourseProgress (client := Scripted.client (Some bodyEmpty) None)
      capable w 1 "t2" in
  sp_completedLessons bodyEmpty = Some []
  /\ (Local.completedLessons
        <$> Local.getCourseProgress (storage w) 1 (Some 7)) = Some [3]
  /\ (Local.completedLessons <$> fst result) = Some []
  /\ (Local.completedLessons
        <$> Local.getCourseProgress (storage (snd result)) 1 (Some 7)) = Some [].
Proof. vm_compute. done. Qed.

Lemma merge_precedence_witness :
  (Local.completedLessons
     <$> fst (Sync.getCourseProgress
                (client := Scripted.client (Some body40) None)
                capable (mkWorld oneLessonDone Scripted.accepting []) 1 "t2"))
  = Some [1; 2; 3].
Proof.
  destruct (merge_precedence (client := Scripted.client (Some body40) None)
              capable (mkWorld oneLessonDone Scripted.accepting []) 1 "t2"
              (mkResponse true (Some body40) None 200) Scripted.accepting
              body40 eq_refl eq_refl eq_refl eq_refl)
    as (merged & Hm & Hl & _).
  rewrite Hm. simpl. rewrite Hl. reflexivity.
Defined.

Lemma offline_enroll_queued_once_witness :
  let enrolled :=
    Sync.enrollInFreeCourse (client := Scripted.client None None) offline
      (mkWorld (Local.emptyStorage true) Scripted.accepting []) 42 "t0" in
  let drained :=
    onOnline (client := Scripted.client None None)
      (snd (fst enrolled)) (snd enrolled) in
  remoteCapable offline = false
  /\ fst (fst enrolled) = true
  /\ syncQueue (snd (fst enrolled)) = [RetryEnroll 42]
  /\ syncQueue (fst drained) = []
  /\ calls (snd drained) = [mkEvent (CallEnrollInCourse 42 (Some 7)) false].
Proof.
  destruct (offline_enroll_queued_once (client := Scripted.client None None)
              offline (mkWorld (Local.emptyStorage true) Scripted.accepting [])
              42 "t0" eq_refl)
    as (Hr & Hq & _ & _ & Hdrain).
  destruct (Hdrain eq_refl) as (Hcalls & Hgone & _).
  split; [reflexivity|]. split; [exact Hr|]. split; [exact Hq|].
  split; [exact (Hgone eq_refl)|exact Hcalls].
Defined.

Lemma drain_requeues_failures_witness :
  let this := mkSync true (Some 7) true [RetryEnroll 42; RetryLesson 3 1] in
  let w := mkWorld (Local.emptyStorage true) Scripted.rejecting [] in
  syncQueue (fst (processSyncQueue (client := Scripted.client None None) this w))
  = [RetryEnroll 42; RetryLesson 3 1].
Proof.
  intros this w.
  destruct (drain_requeues_failures (client := Scripted.client None None) this w)
    as (_ & Hon).
  destruct (Hon eq_refl) as (attempts & Hcalls & _ & _ & _ & Hall).
  apply Hall. vm_compute in Hcalls. subst attempts. repeat constructor.
Defined.

(** C7 at a failing input: one entry is queued and the remote accepts it.
    The drain processes that one entry (one remote call, queue emptied),
    and [syncToServer] reports [synced.enrollments = 0]. *)
Lemma syncToServer_reports_zero_after_success :
  let this := mkSync true (Some 5) true [RetryEnroll 7] in
  let w := mkWorld (Local.emptyStorage true) Scripted.accepting [] in
  let result := syncToServer (client := Scripted.client None None) this w in
  r_success (fst (fst result)) = true
  /\ calls (snd result) = [mkEvent (CallEnrollInCourse 7 (Some 5)) false]
  /\ syncQueue (snd (fst result)) = []
  /\ synced_enrollments (fst (fst result)) = 0%nat.
Proof. vm_compute. done. Qed.

(** The opposite input: two entries are queued and the remote rejects both.
    Nothing was synchronised, and [syncToServer] reports success with
    [synced.enrollments = 2]. *)
Example syncToServer_reports_failures_as_synced :
  let this := mkSync true (Some 5) true [RetryEnroll 7; RetryLesson 3 7] in
  let w := mkWorld (Local.emptyStorage true) Scripted.rejecting [] in
  let result := syncToServer (client := Scripted.client None None) this w in
  r_success (fst (fst result)) = true
  /\ syncQueue (snd (fst result)) = [RetryEnroll 7; RetryLesson 3 7]
  /\ synced_enrollments (fst (fst result)) = 2%nat.
Proof. vm_compute. done. Qed.

End SyncSpec.

(** * Further properties of the store *)

Module StoreExtras.

Import Local LocalMore LocalFacts StoreInvariants LessonInvariants Inv.

(** *** Lists *)

Lemma elem_of_fmap_filter_existsb {A : Type} (key : A -> Z) (p : A -> bool)
    (l : list A) (c : Z) :
  c ∈ key <$> List.filter p l
  <-> existsb (fun e => (key e =? c) && p e) l = true.
Proof.
  induction l as [|z l IH]; simpl.
  - split; [intros H; by apply elem_of_nil in H|done].
  - rewrite orb_true_iff, <- IH. destruct (p z); simpl.
    + rewrite elem_of_cons, andb_true_r, Z.eqb_eq.
      split; (intros [?|?]; [left|right]); done.
    + rewrite andb_false_r. split; [by right|]. by intros [?|?].
Qed.

Lemma existsb_filter_excluded {A : Type} (f g : A -> bool) (l : list A) :
  (forall x, g x = true -> f x = true) ->
  existsb g (List.filter (fun x => negb (f x)) l) = false.
Proof.
  intros Hgf. induction l as [|z l IH]; simpl; [done|].
  destruct (f z) eqn:Fz; simpl; [done|]. rewrite IH, orb_false_r.
  destruct (g z) eqn:Gz; [|done]. apply Hgf in Gz. congruence.
Qed.

Lemma find_filter_excluded {A : Type} (f g : A -> bool) (l : list A) :
  (forall x, g x = true -> f x = true) ->
  find g (List.filter (fun x => negb (f x)) l) = None.
Proof.
  intros Hgf. induction l as [|z l IH]; simpl; [done|].
  destruct (f z) eqn:Fz; simpl; [done|]. rewrite IH.
  destruct (g z) eqn:Gz; [|done]. apply Hgf in Gz. congruence.
Qed.

Lemma existsb_filter_kept {A : Type} (f g : A -> bool) (l : list A) :
  (forall x, g x = true -> f x = false) ->
  existsb g (List.filter (fun x => negb (f x)) l) = existsb g l.
Proof.
  intros Hgf. induction l as [|z l IH]; simpl; [done|].
  destruct (f z) eqn:Fz; simpl; rewrite IH; [|done].
  destruct (g z) eqn:Gz; [|done]. apply Hgf in Gz. congruence.
Qed.

Lemma find_filter_kept {A : Type} (f g : A -> bool) (l : list A) :
  (forall x, g x = true -> f x = false) ->
  find g (List.filter (fun x => negb (f x)) l) = find g l.
Proof.
  intros Hgf. induction l as [|z l IH]; simpl; [done|].
  destruct (f z) eqn:Fz; simpl; rewrite IH; [|done].
  destruct (g z) eqn:Gz; [|done]. apply Hgf in Gz. congruence.
Qed.

Lemma filter_neg_fresh {A : Type} (f : A -> bool) (l : list A) (x : A) :
  existsb f l = false -> f x = true ->
  List.filter (fun y => negb (f y)) (l ++ [x]) = l.
Proof.
  intros Hl Hx. induction l as [|z l IH]; simpl in *.
  - by rewrite Hx.
  - apply orb_false_iff in Hl as [-> Hl]. simpl. by rewrite IH.
Qed.

Lemma find_None_existsb {A : Type} (f : A -> bool) (l : list A) :
  find f l = None -> existsb f l = false.
Proof. rewrite existsb_find. by intros ->. Qed.

(** *** Reading the stored lists after an unenrollment *)

Lemma getEnrollments_unenroll st c u :
  getEnrollments (snd (unenrollFromCourse st c u))
  = List.filter (fun e => negb (enrollment_matches c u e)) (getEnrollments st).
Proof. unfold unenrollFromCourse, getEnrollments. by storage_cases st. Qed.

Lemma getCourseProgressData_unenroll st c u :
  getCourseProgressData (snd (unenrollFromCourse st c u))
  = List.filter (fun p => negb (course_matches c u p)) (getCourseProgressData st).
Proof.
  unfold unenrollFromCourse, removeCourseProgress, getCourseProgressData.
  by storage_cases st.
Qed.

Lemma matches_same_course c u u' e :
  truthy_id u = false ->
  enrollment_matches c u' e = true -> enrollment_matches c u e = true.
Proof.
  unfold enrollment_matches. intros Hu H.
  apply andb_true_iff in H as [-> _]. by rewrite user_matches_falsy.
Qed.

Lemma course_matches_same_course c u u' p :
  truthy_id u = false ->
  course_matches c u' p = true -> course_matches c u p = true.
Proof.
  unfold course_matches. intros Hu H.
  apply andb_true_iff in H as [-> _]. by rewrite user_matches_falsy.
Qed.

(** X1.  The list of enrolled courses and the enrollment test agree: a
    course id is listed for a user exactly when [isEnrolledInCourse] says
    the user is enrolled in it. *)
Theorem getEnrolledCourses_enrolled st c u :
  c ∈ getEnrolledCourses st u <-> isEnrolledInCourse st c u = true.
Proof.
  unfold getEnrolledCourses, isEnrolledInCourse.
  by rewrite elem_of_fmap_filter_existsb.
Qed.

(** X2.  [unenrollFromCourse] always returns [true]; afterwards the pair is
    not enrolled, has no course record and computes 0 percent.  Lesson
    records are not removed: a lesson completed before still reads as
    completed. *)
Theorem unenroll_effect st c u :
  let st' := snd (unenrollFromCourse st c u) in
  fst (unenrollFromCourse st c u) = true
  /\ isEnrolledInCourse st' c u = false
  /\ getCourseProgress st' c u = None
  /\ calculateOverallProgress st' c u = 0
  /\ tutor_lesson_progress st' = tutor_lesson_progress st
  /\ (forall l, isLessonCompleted st' l c u = isLessonCompleted st l c u).
Proof.
  intros st'.
  assert (getCourseProgress st' c u = None) as Hnone.
  { unfold getCourseProgress. subst st'. rewrite getCourseProgressData_unenroll.
    by apply find_filter_excluded. }
  assert (tutor_lesson_progress st' = tutor_lesson_progress st
          /\ window_defined st' = window_defined st) as [Hl Hw].
  { subst st'. unfold unenrollFromCourse, removeCourseProgress.
    by storage_cases st. }
  split; [done|]. split.
  { unfold isEnrolledInCourse. subst st'. rewrite getEnrollments_unenroll.
    by apply existsb_filter_excluded. }
  split; [done|]. split; [unfold calculateOverallProgress; by rewrite Hnone|].
  split; [done|]. intros l.
  unfold isLessonCompleted, getLessonProgress, getLessonProgressData.
  by rewrite Hl, Hw.
Qed.

(** X3.  How far an unenrollment reaches.  Without a user id (or with 0)
    it removes the course for every user.  It never touches another
    course.  With a nonzero user id it leaves the other nonzero users of
    the same course as they were. *)
Theorem unenroll_scope st c u :
  let st' := snd (unenrollFromCourse st c u) in
  (truthy_id u = false ->
   forall u', isEnrolledInCourse st' c u' = false
              /\ getCourseProgress st' c u' = None)
  /\ (forall c' u', c' <> c ->
        isEnrolledInCourse st' c' u' = isEnrolledInCourse st c' u'
        /\ getCourseProgress st' c' u' = getCourseProgress st c' u')
  /\ (forall n m, u = Some n -> n <> 0 -> m <> 0 -> m <> n ->
        isEnrolledInCourse st' c (Some m) = isEnrolledInCourse st c (Some m)
        /\ getCourseProgress st' c (Some m) = getCourseProgress st c (Some m)).
Proof.
  intros st'. subst st'.
  unfold isEnrolledInCourse, getCourseProgress.
  rewrite getEnrollments_unenroll, getCourseProgressData_unenroll.
  split; [|split].
  - intros Hu u'. split.
    + apply existsb_filter_excluded. intros e. by apply matches_same_course.
    + apply find_filter_excluded. intros p. by apply course_matches_same_course.
  - intros c' u' Hc. split.
    + apply existsb_filter_kept. intros e He.
      unfold enrollment_matches in *. apply andb_true_iff in He as [He _].
      apply Z.eqb_eq in He. rewrite He.
      destruct (Z.eqb_spec c' c); [done|]. done.
    + apply find_filter_kept. intros p Hp.
      unfold course_matches in *. apply andb_true_iff in Hp as [Hp _].
      apply Z.eqb_eq in Hp. rewrite Hp.
      destruct (Z.eqb_spec c' c); [done|]. done.
  - intros n m -> Hn Hm Hmn. split.
    + apply existsb_filter_kept. intros e He.
      unfold enrollment_matches in *. apply andb_true_iff in He as [_ He].
      rewrite user_matches_nonzero in * by done.
      apply bool_decide_eq_true in He. rewrite He.
      rewrite bool_decide_eq_false_2; [apply andb_false_r|congruence].
    + apply find_filter_kept. intros p Hp.
      unfold course_matches in *. apply andb_true_iff in Hp as [_ Hp].
      rewrite user_matches_nonzero in * by done.
      apply bool_decide_eq_true in Hp. rewrite Hp.
      rewrite bool_decide_eq_false_2; [apply andb_false_r|congruence].
Qed.

(** X4.  Enrolling and then unenrolling is a round trip: on an available
    store where the pair is neither enrolled nor has a course record, the
    two calls give back the store they started from. *)
Theorem enroll_unenroll_roundtrip st c u now :
  window_defined st = true ->
  isEnrolledInCourse st c u = false ->
  getCourseProgress st c u = None ->
  snd (unenrollFromCourse (snd (enrollInFreeCourse st c u now)) c u) = st.
Proof.
  intros Hw He Hp. unfold enrollInFreeCourse. rewrite He. simpl.
  unfold isEnrolledInCourse, getCourseProgress in *.
  unfold initializeCourseProgress, unenrollFromCourse, removeCourseProgress,
    getEnrollments, getCourseProgressData in *.
  destruct st as [wd es ps ls]. simpl in *. subst wd. simpl.
  rewrite Hp. simpl.
  rewrite (filter_neg_fresh (enrollment_matches c u)); try done.
  - rewrite (filter_neg_fresh (course_matches c u)); try done.
    + by apply find_None_existsb.
    + unfold course_matches. simpl.
      by rewrite Z.eqb_refl, user_matches_refl.
  - by apply enrollment_matches_key.
Qed.

Lemma enroll_unenroll_roundtrip_witness :
  snd (unenrollFromCourse
         (snd (enrollInFreeCourse Examples.oneLessonDone 2 (Some 7) "t5"))
         2 (Some 7))
  = Examples.oneLessonDone.
Proof.
  apply (enroll_unenroll_roundtrip Examples.oneLessonDone 2 (Some 7) "t5");
    reflexivity.
Defined.

(** X5.  A first enrollment on an available store makes the pair enrolled
    and listed, and leaves a course record for it: the record that already
    matched, or else a new one with nothing completed, 0 percent and start
    date [now]. *)
Theorem enroll_initializes st c u now :
  window_defined st = true ->
  isEnrolledInCourse st c u = false ->
  let st' := snd (enrollInFreeCourse st c u now) in
  isEnrolledInCourse st' c u = true
  /\ c ∈ getEnrolledCourses st' u
  /\ getCourseProgress st' c u
     = Some (match getCourseProgress st c u with
             | Some existing => existing
             | None => mkCourseProgress c u [] [] [] 0 now now None
             end).
Proof.
  intros Hw He st'.
  assert (isEnrolledInCourse st' c u = true) as Hen
    by (by apply enrolled_after_enroll).
  split; [done|].
  split; [unfold getEnrolledCourses; by apply elem_of_fmap_filter_existsb|].
  subst st'. unfold enrollInFreeCourse. rewrite He. simpl.
  unfold initializeCourseProgress, getCourseProgress, getCourseProgressData,
    getEnrollments.
  destruct st as [wd es ps ls]. simpl in *. subst wd. simpl.
  destruct (find (course_matches c u) ps) as [existing|] eqn:Hf; simpl.
  - done.
  - rewrite find_app_missing by done. simpl.
    unfold course_matches at 1. simpl.
    by rewrite Z.eqb_refl, user_matches_refl.
Qed.

Lemma enroll_initializes_witness :
  getCourseProgress
    (snd (enrollInFreeCourse (emptyStorage true) 4 (Some 7) "t0")) 4 (Some 7)
  = Some (mkCourseProgress 4 (Some 7) [] [] [] 0 "t0" "t0" None).
Proof.
  destruct (enroll_initializes (emptyStorage true) 4 (Some 7) "t0"
              eq_refl eq_refl) as (_ & _ & H).
  exact H.
Defined.

(** *** The percentage heuristic *)

Lemma percentage_formula (n : Z) :
  0 <= n ->
  Z.min (round_div (n * 100) (Z.max n 10)) 100
  = if n <? 10 then 10 * n else 100.
Proof.
  intros Hn. unfold round_div. destruct (Z.ltb_spec n 10).
  - rewrite Z.max_r by lia.
    replace (2 * (n * 100) + 10) with (10 + (10 * n) * (2 * 10)) by lia.
    rewrite Z.div_add by lia. rewrite Z.div_small by lia. lia.
  - rewrite Z.max_l by lia.
    replace (2 * (n * 100) + n) with (n + 100 * (2 * n)) by lia.
    rewrite Z.div_add by lia. rewrite Z.div_small by lia. lia.
Qed.

(** X6.  The derived percentage in closed form: with [n] completed items
    (lessons, quizzes and assignments together) it is [10 * n] while
    [n < 10] and [100] from ten items on, whatever the size of the course;
    it is [0] when no record matches.  So it reaches 100 exactly at ten
    completed items. *)
Theorem calculateOverallProgress_closed_form st c u :
  calculateOverallProgress st c u
  = match getCourseProgress st c u with
    | Some p => if itemsOf p <? 10 then 10 * itemsOf p else 100
    | None => 0
    end
  /\ (calculateOverallProgress st c u = 100
      <-> exists p, getCourseProgress st c u = Some p /\ 10 <= itemsOf p).
Proof.
  assert (calculateOverallProgress st c u
          = match getCourseProgress st c u with
            | Some p => if itemsOf p <? 10 then 10 * itemsOf p else 100
            | None => 0
            end) as Heq.
  { unfold calculateOverallProgress.
    destruct (getCourseProgress st c u) as [p|]; [|done].
    apply percentage_formula. unfold itemsOf. lia. }
  split; [done|]. rewrite Heq.
  destruct (getCourseProgress st c u) as [p|].
  - destruct (Z.ltb_spec (itemsOf p) 10); split.
    + lia.
    + intros (q & [= <-] & ?). lia.
    + intros _. by exists p.
    + done.
  - split; [done|]. by intros (q & ? & _).
Qed.

(** *** What [markLessonCompleted] writes to the course record *)

Lemma calculateOverallProgress_frame st st' c u :
  window_defined st' = window_defined st ->
  tutor_course_progress st' = tutor_course_progress st ->
  calculateOverallProgress st' c u = calculateOverallProgress st c u.
Proof.
  intros Hw Hc.
  unfold calculateOverallProgress, getCourseProgress, getCourseProgressData.
  by rewrite Hw, Hc.
Qed.

Lemma markLessonCompleted_course_record st l c u now cp :
  getCourseProgress st c u = Some cp ->
  getCourseProgress (markLessonCompleted st l c u now) c u
  = Some (mkCourseProgress (courseId cp) (userId cp)
            (if includes (completedLessons cp) l
             then completedLessons cp
             else completedLessons cp ++ [l])
            (completedQuizzes cp) (completedAssignments cp)
            (calculateOverallProgress st c u)
            now (startDate cp) (completionDate cp)).
Proof.
  intros Hcp. pose proof (getCourseProgress_window _ _ _ _ Hcp) as Hw.
  unfold markLessonCompleted.
  set (st1 := setLessonProgressData st _).
  assert (window_defined st1 = window_defined st) as Hw1
    by apply window_setLessonProgressData.
  assert (tutor_course_progress st1 = tutor_course_progress st) as Hc1
    by apply courses_setLessonProgressData.
  assert (getCourseProgress st1 c u = Some cp) as Hcp1.
  { unfold getCourseProgress, getCourseProgressData in *.
    by rewrite Hw1, Hc1. }
  rewrite Hcp1.
  rewrite (getCourseProgress_updateCourseProgress _ _ _ _ _ cp);
    try done; [|congruence].
  unfold applyCoursePatch. simpl.
  by rewrite (calculateOverallProgress_frame st st1).
Qed.

Lemma includes_elem (l : list Z) (x : Z) : includes l x = true <-> x ∈ l.
Proof.
  unfold includes. induction l as [|z l IH]; simpl.
  - split; [done|]. intros H. by apply elem_of_nil in H.
  - rewrite orb_true_iff, IH, elem_of_cons, Z.eqb_eq. done.
Qed.

Lemma includes_snoc (l : list Z) (x : Z) : includes (l ++ [x]) x = true.
Proof.
  apply includes_elem, elem_of_app. right. by apply list_elem_of_singleton.
Qed.

(** X7.  Completion never duplicates a lesson id.  When a course record
    matches, [markLessonCompleted] leaves the lesson in its
    [completedLessons], keeps the list free of duplicates if it was, and a
    second call for the same lesson leaves the list as the first one
    made it. *)
Theorem markLessonCompleted_no_duplicates st l c u now now' cp :
  getCourseProgress st c u = Some cp ->
  NoDup (completedLessons cp) ->
  let st1 := markLessonCompleted st l c u now in
  let st2 := markLessonCompleted st1 l c u now' in
  exists cp1 cp2,
    getCourseProgress st1 c u = Some cp1
    /\ getCourseProgress st2 c u = Some cp2
    /\ l ∈ completedLessons cp1
    /\ NoDup (completedLessons cp1)
    /\ completedLessons cp2 = completedLessons cp1.
Proof.
  intros Hcp Hnd st1 st2.
  pose proof (markLessonCompleted_course_record st l c u now cp Hcp) as H1.
  fold st1 in H1.
  pose proof (markLessonCompleted_course_record st1 l c u now' _ H1) as H2.
  fold st2 in H2.
  eexists _, _. split; [exact H1|]. split; [exact H2|]. simpl.
  destruct (includes (completedLessons cp) l) eqn:Hin.
  - rewrite Hin. split; [by apply includes_elem|done].
  - rewrite includes_snoc. split; [apply includes_elem, includes_snoc|].
    split; [|done]. apply NoDup_app. split; [done|]. split.
    + intros x Hx Hx'. apply list_elem_of_singleton in Hx'. subst x.
      apply includes_elem in Hx. congruence.
    + apply NoDup_singleton.
Qed.

Lemma markLessonCompleted_no_duplicates_witness :
  (completedLessons
     <$> getCourseProgress
           (markLessonCompleted Examples.oneLessonDone 3 1 (Some 7) "t2")
           1 (Some 7))
  = Some [3].
Proof.
  destruct (markLessonCompleted_no_duplicates
              (snd (enrollInFreeCourse (emptyStorage true) 1 (Some 7) "t0"))
              3 1 (Some 7) "t1" "t2"
              (mkCourseProgress 1 (Some 7) [] [] [] 0 "t0" "t0" None)
              eq_refl NoDup_nil_2)
    as (cp1 & cp2 & H1 & H2 & _ & _ & Heq).
  change (markLessonCompleted Examples.oneLessonDone 3 1 (Some 7) "t2")
    with (markLessonCompleted
            (markLessonCompleted
               (snd (enrollInFreeCourse (emptyStorage true) 1 (Some 7) "t0"))
               3 1 (Some 7) "t1") 3 1 (Some 7) "t2").
  rewrite H2. simpl. rewrite Heq.
  vm_compute in H1. injection H1 as <-. reflexivity.
Defined.

(** X8.  The percentage [markLessonCompleted] stores is the one derived
    from the record before the lesson is added.  So after completing a
    lesson that was not completed before, with fewer than ten items done,
    the stored [overallProgress] is 10 points below what
    [calculateOverallProgress] then derives. *)
Theorem markLessonCompleted_percentage_lags st l c u now cp :
  getCourseProgress st c u = Some cp ->
  let st' := markLessonCompleted st l c u now in
  exists cp',
    getCourseProgress st' c u = Some cp'
    /\ overallProgress cp' = calculateOverallProgress st c u
    /\ (includes (completedLessons cp) l = false -> itemsOf cp < 10 ->
        overallProgress cp' = 10 * itemsOf cp
        /\ calculateOverallProgress st' c u = overallProgress cp' + 10).
Proof.
  intros Hcp st'.
  pose proof (markLessonCompleted_course_record st l c u now cp Hcp) as H1.
  fold st' in H1. eexists. split; [exact H1|]. simpl. split; [done|].
  intros Hin Hlt.
  assert (calculateOverallProgress st c u = 10 * itemsOf cp) as Hold.
  { unfold calculateOverallProgress. rewrite Hcp. fold (itemsOf cp).
    rewrite percentage_formula by (unfold itemsOf; lia).
    destruct (Z.ltb_spec (itemsOf cp) 10); lia. }
  split; [done|]. rewrite Hold.
  unfold calculateOverallProgress. rewrite H1. simpl. rewrite Hin.
  rewrite length_app. simpl.
  set (m := Z.of_nat _).
  assert (m = itemsOf cp + 1) as -> by (unfold m, itemsOf; lia).
  rewrite percentage_formula by (unfold itemsOf; lia).
  destruct (Z.ltb_spec (itemsOf cp + 1) 10); lia.
Qed.

Lemma markLessonCompleted_percentage_lags_witness :
  (overallProgress
     <$> getCourseProgress Examples.oneLessonDone 1 (Some 7)) = Some 0
  /\ calculateOverallProgress Examples.oneLessonDone 1 (Some 7) = 10.
Proof.
  destruct (markLessonCompleted_percentage_lags
              (snd (enrollInFreeCourse (emptyStorage true) 1 (Some 7) "t0"))
              3 1 (Some 7) "t1"
              (mkCourseProgress 1 (Some 7) [] [] [] 0 "t0" "t0" None)
              eq_refl)
    as (cp' & H1 & _ & Hlag).
  destruct (Hlag eq_refl ltac:(reflexivity)) as [Hstored Hderived].
  unfold Examples.oneLessonDone. split.
  - rewrite H1. simpl. rewrite Hstored. reflexivity.
  - rewrite Hderived, Hstored. reflexivity.
Defined.

End StoreExtras.

(** * Further properties: lesson records, export, navigation *)

Module LessonExtras.

Import Api Sync Run Invariants.
Import Local LocalMore LocalFacts StoreInvariants LessonInvariants Inv.

Lemma lesson_matches_newLessonFromPatch l c u p now :
  v_lessonId p = None -> v_courseId p = None -> v_userId p = None ->
  lesson_matches l c u (newLessonFromPatch l c u p now) = true.
Proof.
  unfold lesson_matches. simpl. intros -> -> ->. simpl.
  by rewrite !Z.eqb_refl, user_matches_refl.
Qed.

(** X9.  Lookup after update.  On an available store, after
    [updateLessonProgress l c patch u] with a patch that leaves the key
    fields alone, [getLessonProgress l c u] finds the record the call
    wrote: the fields the patch sets carry its values, the others keep
    their old values (or the defaults 0 / false / absent for a new
    record), [completedAt] included, and the key fields are those of the
    record found (or [l], [c] and [u] for a new record).  [accessedAt] is
    [now] when the record existed; for a new record the patch's own
    [accessedAt], when given, wins over [now]. *)
Theorem updateLessonProgress_lookup st l c p u now :
  window_defined st = true ->
  v_lessonId p = None -> v_courseId p = None -> v_userId p = None ->
  let before := getLessonProgress st l c u in
  let st' := updateLessonProgress st l c p u now in
  exists r,
    getLessonProgress st' l c u = Some r
    /\ timeSpent r = default (from_option timeSpent 0 before) (v_timeSpent p)
    /\ lastPosition r
       = default (before ≫= lastPosition) (v_lastPosition p)
    /\ isCompleted r
       = default (from_option isCompleted false before) (v_isCompleted p)
    /\ progressPercentage r
       = default (from_option progressPercentage 0 before)
           (v_progressPercentage p)
    /\ accessedAt r
       = match before with
         | Some _ => now
         | None => default now (v_accessedAt p)
         end
    /\ completedAt r = default (before ≫= completedAt) (v_completedAt p)
    /\ lessonId r = l
    /\ l_courseId r = c
    /\ l_userId r = from_option l_userId u before.
Proof.
  intros Hw Hl Hc Hu before st'. subst before st'.
  unfold getLessonProgress, updateLessonProgress, getLessonProgressData.
  rewrite Hw.
  destruct (findIndex (lesson_matches l c u) (tutor_lesson_progress st))
    as [i|] eqn:Hi.
  - destruct (findIndex_Some _ _ _ Hi) as (old & Hlk & Hm & Hf).
    rewrite Hlk, Hf, window_setLessonProgressData, Hw.
    rewrite lessons_setLessonProgressData by done.
    exists (applyLessonPatch old p now). split.
    { apply find_insert_found; [done|].
      by rewrite lesson_matches_applyLessonPatch. }
    unfold lesson_matches in Hm.
    apply andb_true_iff in Hm as [Hm _].
    apply andb_true_iff in Hm as [Hml Hmc].
    apply Z.eqb_eq in Hml, Hmc.
    simpl. rewrite Hl, Hc, Hu. simpl. done.
  - apply findIndex_None in Hi. rewrite Hi.
    rewrite window_setLessonProgressData, Hw.
    rewrite lessons_setLessonProgressData by done.
    exists (newLessonFromPatch l c u p now). split.
    { rewrite find_app_missing by done. simpl.
      by rewrite lesson_matches_newLessonFromPatch. }
    simpl. rewrite Hl, Hc, Hu. simpl. done.
Qed.

Lemma updateLessonProgress_lookup_witness :
  (accessedAt
     <$> getLessonProgress
           (updateLessonProgress (emptyStorage true) 3 1
              (mkLessonPatch None None None None None None None
                 (Some "t-from-patch"%string) None)
              None "t-now") 3 1 None)
  = Some "t-from-patch"%string.
Proof.
  destruct (updateLessonProgress_lookup (emptyStorage true) 3 1
              (mkLessonPatch None None None None None None None
                 (Some "t-from-patch"%string) None)
              None "t-now" eq_refl eq_refl eq_refl eq_refl)
    as (r & Hr & _ & _ & _ & _ & Ha & _).
  rewrite Hr. simpl. rewrite Ha. reflexivity.
Defined.

(** *** Without a browser window *)

Lemma inert_enroll st c u now :
  window_defined st = false -> snd (enrollInFreeCourse st c u now) = st.
Proof. apply enroll_without_window. Qed.

Lemma inert_unenroll st c u :
  window_defined st = false -> snd (unenrollFromCourse st c u) = st.
Proof. by destruct st as [[] ? ? ?]. Qed.

Lemma inert_initialize st c u now :
  window_defined st = false -> initializeCourseProgress st c u now = st.
Proof. by destruct st as [[] ? ? ?]. Qed.

Lemma inert_remove st c u :
  window_defined st = false -> removeCourseProgress st c u = st.
Proof. by destruct st as [[] ? ? ?]. Qed.

Lemma inert_updateCourse st c p u now :
  window_defined st = false -> updateCourseProgress st c p u now = st.
Proof. by destruct st as [[] ? ? ?]. Qed.

Lemma inert_mark st l c u now :
  window_defined st = false -> markLessonCompleted st l c u now = st.
Proof. by destruct st as [[] ? ? ?]. Qed.

Lemma inert_updateLesson st l c p u now :
  window_defined st = false -> updateLessonProgress st l c p u now = st.
Proof. by destruct st as [[] ? ? ?]. Qed.

Lemma inert_reset st :
  window_defined st = false -> resetAllCourseData st = st.
Proof. by destruct st as [[] ? ? ?]. Qed.

(** X10.  Outside a browser (no [window]) the store is inert: no sequence
    of store and coordinator operations changes it, every read gives its
    empty default, and enrolling still answers [true]. *)
Theorem store_inert_without_window
    {R : Type} {client : TutorApiClient R}
    (acts : list (Action * string)) (s : System R) :
  window_defined (storage (world s)) = false ->
  let st := storage (world (run acts s)) in
  st = storage (world s)
  /\ (forall c u, isEnrolledInCourse st c u = false
                  /\ getEnrolledCourses st u = []
                  /\ getCourseProgress st c u = None
                  /\ calculateOverallProgress st c u = 0)
  /\ (forall l c u, getLessonProgress st l c u = None
                    /\ isLessonCompleted st l c u = false)
  /\ (forall c u now, fst (enrollInFreeCourse st c u now) = true).
Proof.
  intros Hw st.
  assert (st = storage (world s)) as Hst.
  { apply (run_invariant (fun st' => st' = storage (world s))
             (fun _ => True) (fun _ => True) (fun _ => True)); try done.
    - intros st0 c u now ->. by apply inert_enroll.
    - intros st0 c u ->. by apply inert_unenroll.
    - intros st0 c u now ->. by apply inert_initialize.
    - intros st0 c u ->. by apply inert_remove.
    - intros st0 l c u now ->. by apply inert_mark.
    - intros st0 ->. by apply inert_reset.
    - intros st0 c p u now _ ->. by apply inert_updateCourse.
    - intros st0 l c p u now _ ->. by apply inert_updateLesson.
    - apply Forall_forall. by intros [[] ?] _. }
  split; [done|]. rewrite Hst.
  unfold isEnrolledInCourse, getEnrolledCourses, getCourseProgress,
    calculateOverallProgress, getLessonProgress, isLessonCompleted,
    getCourseProgress, getLessonProgress, getEnrollments,
    getCourseProgressData, getLessonProgressData.
  rewrite Hw. repeat split. apply enrollInFreeCourse_true.
Qed.

Lemma store_inert_without_window_witness :
  storage (world
    (run (client := Scripted.client None None)
       [(SyncEnroll 1, "t0"%string);
        (LocalMarkLesson 3 1 (Some 7), "t1"%string);
        (SyncGetProgress 1, "t2"%string)]
       (mkSystem Examples.capable
          (mkWorld (emptyStorage false) Scripted.accepting []))))
  = emptyStorage false.
Proof.
  apply (store_inert_without_window (client := Scripted.client None None)
           [(SyncEnroll 1, "t0"%string);
            (LocalMarkLesson 3 1 (Some 7), "t1"%string);
            (SyncGetProgress 1, "t2"%string)]
           (mkSystem Examples.capable
              (mkWorld (emptyStorage false) Scripted.accepting []))).
  reflexivity.
Defined.

(** *** Export *)

Lemma Forall_list_filter_holds {A : Type} (f : A -> bool) (l : list A) :
  Forall (fun x => f x = true) (List.filter f l).
Proof.
  induction l as [|z l IH]; simpl; [done|].
  destruct (f z) eqn:Fz; [constructor|]; done.
Qed.

(** X11.  [exportUserProgress] with a nonzero user id exports exactly that
    user's records: every exported record stores that id, and the courses
    of the exported enrollments are the ones [getEnrolledCourses] lists.
    Without a user id (or with 0) it exports every stored record, of every
    user. *)
Theorem exportUserProgress_scope st (n : Z) :
  n <> 0 ->
  let mine := exportUserProgress st (Some n) in
  e_courseId <$> x_enrollments mine = getEnrolledCourses st (Some n)
  /\ Forall (fun e => e_userId e = Some n) (x_enrollments mine)
  /\ Forall (fun p => userId p = Some n) (x_courseProgress mine)
  /\ Forall (fun p => l_userId p = Some n) (x_lessonProgress mine)
  /\ (forall u, truthy_id u = false ->
        exportUserProgress st u
        = mkExport (getEnrollments st) (getCourseProgressData st)
            (getLessonProgressData st)).
Proof.
  intros Hn mine. subst mine. unfold exportUserProgress. simpl.
  assert (truthy_num n = true) as ->
    by (unfold truthy_num; by destruct (Z.eqb_spec n 0)).
  simpl. split; [|split; [|split; [|split]]].
  - unfold getEnrolledCourses. f_equal.
    induction (getEnrollments st) as [|e es IH]; simpl; [done|].
    rewrite user_matches_nonzero, strict_eq_Some by done.
    destruct (bool_decide _); by rewrite IH.
  - eapply Forall_impl; [apply Forall_list_filter_holds|].
    intros e He. simpl in He. rewrite strict_eq_Some in He.
    by apply bool_decide_eq_true in He.
  - eapply Forall_impl; [apply Forall_list_filter_holds|].
    intros e He. simpl in He. rewrite strict_eq_Some in He.
    by apply bool_decide_eq_true in He.
  - eapply Forall_impl; [apply Forall_list_filter_holds|].
    intros e He. simpl in He. rewrite strict_eq_Some in He.
    by apply bool_decide_eq_true in He.
  - intros u Hu. by rewrite Hu.
Qed.

Lemma exportUserProgress_scope_witness :
  e_courseId <$> x_enrollments (exportUserProgress Examples.oneLessonDone (Some 7))
  = [1].
Proof.
  destruct (exportUserProgress_scope Examples.oneLessonDone 7 ltac:(done))
    as (H & _).
  rewrite H. reflexivity.
Defined.

End LessonExtras.

Module NavigationExtras.

Import LocalMore Player.

(** *** Lists *)

Lemma find_app {A : Type} (f : A -> bool) (l l' : list A) :
  find f (l ++ l')
  = match find f l with
    | Some x => Some x
    | None => find f l'
    end.
Proof.
  induction l as [|z l IH]; simpl; [done|]. by destruct (f z).
Qed.

Lemma findIndex_app {A : Type} (f : A -> bool) (l l' : list A) :
  findIndex f (l ++ l')
  = match findIndex f l with
    | Some i => Some i
    | None => (fun j => (length l + j)%nat) <$> findIndex f l'
    end.
Proof.
  induction l as [|z l IH]; simpl.
  - by destruct (findIndex f l').
  - destruct (f z); [done|]. rewrite IH.
    destruct (findIndex f l); [done|]. by destruct (findIndex f l').
Qed.

Lemma find_drop_None {A : Type} (f : A -> bool) (l : list A) (n : nat) :
  find f l = None -> find f (drop n l) = None.
Proof.
  revert n. induction l as [|z l IH]; intros [|n]; simpl; try done.
  destruct (f z); [done|]. apply IH.
Qed.

Lemma findIndex_lt {A : Type} (f : A -> bool) (l : list A) (i : nat) :
  findIndex f l = Some i -> (i < length l)%nat.
Proof.
  intros H. destruct (findIndex_Some _ _ _ H) as (x & Hx & _).
  by apply lookup_lt_Some in Hx.
Qed.

Lemma findIndex_None_find {A : Type} (f g : A -> bool) (l : list A) :
  (forall x, f x = true -> g x = true) ->
  find g l = None -> findIndex f l = None.
Proof.
  intros Hfg. induction l as [|z l IH]; simpl; [done|].
  destruct (g z) eqn:Gz; [done|]. intros H. rewrite (IH H).
  destruct (f z) eqn:Fz; [|done]. apply Hfg in Fz. congruence.
Qed.

(** *** The library's next-lesson search *)

Lemma firstLessonOf_outline (rest : list Topic) :
  firstLessonOf rest = find isLessonItem (concat (contents <$> rest)).
Proof.
  induction rest as [|t rest IH]; [done|].
  cbn [firstLessonOf]. rewrite fmap_cons. cbn [concat].
  rewrite find_app, IH. done.
Qed.

Lemma isCurrentLesson_lesson cur x :
  isCurrentLesson cur x = true -> isLessonItem x = true.
Proof. unfold isCurrentLesson. by intros [? _]%andb_true_iff. Qed.

Lemma nextInOutline_no_lesson cur flat :
  find isLessonItem flat = None -> nextInOutline cur flat = None.
Proof.
  intros H. unfold nextInOutline.
  rewrite (findIndex_None_find _ isLessonItem); try done.
  apply isCurrentLesson_lesson.
Qed.

Lemma nextLessonFrom_outline c cur (remaining : list Topic) :
  nextLessonFrom c cur remaining
  = (fun x => getLessonUrl c (ci_id x) None)
      <$> nextInOutline cur (concat (contents <$> remaining)).
Proof.
  induction remaining as [|t rest IH]; [done|].
  cbn [nextLessonFrom]. rewrite fmap_cons. cbn [concat].
  unfold nextInOutline. rewrite findIndex_app.
  destruct (findIndex (isCurrentLesson cur) (contents t)) as [i|] eqn:Hi.
  - pose proof (findIndex_lt _ _ _ Hi) as Hlt.
    rewrite drop_app_le by lia. rewrite find_app.
    destruct (find isLessonItem (drop (S i) (contents t))); [done|].
    rewrite firstLessonOf_outline.
    destruct (find isLessonItem (concat (contents <$> rest))) eqn:Hrest;
      [done|].
    rewrite IH. by rewrite nextInOutline_no_lesson.
  - rewrite IH. unfold nextInOutline.
    destruct (findIndex (isCurrentLesson cur) (concat (contents <$> rest)))
      as [j|]; simpl; [|done].
    replace (S (length (contents t) + j))
      with (length (contents t) + S j)%nat by lia.
    by rewrite drop_app_add.
Qed.

(** X12.  [getNextLessonUrl], with its nested loops over topics, is a search
    in the flat outline of the course: it returns the URL of the first
    lesson that follows the first occurrence of the current lesson, and
    [null] when the current lesson does not occur or no lesson follows it.
    Quizzes and assignments in between are skipped. *)
Theorem getNextLessonUrl_outline currentLessonId courseContent :
  getNextLessonUrl currentLessonId courseContent
  = (fun next => getLessonUrl (course_id courseContent) (ci_id next) None)
      <$> nextInOutline currentLessonId (outline courseContent).
Proof. apply nextLessonFrom_outline. Qed.

(** *** The player's own next-lesson search *)

Lemma nextLessonFrom_skip c cur (before rest : list Topic) :
  Forall (fun t => findIndex (isCurrentLesson cur) (contents t) = None) before ->
  nextLessonFrom c cur (before ++ rest) = nextLessonFrom c cur rest.
Proof.
  induction 1 as [|t before Ht _ IH]; simpl; [done|]. by rewrite Ht.
Qed.

Lemma split_at {A : Type} (l : list A) (i : nat) x :
  l !! i = Some x -> l = take i l ++ x :: drop (S i) l.
Proof. intros H. symmetry. by apply take_drop_middle. Qed.

(** X13.  The player's [getNextLesson] reads the position of the current
    lesson with [findIndex(...) || -1], so position 0 counts as not found.
    When the current lesson is the first content of the selected topic, the
    player answers with the first lesson of the topics that follow and
    never with a later lesson of the same topic, whereas the library's
    [getNextLessonUrl] (no earlier topic holding the lesson) answers with
    that later lesson. *)
Theorem getNextLesson_skips_rest_of_topic
    (courseContent : TutorCourseContent) (lessonId topicId : Z)
    (i : nat) (topic : Topic) (next : ContentItem) :
  lessonId <> 0 ->
  findIndex (fun t => topic_id t =? topicId) (topics courseContent) = Some i ->
  topics courseContent !! i = Some topic ->
  findIndex (isCurrentLesson lessonId) (contents topic) = Some O ->
  find isLessonItem (drop 1 (contents topic)) = Some next ->
  Forall (fun t => findIndex (isCurrentLesson lessonId) (contents t) = None)
    (take i (topics courseContent)) ->
  getNextLesson (Some courseContent) (Some lessonId) (Some topicId)
  = firstLessonWithTopic (drop (S i) (topics courseContent))
  /\ getNextLessonUrl lessonId courseContent
     = Some (getLessonUrl (course_id courseContent) (ci_id next) None).
Proof.
  intros Hid Hti Htopic Hfirst Hnext Hbefore. split.
  - unfold getNextLesson. simpl.
    assert (truthy_num lessonId = true) as ->
      by (unfold truthy_num; by destruct (Z.eqb_spec lessonId 0)).
    simpl. rewrite Hti. simpl. rewrite Htopic. simpl.
    unfold isCurrentLesson in Hfirst. by rewrite Hfirst.
  - unfold getNextLessonUrl.
    rewrite (split_at (topics courseContent) i topic Htopic).
    rewrite nextLessonFrom_skip by done. simpl.
    by rewrite Hfirst, Hnext.
Qed.

Lemma getNextLesson_skips_rest_of_topic_witness :
  getNextLesson (Some Extra.demoCourse) (Some 1) (Some 10) = Some (3, 20)
  /\ getNextLessonUrl 1 Extra.demoCourse
     = Some "/courses/learn/5/lesson/2"%string.
Proof.
  destruct (getNextLesson_skips_rest_of_topic Extra.demoCourse 1 10 O
              (mkTopic 10 "First" "" 5 1
                 [Extra.lessonItem 1; Extra.quizItem 7; Extra.lessonItem 2])
              (Extra.lessonItem 2)
              ltac:(done) eq_refl eq_refl eq_refl eq_refl (Forall_nil_2 _))
    as [Hplayer Hlibrary].
  split; [rewrite Hplayer|rewrite Hlibrary]; reflexivity.
Defined.

End NavigationExtras.

(** * Further properties of the coordinator *)

Module SyncExtras.

Import Api Sync Run Inv Examples Extra.
Import LocalFacts StoreInvariants SyncFacts QueueFacts.

Section WithClient.

Context {R : Type} {client : TutorApiClient R}.

Implicit Types (this : TutorEnrollmentSync) (w : World R).

(** X14.  Reading progress during a remote outage.  When the coordinator
    cannot reach the remote, or the call is rejected, or the envelope is
    unsuccessful or carries no body, [getCourseProgress] returns the local
    record and leaves the store as it was. *)
Theorem getCourseProgress_falls_back this w c now :
  (remoteCapable this = false
   \/ match fst (Api.getCourseProgress c (userId this) (remote w)) with
      | Resolved resp => success resp = false \/ data resp = None
      | Rejected _ => True
      end) ->
  let result := Sync.getCourseProgress this w c now in
  fst result = Local.getCourseProgress (storage w) c (userId this)
  /\ storage (snd result) = storage w.
Proof.
  intros Hfail result. subst result. unfold Sync.getCourseProgress.
  destruct (remoteCapable this); [|done].
  destruct Hfail as [?|Hfail]; [done|]. unfold invoke.
  destruct (Api.getCourseProgress c (userId this) (remote w))
    as [[resp|?] r']; simpl in *; [|done].
  destruct Hfail as [Hs|Hd].
  - rewrite Hs. by destruct (data resp).
  - by rewrite Hd.
Qed.

(** X15.  Checking enrollment against the server.  When the server answers
    successfully with [b], the coordinator returns [b].  If the server says
    enrolled and the local store does not, the local store is enrolled as
    a side effect; if the server says not enrolled while the local store
    says enrolled, nothing is removed and the local store keeps saying
    enrolled. *)
Theorem isEnrolledInCourse_server_wins this w c now resp r' (b : bool) :
  remoteCapable this = true ->
  Api.isUserEnrolled c (userId this) (remote w) = (Resolved resp, r') ->
  success resp = true ->
  data resp = Some b ->
  let localResult := Local.isEnrolledInCourse (storage w) c (userId this) in
  let result := Sync.isEnrolledInCourse this w c now in
  fst result = Some b
  /\ storage (snd result)
     = (if b && negb localResult
        then snd (Local.enrollInFreeCourse (storage w) c (userId this) now)
        else storage w)
  /\ (b = false ->
      Local.isEnrolledInCourse (storage (snd result)) c (userId this)
      = localResult)
  /\ (b = true -> Local.window_defined (storage w) = true ->
      Local.isEnrolledInCourse (storage (snd result)) c (userId this) = true).
Proof.
  intros Hcap Hcall Hs Hd localResult result.
  assert (fst result = Some b
          /\ storage (snd result)
             = (if b && negb localResult
                then snd (Local.enrollInFreeCourse (storage w) c (userId this) now)
                else storage w)) as [Hres Hst].
  { subst result. unfold Sync.isEnrolledInCourse. rewrite Hcap.
    unfold invoke. rewrite Hcall, Hs, Hd. simpl. fold localResult.
    destruct b, localResult; simpl; try done.
    by destruct (Local.enrollInFreeCourse (storage w) c (userId this) now). }
  split; [done|]. split; [done|]. rewrite Hst. split.
  - by intros ->.
  - intros -> Hw. simpl. destruct localResult eqn:Hl; simpl; [done|].
    by apply enrolled_after_enroll.
Qed.

(** X16.  [enrollInFreeCourse] in every situation.  It returns [true], the
    local store is exactly what the local enrollment makes of it, the
    remote is called once if and only if the coordinator is remote-capable,
    and one retry entry is queued unless that call resolved with a success
    envelope.  Nothing depends on whether the course was already enrolled:
    a repeated call calls or queues again. *)
Theorem enrollInFreeCourse_outcomes this w c now :
  let o := fst (Api.enrollInCourse c (userId this) (remote w)) in
  let result := Sync.enrollInFreeCourse this w c now in
  fst (fst result) = true
  /\ storage (snd result)
     = snd (Local.enrollInFreeCourse (storage w) c (userId this) now)
  /\ syncQueue (snd (fst result))
     = syncQueue this
         ++ (if remoteCapable this && accepted o then [] else [RetryEnroll c])
  /\ calls (snd result)
     = calls w
         ++ (if remoteCapable this
             then [mkEvent (CallEnrollInCourse c (userId this)) (is_rejected o)]
             else []).
Proof.
  intros o result. subst o result. unfold Sync.enrollInFreeCourse.
  pose proof (enrollInFreeCourse_true (storage w) c (userId this) now) as Ht.
  destruct (Local.enrollInFreeCourse (storage w) c (userId this) now)
    as [localSuccess st1].
  simpl in Ht. subst localSuccess. simpl.
  destruct (remoteCapable this); simpl; [|by rewrite app_nil_r].
  unfold invoke. simpl.
  destruct (enrollInCourse c (userId this) (remote w)) as [[resp|?] r'];
    simpl; [|done].
  destruct (success resp); simpl; [|done]. by rewrite app_nil_r.
Qed.

(** X17.  [markLessonCompleted] in every situation.  The local store is
    exactly what the local completion makes of it, whatever the remote
    does; the remote is called once if and only if the coordinator is
    remote-capable, and one retry entry is queued unless that call resolved
    with a success envelope. *)
Theorem markLessonCompleted_outcomes this w l c now :
  let o := fst (Api.markLessonCompleted l c (userId this) (remote w)) in
  let result := Sync.markLessonCompleted this w l c now in
  storage (snd result)
  = Local.markLessonCompleted (storage w) l c (userId this) now
  /\ syncQueue (fst result)
     = syncQueue this
         ++ (if remoteCapable this && accepted o then [] else [RetryLesson l c])
  /\ calls (snd result)
     = calls w
         ++ (if remoteCapable this
             then [mkEvent (CallMarkLessonCompleted l c (userId this))
                     (is_rejected o)]
             else []).
Proof.
  intros o result. subst o result. unfold Sync.markLessonCompleted.
  destruct (remoteCapable this); simpl; [|by rewrite app_nil_r].
  unfold invoke. simpl.
  destruct (Api.markLessonCompleted l c (userId this) (remote w))
    as [[resp|?] r']; simpl; [|done].
  destruct (success resp); simpl; [|done]. by rewrite app_nil_r.
Qed.

(** X18.  [syncFromServer] only counts.  Whatever the remote sends, the
    local store is left as it was.  When remote-capable it asks for the
    enrollments first: if that call is rejected it fails with the error's
    message without asking for the progress; if both calls resolve it
    succeeds and reports the lengths of the two lists (0 for an
    unsuccessful or empty envelope). *)
Theorem syncFromServer_counts_only this w :
  let result := syncFromServer this w in
  storage (snd result) = storage w
  /\ (remoteCapable this = true ->
      match getUserEnrollments (userId this) (remote w) with
      | (Rejected reason, _) =>
          fst result = failed (messageOf reason)
          /\ calls (snd result)
             = calls w ++ [mkEvent (CallGetUserEnrollments (userId this)) true]
      | (Resolved enrollmentsResult, r1) =>
          match getUserProgress (userId this) r1 with
          | (Rejected reason, _) => fst result = failed (messageOf reason)
          | (Resolved progressResult, _) =>
              fst result
              = mkSyncResult true None (countOf enrollmentsResult)
                  (countOf progressResult) 0
          end
      end).
Proof.
  intros result. split; [apply storage_syncFromServer|].
  intros Hcap. subst result. unfold syncFromServer. rewrite Hcap. simpl.
  unfold invoke. simpl.
  destruct (getUserEnrollments (userId this) (remote w)) as [[e|?] r1];
    simpl; [|done].
  by destruct (getUserProgress (userId this) r1) as [[p|?] r2].
Qed.

(** *** A coordinator without a client *)

Lemma no_client_not_capable this :
  apiClient this = false -> remoteCapable this = false.
Proof. unfold remoteCapable. intros ->. by rewrite andb_false_r. Qed.

Lemma no_client_processSyncQueue this w :
  apiClient this = false -> processSyncQueue this w = (this, w).
Proof. unfold processSyncQueue. intros ->. by rewrite orb_true_r. Qed.

(** What a step may change when there is no client: the store, the online
    flag, and entries added at the end of the queue. *)
Lemma no_client_step a now (s : System R) :
  apiClient (coordinator s) = false ->
  let s' := step a now s in
  apiClient (coordinator s') = false
  /\ calls (world s') = calls (world s)
  /\ remote (world s') = remote (world s)
  /\ syncQueue (coordinator s) `prefix_of` syncQueue (coordinator s').
Proof.
  intros Hc. destruct s as [this w]. simpl in Hc.
  pose proof (no_client_not_capable this Hc) as Hcap.
  destruct a; simpl;
    unfold Sync.isEnrolledInCourse, Sync.enrollInFreeCourse,
      Sync.markLessonCompleted, Sync.getCourseProgress, syncToServer,
      syncFromServer, onOnline, onOffline, autoSyncTick;
    rewrite ?Hcap, ?Hc, ?andb_false_r; simpl; try done.
  - pose proof (enrollInFreeCourse_true (storage w) c (userId this) now) as Ht.
    destruct (Local.enrollInFreeCourse (storage w) c (userId this) now)
      as [b st1]. simpl in Ht. subst b. simpl.
    repeat split; try done. by apply prefix_app_r.
  - repeat split; try done. by apply prefix_app_r.
  - rewrite no_client_processSyncQueue by done. done.
Qed.

(** X19.  Without an API client (no credentials, or the [offline] option)
    the coordinator never calls the remote and never removes a queued
    entry: along every sequence of operations the log of remote calls and
    the remote state stay as they were and the queue only grows at its end. *)
Theorem no_client_never_calls (acts : list (Action * string)) (s : System R) :
  apiClient (coordinator s) = false ->
  let s' := run acts s in
  apiClient (coordinator s') = false
  /\ calls (world s') = calls (world s)
  /\ remote (world s') = remote (world s)
  /\ syncQueue (coordinator s) `prefix_of` syncQueue (coordinator s').
Proof.
  revert s. induction acts as [|[a now] acts IH]; intros s Hc; simpl.
  - done.
  - destruct (no_client_step a now s Hc) as (Hc1 & Hcalls & Hrem & Hq).
    destruct (IH (step a now s) Hc1) as (Hc2 & Hcalls2 & Hrem2 & Hq2).
    split; [done|]. split; [congruence|]. split; [congruence|].
    by etrans.
Qed.

(** If no attempt is rejected the drain leaves nothing queued. *)
Lemma replay_never_rejected this queue live w :
  apiClient this = true ->
  (forall c u r, is_rejected (fst (enrollInCourse c u r)) = false) ->
  (forall l c u r, is_rejected (fst (Api.markLessonCompleted l c u r)) = false) ->
  fst (replay this queue live w) = live.
Proof.
  intros Hc He Hm. revert live w.
  induction queue as [|operation rest IH]; intros live w; simpl; [done|].
  unfold runOperation. rewrite Hc. destruct operation; simpl; unfold invoke.
  - pose proof (He courseId (userId this) (remote w)) as Hr.
    destruct (enrollInCourse courseId (userId this) (remote w))
      as [[resp|?] r']; [apply IH|done].
  - pose proof (Hm lessonId courseId (userId this) (remote w)) as Hr.
    destruct (Api.markLessonCompleted lessonId courseId (userId this) (remote w))
      as [[resp|?] r']; [apply IH|done].
Qed.


End WithClient.

Lemma getCourseProgress_falls_back_witness :
  fst (Sync.getCourseProgress (client := Scripted.client (Some body40) None)
         capable (mkWorld oneLessonDone Scripted.rejecting []) 1 "t2")
  = Local.getCourseProgress oneLessonDone 1 (Some 7).
Proof.
  apply (getCourseProgress_falls_back
           (client := Scripted.client (Some body40) None)
           capable (mkWorld oneLessonDone Scripted.rejecting []) 1 "t2").
  right. exact I.
Defined.

Lemma isEnrolledInCourse_server_wins_witness :
  fst (Sync.isEnrolledInCourse (client := Scripted.client None (Some false))
         capable (mkWorld oneLessonDone Scripted.accepting []) 1 "t2")
  = Some false
  /\ Local.isEnrolledInCourse
       (storage
          (snd (Sync.isEnrolledInCourse
                  (client := Scripted.client None (Some false))
                  capable (mkWorld oneLessonDone Scripted.accepting []) 1 "t2")))
       1 (Some 7) = true.
Proof.
  destruct (isEnrolledInCourse_server_wins
              (client := Scripted.client None (Some false))
              capable (mkWorld oneLessonDone Scripted.accepting []) 1 "t2"
              (mkResponse true (Some false) None 200) Scripted.accepting false
              eq_refl eq_refl eq_refl eq_refl)
    as (Hres & _ & Hkeep & _).
  split; [exact Hres|]. etrans; [exact (Hkeep eq_refl)|reflexivity].
Defined.

Lemma no_client_never_calls_witness :
  calls (world
    (run (client := Scripted.client None None)
       [(SyncEnroll 1, "t0"%string); (GoOnline, "t1"%string);
        (SyncMarkLesson 3 1, "t2"%string); (SyncToServer, "t3"%string)]
       (mkSystem (create (Some 7) false false (Some true))
          (mkWorld (Local.emptyStorage true) Scripted.accepting []))))
  = [].
Proof.
  destruct (no_client_never_calls (client := Scripted.client None None)
              [(SyncEnroll 1, "t0"%string); (GoOnline, "t1"%string);
               (SyncMarkLesson 3 1, "t2"%string); (SyncToServer, "t3"%string)]
              (mkSystem (create (Some 7) false false (Some true))
                 (mkWorld (Local.emptyStorage true) Scripted.accepting []))
              eq_refl)
    as (_ & Hcalls & _).
  exact Hcalls.
Defined.


End SyncExtras.

(** * Properties of the repository's API client *)

Module ClientExtras.

Import Api Sync Extra.
Import QueueFacts SyncExtras.

Section WithNetwork.

Context {N J : Type} {network : Client.Network N J}.

Variables (WORDPRESS_URL now : string).

Lemma makeRequest_consistent {T : Type} (view : J -> T) u m b n :
  consistent (fst (Client.makeRequest view u m b n)).
Proof.
  unfold Client.makeRequest.
  destruct (Client.fetch _ n) as [[reason|ok st [d|reason]] n']; simpl.
  - right. by eauto.
  - destruct ok; simpl; [by left|].
    destruct (Client.errorText d); simpl; right; by eauto.
  - right. by eauto.
Qed.

(** X21.  Envelopes of the API client are consistent whatever the network
    does (rejected [fetch], unparsable body, error status): a success
    carries no error, a failure carries an error message and no data.  The
    404 fallback of the two writing methods keeps that shape, and
    [isUserEnrolled] always carries a boolean, [true] only on success. *)
Theorem envelopes_consistent c l u n :
  consistent (fst (Client.enrollInCourse WORDPRESS_URL now c u n))
  /\ consistent (fst (Client.markLessonCompleted WORDPRESS_URL now l c u n))
  /\ consistent (fst (Client.getCourseProgress WORDPRESS_URL c u n))
  /\ consistent (fst (Client.getUserEnrollments WORDPRESS_URL u n))
  /\ consistent (fst (Client.getUserProgress WORDPRESS_URL u n))
  /\ (exists b,
        data (fst (Client.isUserEnrolled WORDPRESS_URL c u n)) = Some b
        /\ (b = true ->
            success (fst (Client.isUserEnrolled WORDPRESS_URL c u n)) = true)).
Proof.
  repeat split; try apply makeRequest_consistent.
  - unfold Client.enrollInCourse.
    pose proof (makeRequest_consistent (fun _ : J => tt)
                  (Client.TUTOR_API_BASE WORDPRESS_URL +:+ "/enrollments")
                  Client.POST (Some (Client.EnrollmentData c u now)) n) as H1.
    destruct (Client.makeRequest _ _ _ _ n) as [result n1]. simpl in H1.
    destruct (negb (success result) && (status result =? 404)); [|done].
    apply makeRequest_consistent.
  - unfold Client.markLessonCompleted.
    pose proof (makeRequest_consistent (fun _ : J => tt)
                  (Client.TUTOR_API_BASE WORDPRESS_URL +:+ "/progress/lessons")
                  Client.POST (Some (Client.LessonData l c u now)) n) as H1.
    destruct (Client.makeRequest _ _ _ _ n) as [result n1]. simpl in H1.
    destruct (negb (success result) && (status result =? 404)); [|done].
    apply makeRequest_consistent.
  - unfold Client.isUserEnrolled.
    destruct (Client.makeRequest _ _ _ _ n) as [result n1]. simpl.
    eexists. split; [done|]. by intros [? _]%andb_true_iff.
Qed.

Lemma client_never_rejects_enroll c u (r : N) :
  is_rejected
    (fst (enrollInCourse (TutorApiClient := Client.client WORDPRESS_URL now)
            c u r)) = false.
Proof.
  simpl. by destruct (Client.enrollInCourse WORDPRESS_URL now c u r).
Qed.

Lemma client_never_rejects_lesson l c u (r : N) :
  is_rejected
    (fst (Api.markLessonCompleted
            (TutorApiClient := Client.client WORDPRESS_URL now) l c u r))
  = false.
Proof.
  simpl. by destruct (Client.markLessonCompleted WORDPRESS_URL now l c u r).
Qed.

(** X20.  With the repository's own client a queued retry is attempted
    once and then forgotten.  The client turns every transport failure
    into a resolved envelope and the queued closure does not look at the
    envelope, so every drain that runs (online, client present) attempts
    each entry once and leaves the queue empty, whatever the network
    answers; [syncToServer] then reports [synced.enrollments = 0]. *)
Theorem client_drain_empties_queue (this : TutorEnrollmentSync) (w : World N) :
  isOnline this = true ->
  apiClient this = true ->
  let drained :=
    processSyncQueue (client := Client.client WORDPRESS_URL now) this w in
  let reported :=
    syncToServer (client := Client.client WORDPRESS_URL now) this w in
  syncQueue (fst drained) = []
  /\ length (calls (snd drained))
     = (length (calls w) + length (syncQueue this))%nat
  /\ (truthy_id (userId this) = true ->
      r_success (fst (fst reported)) = true
      /\ synced_enrollments (fst (fst reported)) = O
      /\ syncQueue (snd (fst reported)) = []).
Proof.
  intros Ho Hc drained reported.
  assert (drained
          = (setQueue this [],
             snd (replay (client := Client.client WORDPRESS_URL now)
                    this (syncQueue this) [] w))) as Hd.
  { subst drained. unfold processSyncQueue. rewrite Ho, Hc. simpl.
    pose proof (replay_never_rejected
                  (client := Client.client WORDPRESS_URL now)
                  this (syncQueue this) [] w Hc
                  client_never_rejects_enroll client_never_rejects_lesson)
      as Hq.
    destruct (replay this (syncQueue this) [] w) as [live w']. simpl in *.
    by subst live. }
  split; [by rewrite Hd|]. split.
  - rewrite Hd. simpl.
    destruct (replay_attempts (client := Client.client WORDPRESS_URL now)
                this (syncQueue this) [] w Hc) as (attempts & Ha & Hb & _).
    rewrite Ha, length_app. f_equal.
    by rewrite <- (length_fmap ev_call), Hb, length_fmap.
  - intros Hu. subst reported. unfold syncToServer.
    assert (remoteCapable this = true) as ->
      by (unfold remoteCapable; by rewrite Ho, Hc, Hu).
    simpl. fold drained. rewrite Hd. done.
Qed.

End WithNetwork.

Lemma client_drain_empties_queue_witness :
  let this := mkSync true (Some 7) true [RetryEnroll 42; RetryLesson 3 1] in
  let w := mkWorld (Local.emptyStorage true) tt [] in
  syncQueue
    (fst (processSyncQueue
            (client := Client.client (network := Client.down)
                         "https://example.org" "t0")
            this w))
  = [].
Proof.
  intros this w.
  destruct (client_drain_empties_queue (network := Client.down)
              "https://example.org" "t0" this w eq_refl eq_refl)
    as (Hq & _).
  exact Hq.
Defined.

End ClientExtras.

(** * Properties of the course price and access helpers *)

Module UtilsExtras.

Import CourseUtils Extra.

Lemma noPrice_false (s : option string) :
  noPrice s = false
  <-> exists p, s = Some p /\ p <> ""%string /\ p <> "0"%string.
Proof.
  unfold noPrice, truthy_str. destruct s as [p|]; simpl.
  - destruct p as [|a p']; simpl.
    + split; [done|]. by intros (q & [= <-] & ? & _).
    + rewrite orb_false_r. split.
      * intros H. apply bool_decide_eq_false in H. exists (String a p').
        split; [done|]. split; [done|]. congruence.
      * intros (q & [= <-] & _ & Hq). apply bool_decide_eq_false_2.
        congruence.
  - split; [done|]. by intros (q & ? & _).
Qed.

Lemma isFreeType_false (t : option PriceType) :
  isFreeType t = false <-> t <> Some free.
Proof. destruct t as [[]|]; simpl; split; congruence. Qed.

(** X22.  A course counts as paid only when all four price indications
    agree: neither price type says free and both the course's own price and
    the price in its meta are present, non-empty and not "0".  In
    particular a course whose meta carries no price is free whatever its
    own price. *)
Theorem paid_iff_all_indications (course : TutorCourse) :
  (isTutorCoursePaid course = true
   <-> price_type course <> Some free
       /\ (meta course ≫= _tutor_course_price_type) <> Some free
       /\ (exists p, price course = Some p /\ p <> ""%string /\ p <> "0"%string)
       /\ (exists q, (meta course ≫= _tutor_course_price) = Some q
                     /\ q <> ""%string /\ q <> "0"%string))
  /\ ((meta course ≫= _tutor_course_price) = None ->
      isTutorCourseFree course = true).
Proof.
  unfold isTutorCoursePaid, isTutorCourseFree. split.
  - rewrite <- !isFreeType_false, <- !noPrice_false.
    destruct (isFreeType (price_type course)),
      (isFreeType (meta course ≫= _tutor_course_price_type)),
      (noPrice (price course)),
      (noPrice (meta course ≫= _tutor_course_price));
      simpl; split; try done; intros (? & ? & ? & ?); done.
  - intros ->. simpl. by repeat case_match.
Qed.

(** X23.  Who may enroll: the decision is positive exactly when the course
    is published and is free or the visitor is logged in; a reason is
    given exactly when the decision is negative. *)
Theorem canEnroll_iff (course : TutorCourse) (isLoggedIn : bool) :
  let decision := canEnrollInTutorCourse course isLoggedIn in
  (canEnroll decision = true
   <-> status course = publish
       /\ (isTutorCourseFree course = true \/ isLoggedIn = true))
  /\ (reason decision = None <-> canEnroll decision = true).
Proof.
  unfold canEnrollInTutorCourse, isTutorCourseEnrollmentOpen.
  destruct (status course) eqn:Hs; simpl;
    try (split; split; try done; by intros [? _]).
  destruct (bool_decide _); simpl;
    destruct (isTutorCourseFree course), isLoggedIn; simpl;
    split; split; try done; try (intros _; split; [done|]; by eauto);
    by intros [_ [?|?]].
Qed.

Lemma filter_partition {A : Type} (f : A -> bool) (l : list A) :
  List.filter f l ++ List.filter (fun x => negb (f x)) l ≡ₚ l.
Proof.
  induction l as [|z l IH]; simpl; [done|].
  destruct (f z); simpl.
  - by rewrite IH.
  - rewrite <- Permutation_middle. by rewrite IH.
Qed.

(** X24.  The price filter partitions the catalogue: the free courses and
    the paid courses together are a rearrangement of all courses, no
    course is in both, and the filter [all] returns the list unchanged. *)
Theorem price_filter_partitions (courses : list TutorCourse) :
  filterTutorCoursesByPrice courses onlyFree
    ++ filterTutorCoursesByPrice courses onlyPaid ≡ₚ courses
  /\ (forall course,
        course ∈ filterTutorCoursesByPrice courses onlyFree ->
        course ∈ filterTutorCoursesByPrice courses onlyPaid -> False)
  /\ filterTutorCoursesByPrice courses all = courses.
Proof.
  split; [apply filter_partition|]. split; [|done].
  intros course Hf Hp. simpl in *.
  apply list_elem_of_In, filter_In in Hf as [_ Hf].
  apply list_elem_of_In, filter_In in Hp as [_ Hp].
  unfold isTutorCoursePaid in Hp. rewrite Hf in Hp. done.
Qed.

(** X25.  The price label.  A free course is labelled "Free"; a paid
    course is labelled with a dollar sign followed by the course's own
    price, never by the meta price; so the label is "Free" exactly for the
    free courses. *)
Theorem price_label (course : TutorCourse) :
  (isTutorCourseFree course = true -> getTutorCoursePrice course = "Free"%string)
  /\ (isTutorCourseFree course = false ->
      exists p, price course = Some p
                /\ getTutorCoursePrice course = ("$" +:+ p)%string)
  /\ (getTutorCoursePrice course = "Free"%string
      <-> isTutorCourseFree course = true).
Proof.
  assert (isTutorCourseFree course = false ->
          exists p, price course = Some p
                    /\ getTutorCoursePrice course = ("$" +:+ p)%string) as Hpaid.
  { intros Hf. unfold getTutorCoursePrice. rewrite Hf.
    unfold isTutorCourseFree in Hf.
    destruct (isFreeType (price_type course)); [done|].
    destruct (isFreeType (meta course ≫= _tutor_course_price_type)); [done|].
    destruct (noPrice (price course)) eqn:Hn; [done|].
    apply noPrice_false in Hn as (p & Hp & Hne & Hz).
    exists p. split; [done|]. rewrite Hp.
    destruct p as [|a p']; [done|]. simpl.
    rewrite bool_decide_eq_false_2 by congruence. done. }
  split; [|split; [done|]].
  - intros Hf. unfold getTutorCoursePrice. by rewrite Hf.
  - split.
    + intros Hlabel. destruct (isTutorCourseFree course) eqn:Hf; [done|].
      destruct (Hpaid eq_refl) as (p & _ & Hp). rewrite Hp in Hlabel.
      discriminate.
    + intros Hf. unfold getTutorCoursePrice. by rewrite Hf.
Qed.

Lemma price_label_witness :
  getTutorCoursePrice pricedCourse = "$49.99"%string
  /\ getTutorCoursePrice pricedWithoutMeta = "Free"%string.
Proof.
  destruct (price_label pricedCourse) as (_ & Hpaid & _).
  destruct (Hpaid eq_refl) as (p & Hp & Hlabel).
  destruct (price_label pricedWithoutMeta) as (Hfree & _ & _).
  split; [|exact (Hfree eq_refl)].
  rewrite Hlabel. injection Hp as <-. reflexivity.
Defined.

End UtilsExtras.
